(** * A shallow embedding of the RSFS storage core

    The development follows the C++ sources of the file system:
    - [FSTypes.h]     constants, [ErrorCode], [Result], [Inode], [Bitmap];
    - [DiskImage.cpp] block-addressed image ([readBlock], [writeBlock]);
    - [Cache.cpp]     [LRUCache] and [CachedDisk];
    - [Allocator.cpp] bitmaps, reference counts, inode table;
    - [Snapshot.cpp]  the copy-on-write contract and [createSnapshot];
    - [Directory.cpp] paths, file block lookup, read, write, truncate.

    Conventions.  A [uint32_t] is a [Z] with its wrap-around written out
    ([u32]); a byte is a [Z] in [0, 256); a block is a list of 1024 bytes and
    the [BlockNo*] view of a block is the little-endian decoding ([ptr_at]).
    A C++ method that mutates its object takes the object and returns the
    new one next to its result; an [Inode&] parameter is returned as well.
    Mutexes and the I/O and allocation statistics are left out: no modelled
    function reads them.  The host stream below [DiskImage] never fails. *)

From Stdlib Require Import ZArith List Bool Ascii String Lia.
From stdpp Require Import base option list gmap.
Import ListNotations.
Local Open Scope Z_scope.

(** ** FSTypes.h *)

Definition BLOCK_SIZE : Z := 1024.
Definition NUM_DIRECT_BLOCKS : Z := 12.
Definition PTRS_PER_BLOCK : Z := 256.
Definition MAX_FILENAME_LEN : Z := 56.
Definition INVALID_BLOCK : Z := 4294967295.
Definition INVALID_INODE : Z := 4294967295.
Definition ROOT_INODE : Z := 0.
Definition INODES_PER_BLOCK : Z := 8.
Definition DIRENTRIES_PER_BLOCK : Z := 16.
Definition MAX_SNAPSHOT_NAME_LEN : Z := 32.

(** Arithmetic on [uint32_t] wraps modulo 2^32. *)
Definition u32 (x : Z) : Z := x mod 4294967296.
(** [static_cast<int32_t>] of a [uint32_t] value. *)
Definition i32 (x : Z) : Z := if x <? 2147483648 then x else x - 4294967296.

Inductive ErrorCode : Set :=
| OK | E_IO | E_INTERNAL | E_INVALID_PARAM
| E_NOT_FOUND | E_ALREADY_EXISTS | E_NOT_DIR | E_IS_DIR | E_NOT_EMPTY
| E_INVALID_PATH | E_NAME_TOO_LONG
| E_NO_SPACE | E_NO_INODE | E_FILE_TOO_LARGE
| E_PERMISSION
| E_SNAPSHOT_NOT_FOUND | E_SNAPSHOT_EXISTS | E_MAX_SNAPSHOTS.

Inductive Result (T : Type) : Type :=
| success (value : T)
| failure (error : ErrorCode).
Arguments success {T} value.
Arguments failure {T} error.

Definition ok {T} (r : Result T) : bool :=
  match r with success _ => true | failure _ => false end.

Inductive FileType : Set := FREE | REGULAR | DIRECTORY | SYMLINK.

Record Inode : Type := mkInode {
  type : FileType;
  permissions : Z;
  flags : Z;
  size : Z;
  link_count : Z;
  ref_count : Z;
  create_time : Z;
  modify_time : Z;
  access_time : Z;
  direct_blocks : list Z;
  single_indirect : Z;
  double_indirect : Z;
  block_count : Z;
  checksum : Z
}.

Definition isDirectory (i : Inode) : bool :=
  match type i with DIRECTORY => true | _ => false end.
Definition isRegularFile (i : Inode) : bool :=
  match type i with REGULAR => true | _ => false end.

Definition maxBlocks : Z :=
  NUM_DIRECT_BLOCKS + PTRS_PER_BLOCK + PTRS_PER_BLOCK * PTRS_PER_BLOCK.
Definition maxFileSize : Z := maxBlocks * BLOCK_SIZE.

(* Field updates of the [Inode] record. *)
Definition set_size (i : Inode) (v : Z) : Inode :=
  mkInode (type i) (permissions i) (flags i) v (link_count i) (ref_count i)
          (create_time i) (modify_time i) (access_time i) (direct_blocks i)
          (single_indirect i) (double_indirect i) (block_count i) (checksum i).
Definition set_times (i : Inode) (m a : Z) : Inode :=
  mkInode (type i) (permissions i) (flags i) (size i) (link_count i)
          (ref_count i) (create_time i) m a (direct_blocks i)
          (single_indirect i) (double_indirect i) (block_count i) (checksum i).
Definition set_direct_blocks (i : Inode) (v : list Z) : Inode :=
  mkInode (type i) (permissions i) (flags i) (size i) (link_count i)
          (ref_count i) (create_time i) (modify_time i) (access_time i) v
          (single_indirect i) (double_indirect i) (block_count i) (checksum i).
Definition set_single_indirect (i : Inode) (v : Z) : Inode :=
  mkInode (type i) (permissions i) (flags i) (size i) (link_count i)
          (ref_count i) (create_time i) (modify_time i) (access_time i)
          (direct_blocks i) v (double_indirect i) (block_count i) (checksum i).
Definition set_double_indirect (i : Inode) (v : Z) : Inode :=
  mkInode (type i) (permissions i) (flags i) (size i) (link_count i)
          (ref_count i) (create_time i) (modify_time i) (access_time i)
          (direct_blocks i) (single_indirect i) v (block_count i) (checksum i).
Definition set_block_count (i : Inode) (v : Z) : Inode :=
  mkInode (type i) (permissions i) (flags i) (size i) (link_count i)
          (ref_count i) (create_time i) (modify_time i) (access_time i)
          (direct_blocks i) (single_indirect i) (double_indirect i) v
          (checksum i).

(** [inode.direct_blocks[k]] and [inode.direct_blocks[k] = v], [k < 12]. *)
Definition direct_block (i : Inode) (k : Z) : Z :=
  nth (Z.to_nat k) (direct_blocks i) INVALID_BLOCK.
Definition set_direct_block (i : Inode) (k v : Z) : Inode :=
  set_direct_blocks i (<[Z.to_nat k := v]> (direct_blocks i)).

(** [void Inode::init(FileType t)] *)
Definition Inode_init (t : FileType) : Inode :=
  mkInode t 7 0 0 1 1 0 0 0 (repeat INVALID_BLOCK 12)
          INVALID_BLOCK INVALID_BLOCK 0 0.

(** *** Blocks as byte arrays *)

Definition Block : Type := list Z.
Definition zero_block : Block := repeat 0 (Z.to_nat BLOCK_SIZE).

Definition byte_at (b : Block) (off : nat) : Z := nth off b 0.

(** A little-endian [uint32_t] at byte offset [off]. *)
Definition get_u32 (b : Block) (off : nat) : Z :=
  byte_at b off + 256 * byte_at b (off + 1) + 65536 * byte_at b (off + 2)
  + 16777216 * byte_at b (off + 3).
Definition set_u32 (b : Block) (off : nat) (v : Z) : Block :=
  <[(off + 3)%nat := (v / 16777216) mod 256]>
    (<[(off + 2)%nat := (v / 65536) mod 256]>
       (<[(off + 1)%nat := (v / 256) mod 256]>
          (<[off := v mod 256]> b))).

(** [reinterpret_cast<BlockNo*>(block_data)[i]] *)
Definition ptr_at (b : Block) (i : Z) : Z := get_u32 b (4 * Z.to_nat i).
Definition set_ptr (b : Block) (i : Z) (v : Z) : Block :=
  set_u32 b (4 * Z.to_nat i) v.

(** [memcpy(buf + off, src, |src|)] *)
Definition memcpy_at (buf : list Z) (off : nat) (src : list Z) : list Z :=
  firstn off buf ++ src ++ skipn (off + length src) buf.

(** ** Bitmap (FSTypes.h) over the bytes of a [std::vector<uint8_t>] *)

Definition Bitmap_get (data : list Z) (total_bits index : Z) : bool :=
  if total_bits <=? index then false
  else Z.land (Z.shiftr (nth (Z.to_nat (index / 8)) data 0) (index mod 8)) 1
       =? 1.

Definition Bitmap_set (data : list Z) (total_bits index : Z) : list Z :=
  if total_bits <=? index then data
  else <[Z.to_nat (index / 8) :=
           Z.lor (nth (Z.to_nat (index / 8)) data 0)
                 (Z.shiftl 1 (index mod 8))]> data.

Definition Bitmap_clear (data : list Z) (total_bits index : Z) : list Z :=
  if total_bits <=? index then data
  else <[Z.to_nat (index / 8) :=
           Z.land (nth (Z.to_nat (index / 8)) data 0)
                  (Z.lnot (Z.shiftl 1 (index mod 8)))]> data.

(** The loop of [findFirstFree], [i] running from [start] for [n] steps;
    the index found is returned as [static_cast<int32_t>(i)]. *)
Fixpoint findFirstFree_from (data : list Z) (total_bits : Z)
         (n : nat) (i : Z) : Z :=
  match n with
  | O => -1
  | S n' => if Bitmap_get data total_bits i then
              findFirstFree_from data total_bits n' (i + 1)
            else i32 i
  end.
Definition Bitmap_findFirstFree (data : list Z) (total_bits : Z) : Z :=
  findFirstFree_from data total_bits (Z.to_nat total_bits) 0.

(** ** DiskImage.cpp *)

Record DiskImage : Type := mkDisk {
  is_open_ : bool;
  total_blocks_ : Z;
  file_ : gmap Z Block
}.

Definition validateBlockNo (d : DiskImage) (block_no : Z) : bool :=
  block_no <? total_blocks_ d.

Definition DiskImage_readBlock (d : DiskImage) (block_no : Z)
  : Result Block :=
  if negb (is_open_ d) then failure E_INVALID_PARAM
  else if negb (validateBlockNo d block_no) then failure E_INVALID_PARAM
  else success (default zero_block (file_ d !! block_no)).

Definition DiskImage_writeBlock (d : DiskImage) (block_no : Z) (buf : Block)
  : ErrorCode * DiskImage :=
  if negb (is_open_ d) then (E_INVALID_PARAM, d)
  else if negb (validateBlockNo d block_no) then (E_INVALID_PARAM, d)
  else (OK, mkDisk (is_open_ d) (total_blocks_ d)
                   (<[block_no := buf]> (file_ d))).

Definition DiskImage_sync (d : DiskImage) : ErrorCode :=
  if negb (is_open_ d) then E_IO else OK.

(** ** Allocator.cpp *)

(** The fields of [Superblock] that the modelled functions read or write. *)
Record Superblock : Type := mkSuperblock {
  total_blocks : Z;
  total_inodes : Z;
  inode_table_start : Z;
  free_blocks : Z;
  free_inodes : Z;
  used_blocks : Z;
  used_inodes : Z;
  data_block_start : Z;
  data_block_count : Z;
  snapshot_count : Z;
  snapshot_list_block : Z;
  root_inode : Z
}.

Definition set_block_counters (sb : Superblock) (free used : Z) : Superblock :=
  mkSuperblock (total_blocks sb) (total_inodes sb) (inode_table_start sb)
               free (free_inodes sb) used (used_inodes sb)
               (data_block_start sb) (data_block_count sb)
               (snapshot_count sb) (snapshot_list_block sb) (root_inode sb).

(** The allocator over the raw [DiskImage] endpoint ([use_cached_disk_] is
    false).  The inode table region of the image is kept as decoded [Inode]
    records in [inode_table_]; a slot never written reads as the all-zero
    record of a freshly created image. *)
Record Allocator : Type := mkAllocator {
  disk_ : DiskImage;
  superblock_ : Superblock;
  loaded_ : bool;
  inode_bitmap_ : list Z;
  block_bitmap_ : list Z;
  inode_bitmap_dirty_ : bool;
  block_bitmap_dirty_ : bool;
  superblock_dirty_ : bool;
  block_refcount_ : list Z;
  refcount_enabled_ : bool;
  inode_table_ : gmap Z Inode
}.

Definition with_disk (a : Allocator) (d : DiskImage) : Allocator :=
  mkAllocator d (superblock_ a) (loaded_ a) (inode_bitmap_ a)
              (block_bitmap_ a) (inode_bitmap_dirty_ a)
              (block_bitmap_dirty_ a) (superblock_dirty_ a)
              (block_refcount_ a) (refcount_enabled_ a) (inode_table_ a).
Definition with_superblock (a : Allocator) (sb : Superblock) (dirty : bool)
  : Allocator :=
  mkAllocator (disk_ a) sb (loaded_ a) (inode_bitmap_ a)
              (block_bitmap_ a) (inode_bitmap_dirty_ a)
              (block_bitmap_dirty_ a) dirty
              (block_refcount_ a) (refcount_enabled_ a) (inode_table_ a).
Definition with_block_bitmap (a : Allocator) (bm : list Z) (dirty : bool)
  : Allocator :=
  mkAllocator (disk_ a) (superblock_ a) (loaded_ a) (inode_bitmap_ a)
              bm (inode_bitmap_dirty_ a) dirty (superblock_dirty_ a)
              (block_refcount_ a) (refcount_enabled_ a) (inode_table_ a).
Definition with_block_refcount (a : Allocator) (rc : list Z) : Allocator :=
  mkAllocator (disk_ a) (superblock_ a) (loaded_ a) (inode_bitmap_ a)
              (block_bitmap_ a) (inode_bitmap_dirty_ a)
              (block_bitmap_dirty_ a) (superblock_dirty_ a)
              rc (refcount_enabled_ a) (inode_table_ a).
Definition with_inode_table (a : Allocator) (t : gmap Z Inode) : Allocator :=
  mkAllocator (disk_ a) (superblock_ a) (loaded_ a) (inode_bitmap_ a)
              (block_bitmap_ a) (inode_bitmap_dirty_ a)
              (block_bitmap_dirty_ a) (superblock_dirty_ a)
              (block_refcount_ a) (refcount_enabled_ a) t.

Definition u8 (x : Z) : Z := x mod 256.

(** [block_refcount_[i]] and the size of the vector. *)
Definition refcount_at (a : Allocator) (i : Z) : Z :=
  nth (Z.to_nat i) (block_refcount_ a) 0.
Definition refcount_size (a : Allocator) : Z :=
  Z.of_nat (length (block_refcount_ a)).
Definition set_refcount (a : Allocator) (i v : Z) : Allocator :=
  with_block_refcount a (<[Z.to_nat i := v]> (block_refcount_ a)).

Definition Allocator_readBlockInternal (a : Allocator) (block_no : Z)
  : Result Block :=
  DiskImage_readBlock (disk_ a) block_no.

Definition Allocator_writeBlockInternal (a : Allocator) (block_no : Z)
           (buf : Block) : ErrorCode * Allocator :=
  let '(err, d) := DiskImage_writeBlock (disk_ a) block_no buf in
  (err, with_disk a d).

Definition dataBlockToAbsolute (a : Allocator) (data_block_index : Z) : Z :=
  u32 (data_block_start (superblock_ a) + data_block_index).
Definition absoluteToDataBlock (a : Allocator) (abs_block_no : Z) : Z :=
  u32 (abs_block_no - data_block_start (superblock_ a)).
Definition isValidDataBlock (a : Allocator) (abs_block_no : Z) : bool :=
  (data_block_start (superblock_ a) <=? abs_block_no)
  && (abs_block_no <?
      u32 (data_block_start (superblock_ a)
           + data_block_count (superblock_ a))).

Definition getInodeBlock (a : Allocator) (inode_id : Z) : Z :=
  u32 (inode_table_start (superblock_ a) + inode_id / INODES_PER_BLOCK).

Definition findFreeBlock (a : Allocator) : Z :=
  Bitmap_findFirstFree (block_bitmap_ a) (data_block_count (superblock_ a)).

(** [updateBlockStats(+1)] and [updateBlockStats(-1)] *)
Definition updateBlockStats_inc (a : Allocator) : Allocator :=
  let sb := superblock_ a in
  with_superblock a (set_block_counters sb (u32 (free_blocks sb - 1))
                                           (u32 (used_blocks sb + 1))) true.
Definition updateBlockStats_dec (a : Allocator) : Allocator :=
  let sb := superblock_ a in
  with_superblock a (set_block_counters sb (u32 (free_blocks sb + 1))
                                           (u32 (used_blocks sb - 1))) true.

(** The all-zero 128-byte record. *)
Definition zero_inode : Inode :=
  mkInode FREE 0 0 0 0 0 0 0 0 (repeat 0 12) 0 0 0 0.

(** [readInode] and [writeInodeInternal].  The records of the inode table
    are kept decoded in [inode_table_], beside the image: both functions
    make the checks and the block read of the source, and take or put the
    record there, where the source takes or puts the 128 bytes at offset
    [128 * (inode_id mod 8)] of the block [getInodeBlock] and writes the
    block back.  This is the behaviour of the source as long as the blocks
    of the inode table are read and written through these two functions
    only. *)
Definition Allocator_readInode (a : Allocator) (inode_id : Z)
  : Result Inode :=
  if negb (loaded_ a) then failure E_INVALID_PARAM
  else if total_inodes (superblock_ a) <=? inode_id
  then failure E_INVALID_PARAM
  else match Allocator_readBlockInternal a (getInodeBlock a inode_id) with
       | failure err => failure err
       | success _ => success (default zero_inode (inode_table_ a !! inode_id))
       end.

Definition Allocator_writeInode (a : Allocator) (inode_id : Z) (inode : Inode)
  : ErrorCode * Allocator :=
  if negb (loaded_ a) then (E_INVALID_PARAM, a)
  else if total_inodes (superblock_ a) <=? inode_id
  then (E_INVALID_PARAM, a)
  else match Allocator_readBlockInternal a (getInodeBlock a inode_id) with
       | failure err => (err, a)
       | success _ =>
           (OK, with_inode_table a (<[inode_id := inode]> (inode_table_ a)))
       end.

Definition Allocator_allocBlock (a : Allocator) : Result Z * Allocator :=
  if negb (loaded_ a) then (failure E_INVALID_PARAM, a)
  else if free_blocks (superblock_ a) =? 0 then (failure E_NO_SPACE, a)
  else
    let free_idx := findFreeBlock a in
    if free_idx <? 0 then (failure E_NO_SPACE, a)
    else
      let abs_block := dataBlockToAbsolute a (u32 free_idx) in
      let count := data_block_count (superblock_ a) in
      let a1 := with_block_bitmap a
                  (Bitmap_set (block_bitmap_ a) count (u32 free_idx)) true in
      let a2 := if refcount_enabled_ a1 && (free_idx <? refcount_size a1)
                then set_refcount a1 free_idx 1 else a1 in
      let '(err, a3) := Allocator_writeBlockInternal a2 abs_block zero_block in
      match err with
      | OK => (success abs_block, updateBlockStats_inc a3)
      | _ => (failure err,
              with_block_bitmap a3
                (Bitmap_clear (block_bitmap_ a3) count (u32 free_idx))
                (block_bitmap_dirty_ a3))
      end.

Definition Allocator_freeBlock (a : Allocator) (block_no : Z)
  : ErrorCode * Allocator :=
  if negb (loaded_ a) then (E_INVALID_PARAM, a)
  else if negb (isValidDataBlock a block_no) then (E_INVALID_PARAM, a)
  else
    let data_idx := absoluteToDataBlock a block_no in
    let count := data_block_count (superblock_ a) in
    if negb (Bitmap_get (block_bitmap_ a) count data_idx)
    then (E_INVALID_PARAM, a)
    else
      let release (a' : Allocator) :=
        (OK, updateBlockStats_dec
               (with_block_bitmap a'
                  (Bitmap_clear (block_bitmap_ a') count data_idx) true)) in
      if refcount_enabled_ a && (data_idx <? refcount_size a) then
        if 1 <? refcount_at a data_idx
        then (OK, set_refcount a data_idx (u8 (refcount_at a data_idx - 1)))
        else release (set_refcount a data_idx 0)
      else release a.

Definition Allocator_isBlockAllocated (a : Allocator) (block_no : Z) : bool :=
  if negb (loaded_ a) || negb (isValidDataBlock a block_no) then false
  else Bitmap_get (block_bitmap_ a) (data_block_count (superblock_ a))
                  (absoluteToDataBlock a block_no).

Definition Allocator_incBlockRef (a : Allocator) (block_no : Z)
  : Result Z * Allocator :=
  if negb (loaded_ a) || negb (refcount_enabled_ a)
  then (failure E_INVALID_PARAM, a)
  else if negb (isValidDataBlock a block_no) then (failure E_INVALID_PARAM, a)
  else
    let data_idx := absoluteToDataBlock a block_no in
    if refcount_size a <=? data_idx then (failure E_INVALID_PARAM, a)
    else if 255 <=? refcount_at a data_idx then (failure E_INTERNAL, a)
    else
      let v := u8 (refcount_at a data_idx + 1) in
      (success v, set_refcount a data_idx v).

Definition Allocator_decBlockRef (a : Allocator) (block_no : Z)
  : Result Z * Allocator :=
  if negb (loaded_ a) || negb (refcount_enabled_ a)
  then (failure E_INVALID_PARAM, a)
  else if negb (isValidDataBlock a block_no) then (failure E_INVALID_PARAM, a)
  else
    let data_idx := absoluteToDataBlock a block_no in
    if refcount_size a <=? data_idx then (failure E_INVALID_PARAM, a)
    else if refcount_at a data_idx =? 0 then (failure E_INTERNAL, a)
    else
      let v := u8 (refcount_at a data_idx - 1) in
      let a1 := set_refcount a data_idx v in
      if v =? 0 then
        (success v,
         updateBlockStats_dec
           (with_block_bitmap a1
              (Bitmap_clear (block_bitmap_ a1)
                            (data_block_count (superblock_ a1)) data_idx)
              true))
      else (success v, a1).

Definition Allocator_getBlockRef (a : Allocator) (block_no : Z) : Z :=
  if negb (loaded_ a) || negb (refcount_enabled_ a) then 0
  else if negb (isValidDataBlock a block_no) then 0
  else
    let data_idx := absoluteToDataBlock a block_no in
    if refcount_size a <=? data_idx then 0 else refcount_at a data_idx.

(** ** Snapshot.cpp: the snapshot list and the copy-on-write contract *)

(** [std::string] is a list of characters. *)
Definition str (s : string) : list ascii := list_ascii_of_string s.
Definition string_eqb (s t : list ascii) : bool :=
  bool_decide (s = t).

Record SnapshotInfo : Type := mkSnapshotInfo {
  si_name : list ascii;
  si_create_time : Z;
  si_root_inode : Z;
  si_block_count : Z;
  si_valid : bool
}.

(** [SnapshotManager] shares the allocator (and its disk) with [Directory];
    the shared object is passed next to the manager. *)
Record SnapshotManager : Type := mkSnapshotManager {
  snapshots_ : list SnapshotInfo;
  snapshot_list_block_ : Z;
  sm_loaded_ : bool;
  sm_dirty_ : bool
}.

(** [static constexpr uint32_t MAX_SNAPSHOTS = 15] of the class, which hides
    [fs::MAX_SNAPSHOTS] inside its member functions. *)
Definition MAX_SNAPSHOTS : Z := 15.

Definition SnapshotManager_needsCOW (sm : SnapshotManager) (a : Allocator)
           (block_no : Z) : bool :=
  match snapshots_ sm with
  | [] => false
  | _ => 1 <? Allocator_getBlockRef a block_no
  end.

Definition SnapshotManager_performCOW (sm : SnapshotManager) (a : Allocator)
           (block_no : Z) : Result Z * Allocator :=
  if negb (SnapshotManager_needsCOW sm a block_no) then (success block_no, a)
  else
    let '(alloc_result, a1) := Allocator_allocBlock a in
    match alloc_result with
    | failure e => (failure e, a1)
    | success new_block =>
        match Allocator_readBlockInternal a1 block_no with
        | failure err =>
            let '(_, a2) := Allocator_freeBlock a1 new_block in
            (failure err, a2)
        | success buffer =>
            let '(err, a2) :=
              Allocator_writeBlockInternal a1 new_block buffer in
            match err with
            | OK =>
                let '(_, a3) := Allocator_decBlockRef a2 block_no in
                (success new_block, a3)
            | _ =>
                let '(_, a3) := Allocator_freeBlock a2 new_block in
                (failure err, a3)
            end
        end
    end.

(** The loop of [findSnapshotIndex], [i] being the index of the head. *)
Fixpoint findSnapshotIndex_from (l : list SnapshotInfo) (name : list ascii)
         (i : Z) : Z :=
  match l with
  | [] => -1
  | s :: l' => if string_eqb (si_name s) name && si_valid s then i32 (u32 i)
               else findSnapshotIndex_from l' name (i + 1)
  end.
Definition findSnapshotIndex (sm : SnapshotManager) (name : list ascii) : Z :=
  findSnapshotIndex_from (snapshots_ sm) name 0.

Section CreateSnapshot.
(** [createSnapshot] calls three procedures that act on the allocator and
    the disk only: the deep clone of the inode tree, the serialisation of
    the list into its block (which may allocate that block and so returns
    the new [snapshot_list_block_]), and [Allocator::sync].  They stay
    abstract here; what is proved about [createSnapshot] holds whatever
    they do.  [now] is the value of [currentTime()]. *)
Variable cloneInodeTree : Allocator -> Z -> Result Z * Allocator.
Variable saveSnapshotList :
  list SnapshotInfo -> Z -> Allocator -> ErrorCode * Z * Allocator.
Variable Allocator_sync : Allocator -> ErrorCode * Allocator.
Variable now : Z.

Definition set_snapshot_count (a : Allocator) (n : Z) : Allocator :=
  let sb := superblock_ a in
  with_superblock a
    (mkSuperblock (total_blocks sb) (total_inodes sb)
       (inode_table_start sb) (free_blocks sb) (free_inodes sb)
       (used_blocks sb) (used_inodes sb) (data_block_start sb)
       (data_block_count sb) n (snapshot_list_block sb) (root_inode sb))
    (superblock_dirty_ a).

Definition SnapshotManager_createSnapshot (sm : SnapshotManager)
           (a : Allocator) (name : list ascii)
  : ErrorCode * SnapshotManager * Allocator :=
  if negb (sm_loaded_ sm) then (E_INVALID_PARAM, sm, a)
  else if bool_decide (name = [])
          || (MAX_SNAPSHOT_NAME_LEN - 1 <? Z.of_nat (length name))
  then (E_NAME_TOO_LONG, sm, a)
  else if 0 <=? findSnapshotIndex sm name then (E_SNAPSHOT_EXISTS, sm, a)
  else if MAX_SNAPSHOTS <=? Z.of_nat (length (snapshots_ sm))
  then (E_MAX_SNAPSHOTS, sm, a)
  else
    let current_root := root_inode (superblock_ a) in
    let '(clone_result, a1) := cloneInodeTree a current_root in
    match clone_result with
    | failure e => (e, sm, a1)
    | success snapshot_root =>
        let info :=
          mkSnapshotInfo name now snapshot_root
            match Allocator_readInode a1 snapshot_root with
            | success root => block_count root
            | failure _ => 0
            end
            true in
        let snaps := snapshots_ sm ++ [info] in
        let a2 := set_snapshot_count a1 (u32 (Z.of_nat (length snaps))) in
        let '(err, slb, a3) :=
          saveSnapshotList snaps (snapshot_list_block_ sm) a2 in
        match err with
        | OK =>
            let '(err', a4) := Allocator_sync a3 in
            match err' with
            | OK => (OK, mkSnapshotManager snaps slb true false, a4)
            | _ => (err', mkSnapshotManager snaps slb true true, a4)
            end
        | _ => (err, mkSnapshotManager snaps slb true true, a3)
        end
    end.
End CreateSnapshot.

(** ** Directory.cpp: path handling *)

Definition slash : ascii := "/"%char.
Definition is_slash (c : ascii) : bool := Ascii.eqb c slash.

(** [while (result.size() > 1 && result.back() == '/') result.pop_back()],
    on the reversed string. *)
Fixpoint pop_back_slashes (r : list ascii) : list ascii :=
  match r with
  | c :: ((_ :: _) as tl) => if is_slash c then pop_back_slashes tl else r
  | _ => r
  end.

(** The loop building [cleaned]. *)
Fixpoint collapse_slashes (s : list ascii) (last_was_slash : bool)
  : list ascii :=
  match s with
  | [] => []
  | c :: s' =>
      if is_slash c then
        if last_was_slash then collapse_slashes s' true
        else c :: collapse_slashes s' true
      else c :: collapse_slashes s' false
  end.

Definition normalizePath (path : list ascii) : list ascii :=
  match path with
  | [] => [slash]
  | c :: _ =>
      let result := if is_slash c then path else slash :: path in
      collapse_slashes (rev (pop_back_slashes (rev result))) false
  end.

(** The tokens that [std::getline(iss, token, '/')] yields until it fails;
    [cur] holds the characters of the current token, last one first. *)
Fixpoint getline_tokens (s : list ascii) (cur : list ascii)
  : list (list ascii) :=
  match s with
  | [] => match cur with [] => [] | _ => [rev cur] end
  | c :: s' => if is_slash c then rev cur :: getline_tokens s' []
               else getline_tokens s' (c :: cur)
  end.

(** The body of the [while] loop of [splitPath]. *)
Definition splitPath_step (components : list (list ascii))
           (token : list ascii) : list (list ascii) :=
  if negb (string_eqb token []) && negb (string_eqb token (str ".")) then
    if string_eqb token (str "..") then removelast components
    else components ++ [token]
  else components.

Definition splitPath (path : list ascii) : list (list ascii) :=
  let normalized := normalizePath path in
  if string_eqb normalized [] || string_eqb normalized [slash] then []
  else fold_left splitPath_step (getline_tokens normalized []) [].

Definition isValidFilename (name : list ascii) : bool :=
  if string_eqb name [] then false
  else if MAX_FILENAME_LEN <? Z.of_nat (length name) then false
  else if string_eqb name (str ".") || string_eqb name (str "..") then false
  else forallb (fun c => negb (is_slash c || Ascii.eqb c zero)) name.

Definition isValidPath (path : list ascii) : bool :=
  match path with
  | [] => false
  | c :: _ => if negb (is_slash c) then false
              else forallb isValidFilename (splitPath path)
  end.

(** ** Directory.cpp: blocks of a file *)

(** [snap_ && snap_->needsCOW(b)]; [snap] is the [snap_] pointer. *)
Definition snap_needsCOW (snap : option SnapshotManager) (a : Allocator)
           (block_no : Z) : bool :=
  match snap with
  | Some sm => SnapshotManager_needsCOW sm a block_no
  | None => false
  end.

Definition Directory_getIndirectBlock (a : Allocator)
           (indirect_block index : Z) : Result Z :=
  if (indirect_block =? INVALID_BLOCK) || (PTRS_PER_BLOCK <=? index)
  then failure E_INVALID_PARAM
  else match Allocator_readBlockInternal a indirect_block with
       | failure err => failure err
       | success block_data =>
           if ptr_at block_data index =? INVALID_BLOCK
           then failure E_NOT_FOUND
           else success (ptr_at block_data index)
       end.

Definition Directory_setIndirectBlock (a : Allocator)
           (indirect_block index value : Z) : ErrorCode * Allocator :=
  if (indirect_block =? INVALID_BLOCK) || (PTRS_PER_BLOCK <=? index)
  then (E_INVALID_PARAM, a)
  else match Allocator_readBlockInternal a indirect_block with
       | failure err => (err, a)
       | success block_data =>
           Allocator_writeBlockInternal a indirect_block
                                        (set_ptr block_data index value)
       end.

(** A block whose 256 pointers are all [INVALID_BLOCK]. *)
Definition invalid_ptr_block : Block := repeat 255 (Z.to_nat BLOCK_SIZE).

Definition Directory_allocIndirectBlock (a : Allocator)
  : Result Z * Allocator :=
  let '(result, a1) := Allocator_allocBlock a in
  match result with
  | failure e => (failure e, a1)
  | success b =>
      let '(err, a2) := Allocator_writeBlockInternal a1 b invalid_ptr_block in
      match err with
      | OK => (success b, a2)
      | _ => let '(_, a3) := Allocator_freeBlock a2 b in (failure err, a3)
      end
  end.

Definition Directory_getFileBlock (a : Allocator) (inode : Inode)
           (block_index : Z) : Result Z :=
  if block_index <? NUM_DIRECT_BLOCKS then
    let block := direct_block inode block_index in
    if block =? INVALID_BLOCK then failure E_NOT_FOUND else success block
  else
    let block_index := block_index - NUM_DIRECT_BLOCKS in
    if block_index <? PTRS_PER_BLOCK then
      if single_indirect inode =? INVALID_BLOCK then failure E_NOT_FOUND
      else Directory_getIndirectBlock a (single_indirect inode) block_index
    else
      let block_index := block_index - PTRS_PER_BLOCK in
      if block_index <? PTRS_PER_BLOCK * PTRS_PER_BLOCK then
        if double_indirect inode =? INVALID_BLOCK then failure E_NOT_FOUND
        else
          let l1_index := block_index / PTRS_PER_BLOCK in
          let l2_index := block_index mod PTRS_PER_BLOCK in
          match Directory_getIndirectBlock a (double_indirect inode)
                                           l1_index with
          | failure e => failure e
          | success l1 => Directory_getIndirectBlock a l1 l2_index
          end
      else failure E_FILE_TOO_LARGE.

Definition inc_block_count (i : Inode) : Inode :=
  set_block_count i (u32 (block_count i + 1)).
(** [if (inode.block_count > 0) inode.block_count--] *)
Definition dec_block_count (i : Inode) : Inode :=
  if 0 <? block_count i then set_block_count i (block_count i - 1) else i.

(** [getOrAllocFileBlock(Inode& inode, InodeId inode_id, uint32_t
    block_index)]; the results of the unchecked [writeInode] calls are
    dropped as in the source. *)
Definition Directory_getOrAllocFileBlock (snap : option SnapshotManager)
           (a : Allocator) (inode : Inode) (inode_id block_index : Z)
  : Result Z * Inode * Allocator :=
  if block_index <? NUM_DIRECT_BLOCKS then
    if direct_block inode block_index =? INVALID_BLOCK then
      let '(alloc_result, a1) := Allocator_allocBlock a in
      match alloc_result with
      | failure e => (failure e, inode, a1)
      | success b =>
          let inode1 := inc_block_count (set_direct_block inode block_index b) in
          let '(_, a2) := Allocator_writeInode a1 inode_id inode1 in
          (success (direct_block inode1 block_index), inode1, a2)
      end
    else (success (direct_block inode block_index), inode, a)
  else
    let block_index := block_index - NUM_DIRECT_BLOCKS in
    if block_index <? PTRS_PER_BLOCK then
      (* the single-indirect block, allocated on demand *)
      let '(r0, inode1, a1) :=
        if single_indirect inode =? INVALID_BLOCK then
          let '(alloc_result, b1) := Directory_allocIndirectBlock a in
          match alloc_result with
          | failure e => (failure e, inode, b1)
          | success b =>
              let inode' := inc_block_count (set_single_indirect inode b) in
              let '(_, b2) := Allocator_writeInode b1 inode_id inode' in
              (success tt, inode', b2)
          end
        else (success tt, inode, a) in
      match r0 with
      | failure e => (failure e, inode1, a1)
      | success _ =>
          let indirect := single_indirect inode1 in
          (* copy-on-write of the indirect block *)
          let '(r1, inode2, a2) :=
            if snap_needsCOW snap a1 indirect then
              match snap with
              | None => (success indirect, inode1, a1)
              | Some sm =>
                  let '(cow, b1) := SnapshotManager_performCOW sm a1 indirect in
                  match cow with
                  | failure e => (failure e, inode1, b1)
                  | success nb =>
                      if negb (nb =? indirect) then
                        let inode' := set_single_indirect inode1 nb in
                        let '(err, b2) :=
                          Allocator_writeInode b1 inode_id inode' in
                        match err with
                        | OK => (success nb, inode', b2)
                        | _ => (failure err, inode', b2)
                        end
                      else (success indirect, inode1, b1)
                  end
              end
            else (success indirect, inode1, a1) in
          match r1 with
          | failure e => (failure e, inode2, a2)
          | success indirect =>
              match Directory_getIndirectBlock a2 indirect block_index with
              | success b => (success b, inode2, a2)
              | failure _ =>
                  let '(alloc_result, a3) := Allocator_allocBlock a2 in
                  match alloc_result with
                  | failure e => (failure e, inode2, a3)
                  | success b =>
                      let '(err, a4) :=
                        Directory_setIndirectBlock a3 indirect block_index b in
                      match err with
                      | OK =>
                          let inode3 := inc_block_count inode2 in
                          let '(_, a5) :=
                            Allocator_writeInode a4 inode_id inode3 in
                          (success b, inode3, a5)
                      | _ =>
                          let '(_, a5) := Allocator_freeBlock a4 b in
                          (failure err, inode2, a5)
                      end
                  end
              end
          end
      end
    else
      let block_index := block_index - PTRS_PER_BLOCK in
      if block_index <? PTRS_PER_BLOCK * PTRS_PER_BLOCK then
        (* the double-indirect block, allocated on demand *)
        let '(r0, inode1, a1) :=
          if double_indirect inode =? INVALID_BLOCK then
            let '(alloc_result, b1) := Directory_allocIndirectBlock a in
            match alloc_result with
            | failure e => (failure e, inode, b1)
            | success b =>
                let inode' := inc_block_count (set_double_indirect inode b) in
                let '(_, b2) := Allocator_writeInode b1 inode_id inode' in
                (success tt, inode', b2)
            end
          else (success tt, inode, a) in
        match r0 with
        | failure e => (failure e, inode1, a1)
        | success _ =>
            let dbl := double_indirect inode1 in
            let '(r1, inode2, a2) :=
              if snap_needsCOW snap a1 dbl then
                match snap with
                | None => (success dbl, inode1, a1)
                | Some sm =>
                    let '(cow, b1) := SnapshotManager_performCOW sm a1 dbl in
                    match cow with
                    | failure e => (failure e, inode1, b1)
                    | success nb =>
                        if negb (nb =? dbl) then
                          let inode' := set_double_indirect inode1 nb in
                          let '(err, b2) :=
                            Allocator_writeInode b1 inode_id inode' in
                          match err with
                          | OK => (success nb, inode', b2)
                          | _ => (failure err, inode', b2)
                          end
                        else (success dbl, inode1, b1)
                    end
                end
              else (success dbl, inode1, a1) in
            match r1 with
            | failure e => (failure e, inode2, a2)
            | success dbl =>
                let l1_index := block_index / PTRS_PER_BLOCK in
                let l2_index := block_index mod PTRS_PER_BLOCK in
                (* the second-level block, allocated on demand *)
                let '(r2, inode3, a3) :=
                  match Directory_getIndirectBlock a2 dbl l1_index with
                  | success l1 => (success l1, inode2, a2)
                  | failure _ =>
                      let '(alloc_result, b1) :=
                        Directory_allocIndirectBlock a2 in
                      match alloc_result with
                      | failure e => (failure e, inode2, b1)
                      | success l1 =>
                          let '(err, b2) :=
                            Directory_setIndirectBlock b1 dbl l1_index l1 in
                          match err with
                          | OK =>
                              let inode' := inc_block_count inode2 in
                              let '(_, b3) :=
                                Allocator_writeInode b2 inode_id inode' in
                              (success l1, inode', b3)
                          | _ =>
                              let '(_, b3) := Allocator_freeBlock b2 l1 in
                              (failure err, inode2, b3)
                          end
                      end
                  end in
                match r2 with
                | failure e => (failure e, inode3, a3)
                | success l1_block =>
                    let '(r3, a4) :=
                      if snap_needsCOW snap a3 l1_block then
                        match snap with
                        | None => (success l1_block, a3)
                        | Some sm =>
                            let '(cow, b1) :=
                              SnapshotManager_performCOW sm a3 l1_block in
                            match cow with
                            | failure e => (failure e, b1)
                            | success nb =>
                                if negb (nb =? l1_block) then
                                  let '(err, b2) :=
                                    Directory_setIndirectBlock b1 dbl
                                                               l1_index nb in
                                  match err with
                                  | OK => (success nb, b2)
                                  | _ => (failure err, b2)
                                  end
                                else (success l1_block, b1)
                            end
                        end
                      else (success l1_block, a3) in
                    match r3 with
                    | failure e => (failure e, inode3, a4)
                    | success l1_block =>
                        match Directory_getIndirectBlock a4 l1_block
                                                         l2_index with
                        | success b => (success b, inode3, a4)
                        | failure _ =>
                            let '(alloc_result, a5) :=
                              Allocator_allocBlock a4 in
                            match alloc_result with
                            | failure e => (failure e, inode3, a5)
                            | success b =>
                                let '(err, a6) :=
                                  Directory_setIndirectBlock a5 l1_block
                                                             l2_index b in
                                match err with
                                | OK =>
                                    let inode4 := inc_block_count inode3 in
                                    let '(_, a7) :=
                                      Allocator_writeInode a6 inode_id
                                                           inode4 in
                                    (success b, inode4, a7)
                                | _ =>
                                    let '(_, a7) :=
                                      Allocator_freeBlock a6 b in
                                    (failure err, inode3, a7)
                                end
                            end
                        end
                    end
                end
            end
        end
      else (failure E_FILE_TOO_LARGE, inode, a).

Definition Directory_updateFileBlockPointer (snap : option SnapshotManager)
           (a : Allocator) (inode : Inode) (inode_id block_index new_block : Z)
  : ErrorCode * Inode * Allocator :=
  if block_index <? NUM_DIRECT_BLOCKS then
    let inode1 := set_direct_block inode block_index new_block in
    let '(err, a1) := Allocator_writeInode a inode_id inode1 in
    (err, inode1, a1)
  else
    let block_index := block_index - NUM_DIRECT_BLOCKS in
    if block_index <? PTRS_PER_BLOCK then
      if single_indirect inode =? INVALID_BLOCK
      then (E_INVALID_PARAM, inode, a)
      else
        let indirect := single_indirect inode in
        let '(r1, inode1, a1) :=
          if snap_needsCOW snap a indirect then
            match snap with
            | None => (success indirect, inode, a)
            | Some sm =>
                let '(cow, b1) := SnapshotManager_performCOW sm a indirect in
                match cow with
                | failure e => (failure e, inode, b1)
                | success nb =>
                    if negb (nb =? indirect) then
                      let inode' := set_single_indirect inode nb in
                      let '(err, b2) :=
                        Allocator_writeInode b1 inode_id inode' in
                      match err with
                      | OK => (success nb, inode', b2)
                      | _ => (failure err, inode', b2)
                      end
                    else (success indirect, inode, b1)
                end
            end
          else (success indirect, inode, a) in
        match r1 with
        | failure e => (e, inode1, a1)
        | success indirect =>
            let '(err, a2) :=
              Directory_setIndirectBlock a1 indirect block_index new_block in
            (err, inode1, a2)
        end
    else
      let block_index := block_index - PTRS_PER_BLOCK in
      if block_index <? PTRS_PER_BLOCK * PTRS_PER_BLOCK then
        if double_indirect inode =? INVALID_BLOCK
        then (E_INVALID_PARAM, inode, a)
        else
          let l1_block := double_indirect inode in
          let '(r1, inode1, a1) :=
            if snap_needsCOW snap a l1_block then
              match snap with
              | None => (success l1_block, inode, a)
              | Some sm =>
                  let '(cow, b1) := SnapshotManager_performCOW sm a l1_block in
                  match cow with
                  | failure e => (failure e, inode, b1)
                  | success nb =>
                      if negb (nb =? l1_block) then
                        let inode' := set_double_indirect inode nb in
                        let '(err, b2) :=
                          Allocator_writeInode b1 inode_id inode' in
                        match err with
                        | OK => (success nb, inode', b2)
                        | _ => (failure err, inode', b2)
                        end
                      else (success l1_block, inode, b1)
                  end
              end
            else (success l1_block, inode, a) in
          match r1 with
          | failure e => (e, inode1, a1)
          | success l1_block =>
              let l1_index := block_index / PTRS_PER_BLOCK in
              let l2_index := block_index mod PTRS_PER_BLOCK in
              match Allocator_readBlockInternal a1 l1_block with
              | failure err => (err, inode1, a1)
              | success l1_data =>
                  if ptr_at l1_data l1_index =? INVALID_BLOCK
                  then (E_INVALID_PARAM, inode1, a1)
                  else
                    let l2_block := ptr_at l1_data l1_index in
                    let '(r2, a2) :=
                      if snap_needsCOW snap a1 l2_block then
                        match snap with
                        | None => (success l2_block, a1)
                        | Some sm =>
                            let '(cow, b1) :=
                              SnapshotManager_performCOW sm a1 l2_block in
                            match cow with
                            | failure e => (failure e, b1)
                            | success nb =>
                                if negb (nb =? l2_block) then
                                  let '(err, b2) :=
                                    Allocator_writeBlockInternal b1 l1_block
                                      (set_ptr l1_data l1_index nb) in
                                  match err with
                                  | OK => (success nb, b2)
                                  | _ => (failure err, b2)
                                  end
                                else (success l2_block, b1)
                            end
                        end
                      else (success l2_block, a1) in
                    match r2 with
                    | failure e => (e, inode1, a2)
                    | success l2_block =>
                        match Allocator_readBlockInternal a2 l2_block with
                        | failure err => (err, inode1, a2)
                        | success l2_data =>
                            let '(err, a3) :=
                              Allocator_writeBlockInternal a2 l2_block
                                (set_ptr l2_data l2_index new_block) in
                            (err, inode1, a3)
                        end
                    end
              end
          end
      else (E_FILE_TOO_LARGE, inode, a).

Definition Directory_cowDataBlockIfNeeded (snap : option SnapshotManager)
           (a : Allocator) (inode : Inode) (inode_id block_index block_no : Z)
  : Result Z * Inode * Allocator :=
  match snap with
  | None => (success block_no, inode, a)
  | Some sm =>
      if negb (SnapshotManager_needsCOW sm a block_no)
      then (success block_no, inode, a)
      else
        let '(cow_result, a1) := SnapshotManager_performCOW sm a block_no in
        match cow_result with
        | failure e => (failure e, inode, a1)
        | success new_block =>
            let '(err, inode1, a2) :=
              Directory_updateFileBlockPointer snap a1 inode inode_id
                                               block_index new_block in
            match err with
            | OK => (success new_block, inode1, a2)
            | _ => (failure err, inode1, a2)
            end
        end
  end.

(** The indices [lo, lo+1, ..., hi-1] of a [for] loop. *)
Definition range (lo hi : Z) : list Z :=
  map Z.of_nat (seq (Z.to_nat lo) (Z.to_nat hi - Z.to_nat lo)).

(** [alloc_->freeBlock(b); if (inode.block_count > 0) inode.block_count--] *)
Definition free_and_count (st : Inode * Allocator) (b : Z)
  : Inode * Allocator :=
  let '(inode, a) := st in
  (dec_block_count inode, snd (Allocator_freeBlock a b)).

(** The loop over the 256 pointers of a block already read. *)
Definition free_pointers (st : Inode * Allocator) (ptrs : Block)
  : Inode * Allocator :=
  fold_left (fun st i =>
               if negb (ptr_at ptrs i =? INVALID_BLOCK)
               then free_and_count st (ptr_at ptrs i) else st)
            (range 0 PTRS_PER_BLOCK) st.

(** The three statements of [freeFileBlocks]: the loop over the direct
    pointers from [from_block] on, the block of the single-indirect pointer,
    the tree of the double-indirect pointer. *)
Definition free_direct (st : Inode * Allocator) (from_block : Z)
  : Inode * Allocator :=
  fold_left (fun st i =>
               if negb (direct_block (fst st) i =? INVALID_BLOCK) then
                 let '(inode, a) :=
                   free_and_count st (direct_block (fst st) i) in
                 (set_direct_block inode i INVALID_BLOCK, a)
               else st)
            (range from_block NUM_DIRECT_BLOCKS) st.

Definition free_single (st1 : Inode * Allocator) : Inode * Allocator :=
  let st :=
    match Allocator_readBlockInternal (snd st1)
                                      (single_indirect (fst st1)) with
    | success block_data => free_pointers st1 block_data
    | failure _ => st1
    end in
  let '(inode, a) := free_and_count st (single_indirect (fst st)) in
  (set_single_indirect inode INVALID_BLOCK, a).

(** The body of the loop over the pointers of the double-indirect block. *)
Definition free_l2 (l1_data : Block) (st : Inode * Allocator) (i : Z)
  : Inode * Allocator :=
  if negb (ptr_at l1_data i =? INVALID_BLOCK) then
    let st' :=
      match Allocator_readBlockInternal (snd st) (ptr_at l1_data i) with
      | success l2_data => free_pointers st l2_data
      | failure _ => st
      end in
    free_and_count st' (ptr_at l1_data i)
  else st.

Definition free_double (st2 : Inode * Allocator) : Inode * Allocator :=
  let st :=
    match Allocator_readBlockInternal (snd st2)
                                      (double_indirect (fst st2)) with
    | success l1_data =>
        fold_left (free_l2 l1_data) (range 0 PTRS_PER_BLOCK) st2
    | failure _ => st2
    end in
  let '(inode, a) := free_and_count st (double_indirect (fst st)) in
  (set_double_indirect inode INVALID_BLOCK, a).

(** [freeFileBlocks(Inode& inode, uint32_t from_block)]; it always returns
    [OK], so only the inode and the allocator are returned. *)
Definition Directory_freeFileBlocks (a : Allocator) (inode : Inode)
           (from_block : Z) : Inode * Allocator :=
  let st1 := free_direct (inode, a) from_block in
  let st2 :=
    if (from_block <=? NUM_DIRECT_BLOCKS)
       && negb (single_indirect (fst st1) =? INVALID_BLOCK)
    then free_single st1 else st1 in
  if (from_block <=? NUM_DIRECT_BLOCKS + PTRS_PER_BLOCK)
     && negb (double_indirect (fst st2) =? INVALID_BLOCK)
  then free_double st2 else st2.

(** ** Directory.cpp: directory entries and path resolution *)

Record DirEntry : Type := mkDirEntry {
  de_inode : Z;
  de_name_len : Z;
  de_file_type : Z;
  de_rec_len : Z;
  de_name : list Z
}.

(** [entries[i]] of a block read as [DirEntry[16]] (64 bytes each). *)
Definition entry_at (b : Block) (i : Z) : DirEntry :=
  let off := (64 * Z.to_nat i)%nat in
  mkDirEntry (get_u32 b off) (byte_at b (off + 4)) (byte_at b (off + 5))
             (byte_at b (off + 6) + 256 * byte_at b (off + 7))
             (firstn 56 (skipn (off + 8) b)).

Definition DirEntry_isValid (e : DirEntry) : bool :=
  negb (de_inode e =? INVALID_INODE).
(** [std::string(name, name_len)], for [name_len <= 56]. *)
Definition DirEntry_getName (e : DirEntry) : list ascii :=
  map (fun c => ascii_of_N (Z.to_N c))
      (firstn (Z.to_nat (de_name_len e)) (de_name e)).

(** [(size + BLOCK_SIZE - 1) / BLOCK_SIZE] in [uint32_t]. *)
Definition blocks_for (sz : Z) : Z := u32 (sz + BLOCK_SIZE - 1) / BLOCK_SIZE.

Definition find_entry (entries : Block) (name : list ascii)
  : option DirEntry :=
  List.find (fun e => DirEntry_isValid e && string_eqb (DirEntry_getName e) name)
            (map (entry_at entries) (range 0 DIRENTRIES_PER_BLOCK)).

(** The loop over the blocks of the directory in [lookupInternal]. *)
Fixpoint lookup_blocks (a : Allocator) (dir : Inode) (name : list ascii)
         (n : nat) (bi : Z) : Result DirEntry :=
  match n with
  | O => failure E_NOT_FOUND
  | S n' =>
      let next := lookup_blocks a dir name n' (bi + 1) in
      match Directory_getFileBlock a dir bi with
      | failure _ => next
      | success b =>
          match Allocator_readBlockInternal a b with
          | failure _ => next
          | success entries =>
              match find_entry entries name with
              | Some e => success e
              | None => next
              end
          end
      end
  end.

Definition Directory_lookupInternal (a : Allocator) (dir_inode : Z)
           (name : list ascii) : Result DirEntry :=
  match Allocator_readInode a dir_inode with
  | failure e => failure e
  | success dir =>
      if negb (isDirectory dir) then failure E_NOT_DIR
      else
        let num_blocks := blocks_for (size dir) in
        let num_blocks := if num_blocks =? 0 then 1 else num_blocks in
        lookup_blocks a dir name (Z.to_nat num_blocks) 0
  end.

(** The loop over the components in [resolvePath]. *)
Fixpoint resolve_components (a : Allocator) (components : list (list ascii))
         (current : Z) : Result Z :=
  match components with
  | [] => success current
  | name :: rest =>
      match Allocator_readInode a current with
      | failure e => failure e
      | success inode =>
          if negb (isDirectory inode) then failure E_NOT_DIR
          else match Directory_lookupInternal a current name with
               | failure _ => failure E_NOT_FOUND
               | success entry => resolve_components a rest (de_inode entry)
               end
      end
  end.

Definition Directory_resolvePath (a : Allocator) (path : list ascii)
  : Result Z :=
  let normalized := normalizePath path in
  if string_eqb normalized [slash] then success ROOT_INODE
  else
    let components := splitPath normalized in
    match components with
    | [] => success ROOT_INODE
    | _ => resolve_components a components ROOT_INODE
    end.

(** ** Directory.cpp: read, write, truncate *)

(** [updateAccessTime] and [updateModifyTime]; [now] is [currentTime()]. *)
Definition updateAccessTime (now : Z) (i : Inode) : Inode :=
  set_times i (modify_time i) now.
Definition updateModifyTime (now : Z) (i : Inode) : Inode :=
  set_times i now now.

(** The [while (bytes_read < length)] loop; [None] when [fuel] iterations do
    not finish it. *)
Fixpoint read_loop (fuel : nat) (a : Allocator) (inode : Inode)
         (offset length : Z) (data : list Z) (bytes_read : Z)
  : option (Result (list Z)) :=
  if bytes_read <? length then
    match fuel with
    | O => None
    | S fuel' =>
        let current_offset := u32 (offset + bytes_read) in
        let block_index := current_offset / BLOCK_SIZE in
        let block_offset := current_offset mod BLOCK_SIZE in
        let to_read := Z.min (BLOCK_SIZE - block_offset)
                             (length - bytes_read) in
        match Directory_getFileBlock a inode block_index with
        | failure _ =>
            read_loop fuel' a inode offset length
              (memcpy_at data (Z.to_nat bytes_read)
                         (repeat 0 (Z.to_nat to_read)))
              (u32 (bytes_read + to_read))
        | success b =>
            match Allocator_readBlockInternal a b with
            | failure err => Some (failure err)
            | success block_buffer =>
                read_loop fuel' a inode offset length
                  (memcpy_at data (Z.to_nat bytes_read)
                     (firstn (Z.to_nat to_read)
                             (skipn (Z.to_nat block_offset) block_buffer)))
                  (u32 (bytes_read + to_read))
            end
        end
    end
  else Some (success data).

Definition Directory_readFileByInode (now : Z) (a : Allocator)
           (inode_id offset length : Z)
  : option (Result (list Z) * Allocator) :=
  match Allocator_readInode a inode_id with
  | failure e => Some (failure e, a)
  | success inode =>
      if negb (isRegularFile inode) then Some (failure E_IS_DIR, a)
      else if size inode <=? offset then Some (success [], a)
      else
        let length :=
          if (length =? 0) || (size inode <? u32 (offset + length))
          then size inode - offset else length in
        match read_loop (Z.to_nat length) a inode offset length
                        (repeat 0 (Z.to_nat length)) 0 with
        | None => None
        | Some (failure err) => Some (failure err, a)
        | Some (success data) =>
            let '(_, a1) :=
              Allocator_writeInode a inode_id (updateAccessTime now inode) in
            Some (success data, a1)
        end
  end.

Definition Directory_readFile (now : Z) (a : Allocator) (path : list ascii)
           (offset length : Z) : option (Result (list Z) * Allocator) :=
  match Directory_resolvePath a path with
  | failure e => Some (failure e, a)
  | success inode_id => Directory_readFileByInode now a inode_id offset length
  end.

(** The [while (bytes_written < data.size())] loop.  The result is
    [failure e] when the loop leaves the function by [return], and
    [success bytes_written] when it ends or is left by [break]; [None] when
    [fuel] iterations do not finish it.  [block_buffer] is the local array
    declared before the loop. *)
Fixpoint write_loop (fuel : nat) (snap : option SnapshotManager)
         (a : Allocator) (inode : Inode) (inode_id : Z) (data : list Z)
         (offset : Z) (block_buffer : Block) (bytes_written : Z)
  : option (Result Z * Inode * Allocator) :=
  if bytes_written <? Z.of_nat (length data) then
    match fuel with
    | O => None
    | S fuel' =>
        let current_offset := u32 (offset + bytes_written) in
        let block_index := current_offset / BLOCK_SIZE in
        let block_offset := current_offset mod BLOCK_SIZE in
        let to_write :=
          Z.min (u32 (BLOCK_SIZE - block_offset))
                (u32 (Z.of_nat (length data) - bytes_written)) in
        let '(block_result, inode1, a1) :=
          Directory_getOrAllocFileBlock snap a inode inode_id block_index in
        match block_result with
        | failure e =>
            if 0 <? bytes_written then Some (success bytes_written, inode1, a1)
            else Some (failure e, inode1, a1)
        | success block_no =>
            let '(cow_result, inode2, a2) :=
              Directory_cowDataBlockIfNeeded snap a1 inode1 inode_id
                                             block_index block_no in
            match cow_result with
            | failure e =>
                if 0 <? bytes_written
                then Some (success bytes_written, inode2, a2)
                else Some (failure e, inode2, a2)
            | success block_no =>
                let buffer1 :=
                  if negb (block_offset =? 0)
                     || negb (to_write =? BLOCK_SIZE) then
                    match Allocator_readBlockInternal a2 block_no with
                    | success b => b
                    | failure _ => zero_block
                    end
                  else block_buffer in
                let buffer2 :=
                  memcpy_at buffer1 (Z.to_nat block_offset)
                    (firstn (Z.to_nat to_write)
                            (skipn (Z.to_nat bytes_written) data)) in
                let '(err, a3) :=
                  Allocator_writeBlockInternal a2 block_no buffer2 in
                match err with
                | OK =>
                    write_loop fuel' snap a3 inode2 inode_id data offset
                               buffer2 (u32 (bytes_written + to_write))
                | _ =>
                    if 0 <? bytes_written
                    then Some (success bytes_written, inode2, a3)
                    else Some (failure err, inode2, a3)
                end
            end
        end
    end
  else Some (success bytes_written, inode, a).

(** [writeFileByInode]; the loop gets one iteration per byte of [data],
    which is enough whenever [data] is shorter than 2^32 bytes.  The local
    [block_buffer] starts uninitialised in the source; it is written before
    it is read, and starts here as [zero_block]. *)
Definition Directory_writeFileByInode (now : Z) (snap : option SnapshotManager)
           (a : Allocator) (inode_id : Z) (data : list Z) (offset : Z)
  : option (Result Z * Allocator) :=
  match data with
  | [] => Some (success 0, a)
  | _ =>
      match Allocator_readInode a inode_id with
      | failure e => Some (failure e, a)
      | success inode =>
          if negb (isRegularFile inode) then Some (failure E_IS_DIR, a)
          else
            let write_end := u32 (offset + u32 (Z.of_nat (length data))) in
            if maxFileSize <? write_end then Some (failure E_FILE_TOO_LARGE, a)
            else
              match write_loop (length data) snap a inode inode_id data
                               offset zero_block 0 with
              | None => None
              | Some (failure e, _, a1) => Some (failure e, a1)
              | Some (success bytes_written, _, a1) =>
                  match Allocator_readInode a1 inode_id with
                  | success updated =>
                      let updated1 :=
                        if size updated <? write_end
                        then set_size updated write_end else updated in
                      let '(_, a2) :=
                        Allocator_writeInode a1 inode_id
                          (updateModifyTime now updated1) in
                      Some (success bytes_written, a2)
                  | failure _ => Some (success bytes_written, a1)
                  end
              end
      end
  end.

Definition Directory_writeFile (now : Z) (snap : option SnapshotManager)
           (a : Allocator) (path : list ascii) (data : list Z) (offset : Z)
  : option (Result Z * Allocator) :=
  match Directory_resolvePath a path with
  | failure e => Some (failure e, a)
  | success inode_id =>
      Directory_writeFileByInode now snap a inode_id data offset
  end.


(** ** Cache.cpp *)

Record CacheBlock : Type := mkCacheBlock {
  cb_block_no : Z;
  cb_data : Block;
  cb_dirty : bool
}.

(** [lru_list_] holds the blocks, most recently used first.  [cache_map_]
    indexes that list by block number: [cache_map_.find(n)] is the search of
    the list for [n] ([cache_find]); a block number occurs at most once in
    the list (see [cache_wf] below). *)
Record LRUCache : Type := mkLRUCache {
  capacity_ : Z;
  lru_list_ : list CacheBlock
}.

Definition cache_find (c : LRUCache) (block_no : Z) : option CacheBlock :=
  List.find (fun b => cb_block_no b =? block_no) (lru_list_ c).

Definition cache_remove (l : list CacheBlock) (block_no : Z)
  : list CacheBlock :=
  List.filter (fun b => negb (cb_block_no b =? block_no)) l.

(** [moveToFront(it)] after the block was replaced by [b]. *)
Definition moveToFront (c : LRUCache) (b : CacheBlock) : LRUCache :=
  mkLRUCache (capacity_ c) (b :: cache_remove (lru_list_ c) (cb_block_no b)).

Definition LRUCache_get (c : LRUCache) (block_no : Z)
  : option Block * LRUCache :=
  match cache_find c block_no with
  | None => (None, c)
  | Some b => (Some (cb_data b), moveToFront c b)
  end.

Definition evictLRU (c : LRUCache) : LRUCache :=
  mkLRUCache (capacity_ c) (removelast (lru_list_ c)).

(** [while (lru_list_.size() >= capacity_) evictLRU()] *)
Fixpoint evict_while_full (n : nat) (c : LRUCache) : LRUCache :=
  match n with
  | O => c
  | S n' => if capacity_ c <=? Z.of_nat (length (lru_list_ c))
            then evict_while_full n' (evictLRU c) else c
  end.

Definition LRUCache_put (c : LRUCache) (block_no : Z) (data : Block)
           (dirty : bool) : LRUCache :=
  match cache_find c block_no with
  | Some b => moveToFront c (mkCacheBlock block_no data (cb_dirty b || dirty))
  | None =>
      let c1 := evict_while_full (length (lru_list_ c)) c in
      mkLRUCache (capacity_ c1)
                 (mkCacheBlock block_no data dirty :: lru_list_ c1)
  end.

Definition LRUCache_getDirtyBlocks (c : LRUCache) : list (Z * Block) :=
  map (fun b => (cb_block_no b, cb_data b))
      (List.filter cb_dirty (lru_list_ c)).

Definition LRUCache_clearDirty (c : LRUCache) (block_no : Z) : LRUCache :=
  mkLRUCache (capacity_ c)
    (map (fun b => if cb_block_no b =? block_no
                   then mkCacheBlock (cb_block_no b) (cb_data b) false else b)
         (lru_list_ c)).

Record CachedDisk : Type := mkCachedDisk {
  cd_disk_ : DiskImage;
  cache_ : LRUCache;
  cache_enabled_ : bool;
  write_through_ : bool
}.

Definition CachedDisk_setCacheEnabled (cd : CachedDisk) (enabled : bool)
  : CachedDisk :=
  mkCachedDisk (cd_disk_ cd) (cache_ cd) enabled (write_through_ cd).

Definition CachedDisk_readBlock (cd : CachedDisk) (block_no : Z)
  : Result Block * CachedDisk :=
  let '(hit, c1) :=
    if cache_enabled_ cd then LRUCache_get (cache_ cd) block_no
    else (None, cache_ cd) in
  match hit with
  | Some data =>
      (success data,
       mkCachedDisk (cd_disk_ cd) c1 (cache_enabled_ cd) (write_through_ cd))
  | None =>
      match DiskImage_readBlock (cd_disk_ cd) block_no with
      | failure err =>
          (failure err,
           mkCachedDisk (cd_disk_ cd) c1 (cache_enabled_ cd)
                        (write_through_ cd))
      | success data =>
          let c2 := if cache_enabled_ cd
                    then LRUCache_put c1 block_no data false else c1 in
          (success data,
           mkCachedDisk (cd_disk_ cd) c2 (cache_enabled_ cd)
                        (write_through_ cd))
      end
  end.

Definition CachedDisk_writeBlock (cd : CachedDisk) (block_no : Z)
           (buffer : Block) (write_through : bool) : ErrorCode * CachedDisk :=
  let do_write_through := write_through || write_through_ cd in
  let c1 := if cache_enabled_ cd
            then LRUCache_put (cache_ cd) block_no buffer
                              (negb do_write_through)
            else cache_ cd in
  if do_write_through || negb (cache_enabled_ cd) then
    let '(err, d1) := DiskImage_writeBlock (cd_disk_ cd) block_no buffer in
    match err with
    | OK =>
        let c2 := if cache_enabled_ cd then LRUCache_clearDirty c1 block_no
                  else c1 in
        (OK, mkCachedDisk d1 c2 (cache_enabled_ cd) (write_through_ cd))
    | _ => (err, mkCachedDisk d1 c1 (cache_enabled_ cd) (write_through_ cd))
    end
  else (OK, mkCachedDisk (cd_disk_ cd) c1 (cache_enabled_ cd)
                         (write_through_ cd)).

(** The [for] loop of [flush] over the dirty blocks collected before it. *)
Fixpoint flush_blocks (dirty_blocks : list (Z * Block)) (d : DiskImage)
         (c : LRUCache) : ErrorCode * DiskImage * LRUCache :=
  match dirty_blocks with
  | [] => (OK, d, c)
  | (block_no, data) :: rest =>
      let '(err, d1) := DiskImage_writeBlock d block_no data in
      match err with
      | OK => flush_blocks rest d1 (LRUCache_clearDirty c block_no)
      | _ => (err, d1, c)
      end
  end.

Definition CachedDisk_flush (cd : CachedDisk) : ErrorCode * CachedDisk :=
  let dirty_blocks := LRUCache_getDirtyBlocks (cache_ cd) in
  let '(err, d1, c1) := flush_blocks dirty_blocks (cd_disk_ cd) (cache_ cd) in
  match err with
  | OK => (DiskImage_sync d1,
           mkCachedDisk d1 c1 (cache_enabled_ cd) (write_through_ cd))
  | _ => (err, mkCachedDisk d1 c1 (cache_enabled_ cd) (write_through_ cd))
  end.

(** ** The file layout in the words of the specification *)

(** A pointer that is [INVALID_BLOCK] is missing and reads as
    [E_NOT_FOUND]. *)
Definition found (p : Z) : Result Z :=
  if p =? INVALID_BLOCK then failure E_NOT_FOUND else success p.

(** The pointer at slot [slot] of the indirect block [b]; a block that the
    endpoint cannot read yields the error of the read. *)
Definition pointer_at_slot (a : Allocator) (b slot : Z) : Result Z :=
  match Allocator_readBlockInternal a b with
  | failure e => failure e
  | success blk => found (ptr_at blk slot)
  end.

(** A snapshot name is fresh when no valid snapshot of the list bears it. *)
Definition fresh_name (sm : SnapshotManager) (name : list ascii) : Prop :=
  Forall (fun s => si_valid s = true -> si_name s <> name) (snapshots_ sm).

(** The state [Allocator::load] leaves on an image that [format] laid out:
    the allocator is loaded, the reference count table covers the data
    blocks and holds bytes, the bitmap vector has a bit for every data
    block, and the data region lies inside the open
    image, whose blocks are numbered by 32 bits (and indexed by the
    [int32_t] of [findFirstFree]). *)
Record alloc_ready (a : Allocator) : Prop := mk_alloc_ready {
  ready_loaded : loaded_ a = true;
  ready_enabled : refcount_enabled_ a = true;
  ready_table : refcount_size a = data_block_count (superblock_ a);
  ready_bytes : Forall (fun c => 0 <= c < 256) (block_refcount_ a);
  ready_bitmap :
    data_block_count (superblock_ a)
    <= 8 * Z.of_nat (length (block_bitmap_ a));
  ready_open : is_open_ (disk_ a) = true;
  ready_start : 0 <= data_block_start (superblock_ a);
  ready_count : 0 <= data_block_count (superblock_ a) < 2147483648;
  ready_region :
    data_block_start (superblock_ a) + data_block_count (superblock_ a)
    <= total_blocks_ (disk_ a);
  ready_total : total_blocks_ (disk_ a) < 4294967296
}.

(** The allocator can hand out a block: the counter is not zero and some
    bit of the bitmap is clear. *)
Definition has_free_block (a : Allocator) : Prop :=
  free_blocks (superblock_ a) <> 0
  /\ exists j, 0 <= j < data_block_count (superblock_ a)
               /\ Bitmap_get (block_bitmap_ a)
                             (data_block_count (superblock_ a)) j = false.

(** ** The cache in the words of the specification *)

(** [cache_map_] has one entry per block number. *)
Definition cache_wf (c : LRUCache) : Prop :=
  List.NoDup (map cb_block_no (lru_list_ c)).

(** The on-disk content of the block of a cache entry equals the cached
    content. *)
Definition on_disk (d : DiskImage) (b : CacheBlock) : Prop :=
  DiskImage_readBlock d (cb_block_no b) = success (cb_data b).

(** What the specification promises after a successful flush. *)
Definition flushed (cd : CachedDisk) : Prop :=
  (forall b, In b (lru_list_ (cache_ cd)) -> cb_dirty b = false)
  /\ (forall b, In b (lru_list_ (cache_ cd)) -> on_disk (cd_disk_ cd) b).

(** ** Paths in the words of the specification *)

(** The components of a path: what lies between its ['/'] characters, the
    empty pieces left out. *)
Definition components (s : list ascii) : list (list ascii) :=
  List.filter (fun t => negb (string_eqb t [])) (getline_tokens s []).

(** No ['/'] is repeated. *)
Fixpoint no_double_slash (s : list ascii) : Prop :=
  match s with
  | c :: ((d :: _) as t) =>
      is_slash c && is_slash d = false /\ no_double_slash t
  | _ => True
  end.

(** A normalised path starts with ['/'], repeats no ['/'] and ends with
    none unless it is the root path. *)
Definition normalized (s : list ascii) : Prop :=
  (exists t, s = slash :: t)
  /\ no_double_slash s
  /\ (s = [slash] \/ is_slash (List.last s slash) = false).

(** A name that [splitPath] keeps as a component. *)
Definition plain_name (name : list ascii) : Prop :=
  name <> [] /\ name <> str "." /\ name <> str ".."
  /\ forallb (fun c => negb (is_slash c)) name = true.

(** ** The blocks of a file that [freeFileBlocks] hands to [freeBlock] *)

Definition is_valid_ptr (b : Z) : bool := negb (b =? INVALID_BLOCK).

(** The pointers of an indirect block that are not [INVALID_BLOCK]. *)
Definition valid_ptrs (blk : Block) : list Z :=
  List.filter is_valid_ptr (map (ptr_at blk) (range 0 PTRS_PER_BLOCK)).

(** The blocks below the indirect block [s], then [s] itself. *)
Definition indirect_tree (d : DiskImage) (s : Z) : list Z :=
  match DiskImage_readBlock d s with
  | success blk => valid_ptrs blk
  | failure _ => []
  end ++ [s].

Definition double_tree (d : DiskImage) (dbl : Z) : list Z :=
  match DiskImage_readBlock d dbl with
  | success l1 => flat_map (indirect_tree d) (valid_ptrs l1)
  | failure _ => []
  end ++ [dbl].

Definition blocks_freed (d : DiskImage) (inode : Inode) (from_block : Z)
  : list Z :=
  List.filter is_valid_ptr
              (map (direct_block inode) (range from_block NUM_DIRECT_BLOCKS))
  ++ (if (from_block <=? NUM_DIRECT_BLOCKS)
         && is_valid_ptr (single_indirect inode)
      then indirect_tree d (single_indirect inode) else [])
  ++ (if (from_block <=? NUM_DIRECT_BLOCKS + PTRS_PER_BLOCK)
         && is_valid_ptr (double_indirect inode)
      then double_tree d (double_indirect inode) else []).

(** [freeBlock] on each block of a list, in order. *)
Definition free_list (bs : list Z) (a : Allocator) : Allocator :=
  fold_left (fun a b => snd (Allocator_freeBlock a b)) bs a.

(** Two inodes with the same block pointers. *)
Definition same_ptrs (i j : Inode) : Prop :=
  direct_blocks i = direct_blocks j
  /\ single_indirect i = single_indirect j
  /\ double_indirect i = double_indirect j.

(** ** The content of a file in the words of the specification *)

(** Every block of the image has [BLOCK_SIZE] bytes. *)
Definition disk_sized (d : DiskImage) : Prop :=
  forall b blk, file_ d !! b = Some blk
                -> length blk = Z.to_nat BLOCK_SIZE.

(** The byte at position [pos] of a file: zero where the file has no block
    (a hole), the byte that the block holds otherwise. *)
Definition file_byte (a : Allocator) (inode : Inode) (pos : Z) : Z :=
  match Directory_getFileBlock a inode (pos / BLOCK_SIZE) with
  | failure _ => 0
  | success b =>
      match Allocator_readBlockInternal a b with
      | failure _ => 0
      | success blk => nth (Z.to_nat (pos mod BLOCK_SIZE)) blk 0
      end
  end.


(** The blocks that [getFileBlock] reads on the way to block [block_index]
    of a file: none for a direct block, the single-indirect block, or the
    double-indirect block and the second-level block under it. *)
Definition pointer_blocks (a : Allocator) (inode : Inode) (block_index : Z)
  : list Z :=
  if block_index <? NUM_DIRECT_BLOCKS then []
  else if block_index - NUM_DIRECT_BLOCKS <? PTRS_PER_BLOCK
  then [single_indirect inode]
  else double_indirect inode ::
       match Directory_getIndirectBlock a (double_indirect inode)
               ((block_index - NUM_DIRECT_BLOCKS - PTRS_PER_BLOCK)
                / PTRS_PER_BLOCK) with
       | success l1 => [l1]
       | failure _ => []
       end.



(** ** Auxiliary states and tests of the proofs *)

(** The state after a successful [allocBlock] that hands out the data
    block of index [j]. *)
Definition allocated_state (a : Allocator) (j : Z) : Allocator :=
  updateBlockStats_inc
    (with_disk
       (set_refcount
          (with_block_bitmap a
             (Bitmap_set (block_bitmap_ a)
                         (data_block_count (superblock_ a)) j) true)
          j 1)
       (mkDisk (is_open_ (disk_ a)) (total_blocks_ (disk_ a))
               (<[data_block_start (superblock_ a) + j := zero_block]>
                  (file_ (disk_ a))))).

(** A cache entry after [clearDirty]. *)
Definition clear_entry (b : CacheBlock) : CacheBlock :=
  mkCacheBlock (cb_block_no b) (cb_data b) false.

(** Membership in a list of block numbers or indices. *)
Definition mem (n : Z) (l : list Z) : bool := existsb (Z.eqb n) l.

(** A piece of a path that [splitPath] keeps. *)
Definition nonempty (t : list ascii) : bool := negb (string_eqb t []).

(** ** Further functions of the same files *)

(** *** FSTypes.h: [Bitmap::countUsed] and [Bitmap::countFree] *)

(** The loop of [countUsed], [i] running from its start for [n] steps with
    the [uint32_t] counter [count]. *)
Fixpoint countUsed_from (data : list Z) (total_bits : Z) (n : nat)
         (i count : Z) : Z :=
  match n with
  | O => count
  | S n' =>
      countUsed_from data total_bits n' (i + 1)
                     (if Bitmap_get data total_bits i then u32 (count + 1)
                      else count)
  end.
Definition Bitmap_countUsed (data : list Z) (total_bits : Z) : Z :=
  countUsed_from data total_bits (Z.to_nat total_bits) 0 0.
Definition Bitmap_countFree (data : list Z) (total_bits : Z) : Z :=
  u32 (total_bits - Bitmap_countUsed data total_bits).

(** *** DiskImage.cpp: [zeroBlock] and [zeroBlocks] *)

Definition DiskImage_zeroBlock (d : DiskImage) (block_no : Z)
  : ErrorCode * DiskImage :=
  DiskImage_writeBlock d block_no zero_block.

(** The loop of [zeroBlocks] from [i], for [n] more blocks; it returns at
    the first error. *)
Fixpoint zeroBlocks_from (d : DiskImage) (start_block : Z) (n : nat) (i : Z)
  : ErrorCode * DiskImage :=
  match n with
  | O => (OK, d)
  | S n' =>
      let '(err, d1) := DiskImage_zeroBlock d (u32 (start_block + i)) in
      match err with
      | OK => zeroBlocks_from d1 start_block n' (i + 1)
      | _ => (err, d1)
      end
  end.
Definition DiskImage_zeroBlocks (d : DiskImage) (start_block count : Z)
  : ErrorCode * DiskImage :=
  zeroBlocks_from d start_block (Z.to_nat count) 0.

(** The indices [i], [i + 1], ..., [i + n - 1] of a counting loop. *)
Fixpoint zrange (i : Z) (n : nat) : list Z :=
  match n with
  | O => []
  | S n' => i :: zrange (i + 1) n'
  end.

(** *** Allocator.cpp: inodes *)

(** [void Inode::clear()] *)
Definition Inode_clear : Inode :=
  mkInode FREE 0 0 0 0 0 0 0 0 (repeat INVALID_BLOCK 12)
          INVALID_BLOCK INVALID_BLOCK 0 0.

Definition with_inode_bitmap (a : Allocator) (bm : list Z) (dirty : bool)
  : Allocator :=
  mkAllocator (disk_ a) (superblock_ a) (loaded_ a) bm
              (block_bitmap_ a) dirty
              (block_bitmap_dirty_ a) (superblock_dirty_ a)
              (block_refcount_ a) (refcount_enabled_ a) (inode_table_ a).

Definition set_inode_counters (sb : Superblock) (free used : Z) : Superblock :=
  mkSuperblock (total_blocks sb) (total_inodes sb) (inode_table_start sb)
               (free_blocks sb) free (used_blocks sb) used
               (data_block_start sb) (data_block_count sb)
               (snapshot_count sb) (snapshot_list_block sb) (root_inode sb).

(** [updateInodeStats(+1)] and [updateInodeStats(-1)] *)
Definition updateInodeStats_inc (a : Allocator) : Allocator :=
  let sb := superblock_ a in
  with_superblock a (set_inode_counters sb (u32 (free_inodes sb - 1))
                                           (u32 (used_inodes sb + 1))) true.
Definition updateInodeStats_dec (a : Allocator) : Allocator :=
  let sb := superblock_ a in
  with_superblock a (set_inode_counters sb (u32 (free_inodes sb + 1))
                                           (u32 (used_inodes sb - 1))) true.

Definition findFreeInode (a : Allocator) : Z :=
  Bitmap_findFirstFree (inode_bitmap_ a) (total_inodes (superblock_ a)).

Definition Allocator_allocInode (a : Allocator) : Result Z * Allocator :=
  if negb (loaded_ a) then (failure E_INVALID_PARAM, a)
  else if free_inodes (superblock_ a) =? 0 then (failure E_NO_INODE, a)
  else
    let free_idx := findFreeInode a in
    if free_idx <? 0 then (failure E_NO_INODE, a)
    else
      let inode_id := u32 free_idx in
      let total := total_inodes (superblock_ a) in
      let a1 := with_inode_bitmap a
                  (Bitmap_set (inode_bitmap_ a) total inode_id) true in
      let '(err, a2) := Allocator_writeInode a1 inode_id (Inode_init FREE) in
      match err with
      | OK => (success inode_id, updateInodeStats_inc a2)
      | _ => (failure err,
              with_inode_bitmap a2
                (Bitmap_clear (inode_bitmap_ a2) total inode_id)
                (inode_bitmap_dirty_ a2))
      end.

Definition Allocator_freeInode (a : Allocator) (inode_id : Z)
  : ErrorCode * Allocator :=
  if negb (loaded_ a) then (E_INVALID_PARAM, a)
  else if total_inodes (superblock_ a) <=? inode_id
  then (E_INVALID_PARAM, a)
  else if inode_id =? ROOT_INODE then (E_PERMISSION, a)
  else
    let total := total_inodes (superblock_ a) in
    if negb (Bitmap_get (inode_bitmap_ a) total inode_id)
    then (E_INVALID_PARAM, a)
    else
      let '(err, a1) := Allocator_writeInode a inode_id Inode_clear in
      match err with
      | OK =>
          (OK, updateInodeStats_dec
                 (with_inode_bitmap a1
                    (Bitmap_clear (inode_bitmap_ a1) total inode_id) true))
      | _ => (err, a1)
      end.

Definition Allocator_isInodeAllocated (a : Allocator) (inode_id : Z) : bool :=
  if negb (loaded_ a) || (total_inodes (superblock_ a) <=? inode_id)
  then false
  else Bitmap_get (inode_bitmap_ a) (total_inodes (superblock_ a)) inode_id.

(** *** Allocator.cpp: [checkConsistency(bool fix)]; the messages on
    [std::cerr] are left out. *)
Definition Allocator_checkConsistency (a : Allocator) (fix_ : bool)
  : ErrorCode * Allocator :=
  if negb (loaded_ a) then (E_INVALID_PARAM, a)
  else
    let actual_used_inodes :=
      Bitmap_countUsed (inode_bitmap_ a) (total_inodes (superblock_ a)) in
    let '(e1, a1) :=
      if negb (actual_used_inodes =? used_inodes (superblock_ a)) then
        (true,
         if fix_ then
           with_superblock a
             (set_inode_counters (superblock_ a)
                (u32 (total_inodes (superblock_ a) - actual_used_inodes))
                actual_used_inodes) true
         else a)
      else (false, a) in
    let actual_used_blocks :=
      Bitmap_countUsed (block_bitmap_ a1)
                       (data_block_count (superblock_ a1)) in
    let '(e2, a2) :=
      if negb (actual_used_blocks =? used_blocks (superblock_ a1)) then
        (true,
         if fix_ then
           with_superblock a1
             (set_block_counters (superblock_ a1)
                (u32 (data_block_count (superblock_ a1) - actual_used_blocks))
                actual_used_blocks) true
         else a1)
      else (e1, a1) in
    let '(e3, a3) :=
      if negb (Bitmap_get (inode_bitmap_ a2)
                          (total_inodes (superblock_ a2)) ROOT_INODE) then
        (true,
         if fix_ then
           with_inode_bitmap a2
             (Bitmap_set (inode_bitmap_ a2) (total_inodes (superblock_ a2))
                         ROOT_INODE) true
         else a2)
      else (e2, a2) in
    (if e3 then E_INTERNAL else OK, a3).

(** *** Consistency of the counters *)

(** The counters of the superblock agree with the bitmaps, as
    [checkConsistency] compares them. *)
Definition blocks_consistent (a : Allocator) : Prop :=
  used_blocks (superblock_ a)
  = Bitmap_countUsed (block_bitmap_ a) (data_block_count (superblock_ a)).

(** The state [Allocator::load] leaves for the inodes: the inode bitmap has
    a bit for every inode and the blocks of the inode table lie inside the
    open image. *)
Record inode_ready (a : Allocator) : Prop := mk_inode_ready {
  iready_loaded : loaded_ a = true;
  iready_total : 0 <= total_inodes (superblock_ a) < 2147483648;
  iready_bitmap :
    total_inodes (superblock_ a) <= 8 * Z.of_nat (length (inode_bitmap_ a));
  iready_open : is_open_ (disk_ a) = true;
  iready_start : 0 <= inode_table_start (superblock_ a);
  iready_table :
    inode_table_start (superblock_ a)
    + total_inodes (superblock_ a) / INODES_PER_BLOCK
    < total_blocks_ (disk_ a);
  iready_blocks : total_blocks_ (disk_ a) < 4294967296
}.

(** *** Cache.cpp: further operations of [LRUCache] *)

Definition LRUCache_contains (c : LRUCache) (block_no : Z) : bool :=
  match cache_find c block_no with Some _ => true | None => false end.

Definition LRUCache_getLRUOrder (c : LRUCache) : list Z :=
  map cb_block_no (lru_list_ c).

(** [while (lru_list_.size() > capacity_) evictLRU()] *)
Fixpoint evict_while_over (n : nat) (c : LRUCache) : LRUCache :=
  match n with
  | O => c
  | S n' => if capacity_ c <? Z.of_nat (length (lru_list_ c))
            then evict_while_over n' (evictLRU c) else c
  end.

Definition LRUCache_setCapacity (c : LRUCache) (new_capacity : Z)
  : LRUCache :=
  let c1 := mkLRUCache (if 0 <? new_capacity then new_capacity else 1)
                       (lru_list_ c) in
  evict_while_over (length (lru_list_ c1)) c1.

(** *** Snapshot.cpp: [getSnapshot] and [snapshotExists] *)

(** [snapshots_[idx]]; the index that [findSnapshotIndex] returns lies
    inside the vector, so the default is never taken. *)
Definition SnapshotManager_getSnapshot (sm : SnapshotManager)
           (name : list ascii) : Result SnapshotInfo :=
  let idx := findSnapshotIndex sm name in
  if idx <? 0 then failure E_SNAPSHOT_NOT_FOUND
  else success (nth (Z.to_nat idx) (snapshots_ sm)
                    (mkSnapshotInfo [] 0 0 0 false)).

Definition SnapshotManager_snapshotExists (sm : SnapshotManager)
           (name : list ascii) : bool :=
  0 <=? findSnapshotIndex sm name.

(** ** A small image for the examples

    An image of 64 blocks with 16 inodes: the inode table starts at block 3
    and the data region at block 8.  Data block 8 holds the root directory
    with the entries [.], [..] and [f]; inode 1 is the empty regular file
    [/f].  The reference counts are all 1, as [Allocator::load] leaves
    them. *)

Definition bytes (s : string) : list Z :=
  map (fun c => Z.of_N (N_of_ascii c)) (str s).

Definition le32 (v : Z) : list Z :=
  [v mod 256; (v / 256) mod 256; (v / 65536) mod 256; (v / 16777216) mod 256].

(** The 64 bytes that [DirEntry::init(ino, n, t)] and [DirEntry::clear()]
    leave in an entry. *)
Definition DirEntry_init (ino : Z) (n : string) (t : Z) : list Z :=
  let name := firstn 56 (bytes n) in
  le32 ino ++ [Z.of_nat (length name); t; 64; 0] ++ name
       ++ repeat 0 (56 - length name).
Definition DirEntry_clear : list Z := le32 INVALID_INODE ++ repeat 0 60.

Definition ex_root_block : Block :=
  DirEntry_init 0 "." 2 ++ DirEntry_init 0 ".." 2 ++ DirEntry_init 1 "f" 1
  ++ concat (repeat DirEntry_clear 13).

Definition ex_disk : DiskImage := mkDisk true 64 {[ 8 := ex_root_block ]}.

Definition ex_superblock : Superblock :=
  mkSuperblock 64 16 3 55 14 1 2 8 56 0 0 0.

Definition ex_root : Inode :=
  mkInode DIRECTORY 7 0 192 2 1 0 0 0 (8 :: repeat INVALID_BLOCK 11)
          INVALID_BLOCK INVALID_BLOCK 1 0.

Definition ex_alloc : Allocator :=
  mkAllocator ex_disk ex_superblock true
              (3 :: repeat 0 1023) (1 :: repeat 0 1023) false false false
              (repeat 1 56) true
              {[ 0 := ex_root; 1 := Inode_init REGULAR ]}.

(** An inode whose block 300 is reached through the double-indirect block
    20, its slot 0 (block 21) and slot 32 of that block (block 22). *)
Definition ex_big_inode : Inode :=
  mkInode REGULAR 7 0 308224 1 1 0 0 0 (repeat INVALID_BLOCK 12)
          INVALID_BLOCK 20 3 0.
Definition ex_big_alloc : Allocator :=
  with_disk ex_alloc
    (mkDisk true 64
       {[ 20 := set_ptr invalid_ptr_block 0 21;
          21 := set_ptr invalid_ptr_block 32 22 ]}).

(** A manager holding the snapshots [s0], ..., [s(n-1)], and callees of
    [createSnapshot] that fail at once. *)
Definition ex_snapshot (i : nat) : SnapshotInfo :=
  mkSnapshotInfo (str "s" ++ [ascii_of_nat (65 + i)]) 0 (Z.of_nat (2 + i)) 1
                 true.
Definition ex_manager (n : nat) : SnapshotManager :=
  mkSnapshotManager (map ex_snapshot (seq 0 n)) 0 true false.
Definition ex_clone (a : Allocator) (root : Z) : Result Z * Allocator :=
  (failure E_NO_INODE, a).
Definition ex_save (l : list SnapshotInfo) (b : Z) (a : Allocator)
  : ErrorCode * Z * Allocator := (E_IO, b, a).
Definition ex_sync (a : Allocator) : ErrorCode * Allocator := (E_IO, a).

(** The example image after a snapshot: data block 9 holds the bytes of a
    file and is shared, with reference count 2. *)
Definition ex_cow_alloc : Allocator :=
  mkAllocator
    (mkDisk true 64 {[ 8 := ex_root_block;
                       9 := bytes "shared" ++ repeat 0 1018 ]})
    (mkSuperblock 64 16 3 54 14 2 2 8 56 1 0 0) true
    (3 :: repeat 0 1023) (3 :: repeat 0 1023) false false false
    (1 :: 2 :: repeat 1 54) true
    {[ 0 := ex_root; 1 := Inode_init REGULAR ]}.

(** The same image with every data block taken: the bitmap has its 56 bits
    set and the superblock counts no free block. *)
Definition ex_full_alloc : Allocator :=
  mkAllocator
    (mkDisk true 64 {[ 8 := ex_root_block;
                       9 := bytes "shared" ++ repeat 0 1018 ]})
    (mkSuperblock 64 16 3 0 14 56 2 8 56 1 0 0) true
    (3 :: repeat 0 1023) (repeat 255 7 ++ repeat 0 1017) false false false
    (1 :: 2 :: repeat 1 54) true
    {[ 0 := ex_root; 1 := Inode_init REGULAR ]}.

(** A cached disk of 16 zeroed blocks with an empty cache of capacity 4, and
    the run: read block 5 through the cache, disable the cache, write block
    5, enable the cache again, flush. *)
Definition ex_cached_disk : CachedDisk :=
  mkCachedDisk (mkDisk true 16 ∅) (mkLRUCache 4 []) true false.
Definition ex_sevens : Block := repeat 7 1024.
Definition ex_stale_run : ErrorCode * CachedDisk :=
  let cd1 := snd (CachedDisk_readBlock ex_cached_disk 5) in
  let cd2 := CachedDisk_setCacheEnabled cd1 false in
  let cd3 := snd (CachedDisk_writeBlock cd2 5 ex_sevens false) in
  let cd4 := CachedDisk_setCacheEnabled cd3 true in
  CachedDisk_flush cd4.

(** The cached disk after block 3 was written in write-back mode. *)
Definition ex_dirty_disk : CachedDisk :=
  snd (CachedDisk_writeBlock ex_cached_disk 3 ex_sevens false).

(** The example image after [writeFile("/f", "Hello World!")], and the run
    [truncate("/f", 5)], [truncate("/f", 10)] on it. *)
Definition ex_hello : Allocator :=
  match Directory_writeFile 0 None ex_alloc (str "/f") (bytes "Hello World!")
                            0 with
  | Some (_, a) => a
  | None => ex_alloc
  end.

(** A clone procedure that succeeds with inode 5 as the root of the copy,
    for the examples of [createSnapshot]. *)
Definition ex_clone_ok (a : Allocator) (root : Z) : Result Z * Allocator :=
  (success 5, a).

(** * Properties *)

(** ** Bits and bitmaps *)

Lemma land1_testbit (x k : Z) :
  0 <= k -> (Z.land (Z.shiftr x k) 1 =? 1) = Z.testbit x k.
Proof.
  intros Hk.
  change 1 with (Z.ones 1) at 1. rewrite Z.land_ones by lia.
  replace (Z.testbit x k) with (Z.testbit (Z.shiftr x k) 0)
    by (rewrite Z.shiftr_spec by lia; f_equal; lia).
  rewrite Z.bit0_odd. change (2 ^ 1) with 2. rewrite Zmod_odd.
  destruct (Z.odd (Z.shiftr x k)); reflexivity.
Qed.

Lemma testbit_one_shifted (k j : Z) :
  0 <= k -> 0 <= j -> Z.testbit (Z.shiftl 1 k) j = (j =? k).
Proof.
  intros Hk Hj. rewrite Z.shiftl_spec by lia.
  destruct (Z.eqb_spec j k) as [->|Hne].
  - rewrite Z.sub_diag. reflexivity.
  - destruct (Z.ltb_spec j k).
    + apply Z.testbit_neg_r. lia.
    + replace (j - k) with (Z.succ (j - k - 1)) by lia.
      change 1 with (2 * 0 + 1) at 1.
      rewrite Z.testbit_odd_succ by lia. apply Z.testbit_0_l.
Qed.

Lemma testbit_set (x k j : Z) :
  0 <= k -> 0 <= j ->
  Z.testbit (Z.lor x (Z.shiftl 1 k)) j = Z.testbit x j || (j =? k).
Proof.
  intros. rewrite Z.lor_spec, testbit_one_shifted by lia. reflexivity.
Qed.

Lemma testbit_clear (x k j : Z) :
  0 <= k -> 0 <= j ->
  Z.testbit (Z.land x (Z.lnot (Z.shiftl 1 k))) j
  = Z.testbit x j && negb (j =? k).
Proof.
  intros. rewrite Z.land_spec, Z.lnot_spec, testbit_one_shifted by lia.
  reflexivity.
Qed.

Lemma nth_insert_same {A} (l : list A) (i : nat) (v d : A) :
  (i < length l)%nat -> nth i (<[i := v]> l) d = v.
Proof.
  intros H. rewrite nth_lookup, list_lookup_insert_eq by exact H. reflexivity.
Qed.

Lemma nth_insert_other {A} (l : list A) (i j : nat) (v d : A) :
  i <> j -> nth j (<[i := v]> l) d = nth j l d.
Proof.
  intros H. rewrite !nth_lookup, list_lookup_insert_ne by exact H.
  reflexivity.
Qed.

Lemma nth_insert_out {A} (l : list A) (i j : nat) (v d : A) :
  (length l <= i)%nat -> nth j (<[i := v]> l) d = nth j l d.
Proof. intros H. rewrite list_insert_ge by exact H. reflexivity. Qed.

Lemma Bitmap_get_testbit (data : list Z) (total i : Z) :
  0 <= i ->
  Bitmap_get data total i
  = (i <? total) && Z.testbit (nth (Z.to_nat (i / 8)) data 0) (i mod 8).
Proof.
  intros Hi. unfold Bitmap_get.
  destruct (Z.leb_spec total i), (Z.ltb_spec i total); try lia;
    try reflexivity; simpl.
  apply land1_testbit. apply Z.mod_pos_bound. lia.
Qed.

(** A bit that reads as set lies in a byte of the vector. *)
Lemma Bitmap_get_in_range (data : list Z) (total i : Z) :
  0 <= i -> Bitmap_get data total i = true ->
  i < total /\ (Z.to_nat (i / 8) < length data)%nat.
Proof.
  intros Hi. rewrite Bitmap_get_testbit by exact Hi.
  destruct (Z.ltb_spec i total); simpl; [|discriminate].
  intros Hb. split; [assumption|].
  destruct (Nat.lt_ge_cases (Z.to_nat (i / 8)) (length data)) as [|Hge];
    [assumption|].
  rewrite nth_overflow in Hb by exact Hge.
  rewrite Z.testbit_0_l in Hb. discriminate.
Qed.

Lemma div8_mod8_eq (i j : Z) : i / 8 = j / 8 -> i mod 8 = j mod 8 -> i = j.
Proof.
  intros Hd Hm.
  rewrite (Z.div_mod i 8), (Z.div_mod j 8) by lia. congruence.
Qed.

Lemma Bitmap_get_set_same (data : list Z) (total i : Z) :
  0 <= i < total -> (Z.to_nat (i / 8) < length data)%nat ->
  Bitmap_get (Bitmap_set data total i) total i = true.
Proof.
  intros Hi Hlen. rewrite Bitmap_get_testbit by lia. unfold Bitmap_set.
  destruct (Z.leb_spec total i), (Z.ltb_spec i total); try lia; simpl.
  rewrite nth_insert_same by exact Hlen.
  assert (0 <= i mod 8) by (apply Z.mod_pos_bound; lia).
  rewrite testbit_set, Z.eqb_refl by lia. apply orb_true_r.
Qed.

Lemma Bitmap_get_set_other (data : list Z) (total i j : Z) :
  0 <= i -> 0 <= j -> i <> j ->
  Bitmap_get (Bitmap_set data total i) total j = Bitmap_get data total j.
Proof.
  intros Hi Hj Hne. rewrite !Bitmap_get_testbit by lia. unfold Bitmap_set.
  destruct (Z.leb_spec total i); [reflexivity|]. f_equal.
  assert (0 <= i mod 8) by (apply Z.mod_pos_bound; lia).
  assert (0 <= j mod 8) by (apply Z.mod_pos_bound; lia).
  destruct (Z.eq_dec (i / 8) (j / 8)) as [Hd|Hd].
  - rewrite <- Hd.
    destruct (Nat.lt_ge_cases (Z.to_nat (i / 8)) (length data)) as [Hl|Hl].
    + rewrite nth_insert_same by exact Hl. rewrite testbit_set by lia.
      destruct (Z.eqb_spec (j mod 8) (i mod 8)) as [Hm|Hm].
      * exfalso. apply Hne. apply div8_mod8_eq; congruence.
      * apply orb_false_r.
    + rewrite nth_insert_out by exact Hl. reflexivity.
  - rewrite nth_insert_other; [reflexivity|].
    intros Heq. apply Hd. apply Z2Nat.inj in Heq; [assumption| |];
      apply Z.div_pos; lia.
Qed.

Lemma Bitmap_get_clear_same (data : list Z) (total i : Z) :
  0 <= i -> Bitmap_get (Bitmap_clear data total i) total i = false.
Proof.
  intros Hi. rewrite Bitmap_get_testbit by lia. unfold Bitmap_clear.
  destruct (Z.leb_spec total i), (Z.ltb_spec i total); try lia;
    try reflexivity; simpl.
  assert (0 <= i mod 8) by (apply Z.mod_pos_bound; lia).
  destruct (Nat.lt_ge_cases (Z.to_nat (i / 8)) (length data)) as [Hl|Hl].
  - rewrite nth_insert_same by exact Hl.
    rewrite testbit_clear, Z.eqb_refl by lia. apply andb_false_r.
  - rewrite nth_insert_out by exact Hl.
    rewrite nth_overflow by exact Hl. apply Z.testbit_0_l.
Qed.

Lemma Bitmap_get_clear_other (data : list Z) (total i j : Z) :
  0 <= i -> 0 <= j -> i <> j ->
  Bitmap_get (Bitmap_clear data total i) total j = Bitmap_get data total j.
Proof.
  intros Hi Hj Hne. rewrite !Bitmap_get_testbit by lia. unfold Bitmap_clear.
  destruct (Z.leb_spec total i); [reflexivity|]. f_equal.
  assert (0 <= i mod 8) by (apply Z.mod_pos_bound; lia).
  assert (0 <= j mod 8) by (apply Z.mod_pos_bound; lia).
  destruct (Z.eq_dec (i / 8) (j / 8)) as [Hd|Hd].
  - rewrite <- Hd.
    destruct (Nat.lt_ge_cases (Z.to_nat (i / 8)) (length data)) as [Hl|Hl].
    + rewrite nth_insert_same by exact Hl. rewrite testbit_clear by lia.
      destruct (Z.eqb_spec (j mod 8) (i mod 8)) as [Hm|Hm].
      * exfalso. apply Hne. apply div8_mod8_eq; congruence.
      * apply andb_true_r.
    + rewrite nth_insert_out by exact Hl. reflexivity.
  - rewrite nth_insert_other; [reflexivity|].
    intros Heq. apply Hd. apply Z2Nat.inj in Heq; [assumption| |];
      apply Z.div_pos; lia.
Qed.

Lemma Bitmap_set_length (data : list Z) (total i : Z) :
  length (Bitmap_set data total i) = length data.
Proof.
  unfold Bitmap_set. destruct (total <=? i); [reflexivity|].
  apply length_insert.
Qed.

Lemma Bitmap_clear_length (data : list Z) (total i : Z) :
  length (Bitmap_clear data total i) = length data.
Proof.
  unfold Bitmap_clear. destruct (total <=? i); [reflexivity|].
  apply length_insert.
Qed.

(** [findFirstFree] returns -1 when every bit is set, and the lowest clear
    index, cast to [int32_t], otherwise. *)
Lemma findFirstFree_from_cast (data : list Z) (total : Z) (n : nat) (i : Z) :
  let r := findFirstFree_from data total n i in
  (r = -1 /\ forall j, i <= j < i + Z.of_nat n ->
                       Bitmap_get data total j = true)
  \/ (exists k, i <= k < i + Z.of_nat n /\ r = i32 k
                /\ Bitmap_get data total k = false
                /\ forall j, i <= j < k -> Bitmap_get data total j = true).
Proof.
  revert i. induction n as [|n IH]; intros i; simpl.
  - left. split; [reflexivity|]. intros j Hj. lia.
  - destruct (Bitmap_get data total i) eqn:Hb.
    + destruct (IH (i + 1)) as [[Hr Hall]|(k & Hk & Hr & Hf & Hall)].
      * left. split; [exact Hr|]. intros j Hj.
        destruct (Z.eq_dec j i) as [->|]; [exact Hb|]. apply Hall. lia.
      * right. exists k. split; [lia|]. split; [exact Hr|].
        split; [exact Hf|]. intros j Hj.
        destruct (Z.eq_dec j i) as [->|]; [exact Hb|]. apply Hall. lia.
    + right. exists i. split; [lia|]. split; [reflexivity|].
      split; [exact Hb|]. intros j Hj. lia.
Qed.

(** Below 2^31 the cast changes nothing: [findFirstFree] returns the lowest
    clear bit, or -1. *)
Lemma findFirstFree_from_spec (data : list Z) (total : Z) (n : nat) (i : Z) :
  i + Z.of_nat n <= 2147483648 ->
  let r := findFirstFree_from data total n i in
  (r = -1 /\ forall j, i <= j < i + Z.of_nat n ->
                       Bitmap_get data total j = true)
  \/ (i <= r < i + Z.of_nat n /\ Bitmap_get data total r = false
      /\ forall j, i <= j < r -> Bitmap_get data total j = true).
Proof.
  intros Hn r. subst r.
  destruct (findFirstFree_from_cast data total n i)
    as [H|(k & Hk & Hr & Hf & Hall)]; [left; exact H|].
  right. rewrite Hr. unfold i32.
  destruct (Z.ltb_spec k 2147483648); [|lia].
  split; [exact Hk|]. split; [exact Hf|exact Hall].
Qed.

(** ** File block lookup (C1) *)

Lemma getIndirectBlock_slot (a : Allocator) (b slot : Z) :
  b <> INVALID_BLOCK -> slot < PTRS_PER_BLOCK ->
  Directory_getIndirectBlock a b slot = pointer_at_slot a b slot.
Proof.
  intros Hb Hslot. unfold Directory_getIndirectBlock, pointer_at_slot, found.
  destruct (Z.eqb_spec b INVALID_BLOCK); [contradiction|].
  destruct (Z.leb_spec PTRS_PER_BLOCK slot); [lia|]. simpl.
  destruct (Allocator_readBlockInternal a b); reflexivity.
Qed.

Lemma found_success (p q : Z) : found p = success q -> q = p /\ p <> INVALID_BLOCK.
Proof.
  unfold found. destruct (Z.eqb_spec p INVALID_BLOCK); [discriminate|].
  intros [= <-]. split; [reflexivity|assumption].
Qed.

Lemma pointer_at_slot_success (a : Allocator) (b slot p : Z) :
  pointer_at_slot a b slot = success p -> p <> INVALID_BLOCK.
Proof.
  unfold pointer_at_slot. destruct (Allocator_readBlockInternal a b);
    [|discriminate].
  intros H. apply found_success in H. destruct H as [-> H]. exact H.
Qed.

(** C1.  For every inode and every file block index [k], [getFileBlock]
    returns the [k]-th direct pointer when [k < 12]; the pointer at slot
    [k - 12] of the single-indirect block when [12 <= k < 268]; the pointer
    at slot [(k - 268) / 256] of the double-indirect block followed by slot
    [(k - 268) mod 256] when [268 <= k < 268 + 65536]; and
    [E_FILE_TOO_LARGE] for [k >= 268 + 65536].  A pointer on the way that is
    [INVALID_BLOCK] ([found]) gives [E_NOT_FOUND]. *)
Theorem getFileBlock_layout (a : Allocator) (inode : Inode) (k : Z) :
  0 <= k ->
  (k < 12 ->
   Directory_getFileBlock a inode k = found (direct_block inode k))
  /\ (12 <= k < 268 ->
      Directory_getFileBlock a inode k =
      match found (single_indirect inode) with
      | failure e => failure e
      | success s => pointer_at_slot a s (k - 12)
      end)
  /\ (268 <= k < 268 + 65536 ->
      Directory_getFileBlock a inode k =
      match found (double_indirect inode) with
      | failure e => failure e
      | success d =>
          match pointer_at_slot a d ((k - 268) / 256) with
          | failure e => failure e
          | success l1 => pointer_at_slot a l1 ((k - 268) mod 256)
          end
      end)
  /\ (268 + 65536 <= k ->
      Directory_getFileBlock a inode k = failure E_FILE_TOO_LARGE).
Proof.
  intros Hk. unfold Directory_getFileBlock.
  change NUM_DIRECT_BLOCKS with 12. change PTRS_PER_BLOCK with 256.
  repeat split; intros Hr.
  - destruct (Z.ltb_spec k 12); [|lia]. reflexivity.
  - destruct (Z.ltb_spec k 12); [lia|].
    destruct (Z.ltb_spec (k - 12) 256); [|lia].
    unfold found at 1.
    destruct (Z.eqb_spec (single_indirect inode) INVALID_BLOCK);
      [reflexivity|].
    apply getIndirectBlock_slot; [assumption|]. change PTRS_PER_BLOCK with 256.
    lia.
  - destruct (Z.ltb_spec k 12); [lia|].
    destruct (Z.ltb_spec (k - 12) 256); [lia|].
    destruct (Z.ltb_spec (k - 12 - 256) (256 * 256)); [|lia].
    replace (k - 12 - 256) with (k - 268) by lia.
    unfold found at 1.
    destruct (Z.eqb_spec (double_indirect inode) INVALID_BLOCK);
      [reflexivity|].
    assert (0 <= (k - 268) / 256 < 256).
    { split; [apply Z.div_pos; lia|]. apply Z.div_lt_upper_bound; lia. }
    assert (0 <= (k - 268) mod 256 < 256) by (apply Z.mod_pos_bound; lia).
    rewrite getIndirectBlock_slot
      by (try assumption; change PTRS_PER_BLOCK with 256; lia).
    destruct (pointer_at_slot a (double_indirect inode) ((k - 268) / 256))
      as [l1|e] eqn:Hl1; [|reflexivity].
    apply getIndirectBlock_slot.
    + eapply pointer_at_slot_success; eassumption.
    + change PTRS_PER_BLOCK with 256. lia.
  - destruct (Z.ltb_spec k 12); [lia|].
    destruct (Z.ltb_spec (k - 12) 256); [lia|].
    destruct (Z.ltb_spec (k - 12 - 256) (256 * 256)); [lia|]. reflexivity.
Qed.

(** In the example image, file block 300 of [ex_big_inode] is block 22. *)
Lemma getFileBlock_layout_witness :
  0 <= 300 /\ 268 <= 300 < 268 + 65536
  /\ Directory_getFileBlock ex_big_alloc ex_big_inode 300 = success 22.
Proof.
  split; [lia|]. split; [lia|].
  destruct (getFileBlock_layout ex_big_alloc ex_big_inode 300 ltac:(lia))
    as (_ & _ & H & _).
  rewrite H by lia. vm_compute. reflexivity.
Defined.

(** ** The allocator: [freeBlock] (C5) *)

Lemma u32_nonneg (x : Z) : 0 <= u32 x.
Proof. unfold u32. apply Z.mod_pos_bound. lia. Qed.

Lemma absoluteToDataBlock_nonneg (a : Allocator) (n : Z) :
  0 <= absoluteToDataBlock a n.
Proof. apply u32_nonneg. Qed.

(** [getBlockRef] reads the table only when everything is in place. *)
Lemma getBlockRef_pos (a : Allocator) (n : Z) :
  0 < Allocator_getBlockRef a n ->
  loaded_ a = true /\ refcount_enabled_ a = true
  /\ isValidDataBlock a n = true
  /\ absoluteToDataBlock a n < refcount_size a
  /\ Allocator_getBlockRef a n = refcount_at a (absoluteToDataBlock a n).
Proof.
  unfold Allocator_getBlockRef.
  destruct (loaded_ a), (refcount_enabled_ a); simpl; try lia.
  destruct (isValidDataBlock a n); simpl; try lia.
  destruct (Z.leb_spec (refcount_size a) (absoluteToDataBlock a n)); lia.
Qed.

Lemma isBlockAllocated_true (a : Allocator) (n : Z) :
  Allocator_isBlockAllocated a n = true ->
  loaded_ a = true /\ isValidDataBlock a n = true
  /\ Bitmap_get (block_bitmap_ a) (data_block_count (superblock_ a))
                (absoluteToDataBlock a n) = true.
Proof.
  unfold Allocator_isBlockAllocated.
  destruct (loaded_ a), (isValidDataBlock a n); simpl; try discriminate.
  intros H. repeat split; try reflexivity; assumption.
Qed.

Lemma refcount_at_set_same (a : Allocator) (i v : Z) :
  0 <= i < refcount_size a -> refcount_at (set_refcount a i v) i = v.
Proof.
  intros Hi. unfold refcount_at, set_refcount, refcount_size in *. simpl.
  apply nth_insert_same. lia.
Qed.

Lemma refcount_at_set_other (a : Allocator) (i j v : Z) :
  0 <= i -> 0 <= j -> i <> j ->
  refcount_at (set_refcount a i v) j = refcount_at a j.
Proof.
  intros Hi Hj Hne. unfold refcount_at, set_refcount. simpl.
  apply nth_insert_other. intros Heq. apply Hne.
  apply Z2Nat.inj in Heq; lia.
Qed.

Lemma refcount_size_set (a : Allocator) (i v : Z) :
  refcount_size (set_refcount a i v) = refcount_size a.
Proof.
  unfold refcount_size, set_refcount. simpl. rewrite length_insert.
  reflexivity.
Qed.

Lemma refcount_at_byte (a : Allocator) (i : Z) :
  Forall (fun c => 0 <= c < 256) (block_refcount_ a) ->
  0 <= refcount_at a i < 256.
Proof.
  intros Hall. unfold refcount_at.
  destruct (Nat.lt_ge_cases (Z.to_nat i) (length (block_refcount_ a)))
    as [Hl|Hl].
  - rewrite Forall_forall in Hall. apply Hall. apply list_elem_of_In.
    apply nth_In. exact Hl.
  - rewrite nth_overflow by exact Hl. lia.
Qed.

(** The three outcomes of [freeBlock]. *)
Lemma freeBlock_shared (a : Allocator) (n : Z) :
  Forall (fun c => 0 <= c < 256) (block_refcount_ a) ->
  Allocator_isBlockAllocated a n = true ->
  1 < Allocator_getBlockRef a n ->
  Allocator_freeBlock a n
  = (OK, set_refcount a (absoluteToDataBlock a n)
                      (Allocator_getBlockRef a n - 1)).
Proof.
  intros Hbytes Halloc Hrc.
  destruct (getBlockRef_pos a n ltac:(lia)) as (Hl & He & Hv & Hsz & Hrc').
  apply isBlockAllocated_true in Halloc. destruct Halloc as (_ & _ & Hbit).
  pose proof (refcount_at_byte a (absoluteToDataBlock a n) Hbytes) as Hb.
  unfold Allocator_freeBlock. rewrite Hl, Hv, Hbit, He. simpl.
  destruct (Z.ltb_spec (absoluteToDataBlock a n) (refcount_size a)); [|lia].
  destruct (Z.ltb_spec 1 (refcount_at a (absoluteToDataBlock a n))); [|lia].
  unfold u8. rewrite Z.mod_small by lia. rewrite Hrc'. reflexivity.
Qed.

Lemma freeBlock_last (a : Allocator) (n : Z) :
  Allocator_isBlockAllocated a n = true ->
  refcount_enabled_ a = true ->
  absoluteToDataBlock a n < refcount_size a ->
  refcount_at a (absoluteToDataBlock a n) <= 1 ->
  Allocator_freeBlock a n
  = (OK,
     updateBlockStats_dec
       (with_block_bitmap
          (set_refcount a (absoluteToDataBlock a n) 0)
          (Bitmap_clear (block_bitmap_ a) (data_block_count (superblock_ a))
                        (absoluteToDataBlock a n)) true)).
Proof.
  intros Halloc He Hsz Hrc.
  apply isBlockAllocated_true in Halloc. destruct Halloc as (Hl & Hv & Hbit).
  unfold Allocator_freeBlock. rewrite Hl, Hv, Hbit, He. simpl.
  destruct (Z.ltb_spec (absoluteToDataBlock a n) (refcount_size a)); [|lia].
  destruct (Z.ltb_spec 1 (refcount_at a (absoluteToDataBlock a n))); [lia|].
  reflexivity.
Qed.

Lemma freeBlock_unallocated (a : Allocator) (n : Z) :
  Allocator_isBlockAllocated a n = false ->
  Allocator_freeBlock a n = (E_INVALID_PARAM, a).
Proof.
  intros Hfree. unfold Allocator_freeBlock.
  unfold Allocator_isBlockAllocated in Hfree.
  destruct (loaded_ a); simpl in *; [|reflexivity].
  destruct (isValidDataBlock a n); simpl in *; [|reflexivity].
  rewrite Hfree. reflexivity.
Qed.

(** Reading the count and the bit of [n] after its count was set. *)
Lemma getBlockRef_set_same (a : Allocator) (n v : Z) :
  0 < Allocator_getBlockRef a n ->
  Allocator_getBlockRef (set_refcount a (absoluteToDataBlock a n) v) n = v.
Proof.
  intros Hrc.
  destruct (getBlockRef_pos a n Hrc) as (Hl & He & Hv & Hsz & _).
  pose proof (absoluteToDataBlock_nonneg a n) as Hidx.
  unfold Allocator_getBlockRef. cbn [loaded_ refcount_enabled_ set_refcount
                                     with_block_refcount].
  rewrite Hl, He. cbn [negb orb].
  change (isValidDataBlock (set_refcount a ?i ?w) n)
    with (isValidDataBlock a n). rewrite Hv. cbn [negb].
  change (absoluteToDataBlock (set_refcount a ?i ?w) n)
    with (absoluteToDataBlock a n).
  rewrite refcount_size_set.
  destruct (Z.leb_spec (refcount_size a) (absoluteToDataBlock a n)); [lia|].
  apply refcount_at_set_same. lia.
Qed.



(** ** Snapshots: the bound on their number (C6) *)

Lemma findSnapshotIndex_fresh (l : list SnapshotInfo) (name : list ascii)
      (i : Z) :
  Forall (fun s => si_valid s = true -> si_name s <> name) l ->
  findSnapshotIndex_from l name i = -1.
Proof.
  intros H. revert i. induction H as [|s l Hs Hl IH]; intros i; simpl.
  - reflexivity.
  - unfold string_eqb. destruct (bool_decide_reflect (si_name s = name)) as [He|He].
    + destruct (si_valid s) eqn:Hv; simpl.
      * exfalso. apply Hs; [reflexivity|exact He].
      * apply IH.
    + simpl. apply IH.
Qed.

(** C6.  [createSnapshot] never takes the list above 15 snapshots; and when
    15 snapshots exist, a call on a loaded manager with a valid, fresh name
    returns [E_MAX_SNAPSHOTS] and changes neither the manager nor the
    allocator, whatever the clone, save and sync procedures do. *)
Theorem createSnapshot_max
        (cloneInodeTree : Allocator -> Z -> Result Z * Allocator)
        (saveSnapshotList :
           list SnapshotInfo -> Z -> Allocator -> ErrorCode * Z * Allocator)
        (Allocator_sync : Allocator -> ErrorCode * Allocator) (now : Z)
        (sm sm' : SnapshotManager) (a a' : Allocator) (name : list ascii)
        (err : ErrorCode) :
  SnapshotManager_createSnapshot cloneInodeTree saveSnapshotList
    Allocator_sync now sm a name = (err, sm', a') ->
  Z.of_nat (length (snapshots_ sm)) <= MAX_SNAPSHOTS ->
  Z.of_nat (length (snapshots_ sm')) <= MAX_SNAPSHOTS
  /\ (Z.of_nat (length (snapshots_ sm)) = MAX_SNAPSHOTS ->
      sm_loaded_ sm = true ->
      name <> [] -> Z.of_nat (length name) <= MAX_SNAPSHOT_NAME_LEN - 1 ->
      fresh_name sm name ->
      err = E_MAX_SNAPSHOTS /\ sm' = sm /\ a' = a).
Proof.
  unfold SnapshotManager_createSnapshot. intros Hrun Hlen.
  destruct (sm_loaded_ sm) eqn:Hl; simpl in Hrun.
  2:{ injection Hrun as <- <- <-. split; [exact Hlen|]. discriminate. }
  destruct (bool_decide_reflect (name = [])) as [Hn|Hn]; simpl in Hrun.
  { injection Hrun as <- <- <-. split; [exact Hlen|]. intros; contradiction. }
  destruct (Z.ltb_spec (MAX_SNAPSHOT_NAME_LEN - 1) (Z.of_nat (length name)));
    simpl in Hrun.
  { injection Hrun as <- <- <-. split; [exact Hlen|]. intros; lia. }
  destruct (Z.leb_spec 0 (findSnapshotIndex sm name)) as [Hf|Hf].
  { injection Hrun as <- <- <-. split; [exact Hlen|]. intros _ _ _ _ Hfr.
    unfold findSnapshotIndex in Hf.
    rewrite (findSnapshotIndex_fresh _ _ _ Hfr) in Hf. lia. }
  destruct (Z.leb_spec MAX_SNAPSHOTS (Z.of_nat (length (snapshots_ sm))))
    as [Hfull|Hroom].
  { injection Hrun as <- <- <-. split; [exact Hlen|]. intros.
    repeat split; reflexivity. }
  assert (Hgrow : Z.of_nat (length (snapshots_ sm ++
                     [mkSnapshotInfo name now 0 0 true])) <= MAX_SNAPSHOTS).
  { rewrite length_app. simpl. lia. }
  rewrite length_app in Hgrow.
  destruct (cloneInodeTree a (root_inode (superblock_ a))) as [[root|e] a1].
  2:{ injection Hrun as <- <- <-. split; [exact Hlen|]. intros; lia. }
  destruct (saveSnapshotList _ _ _) as [[e1 slb] a3].
  destruct e1; try (injection Hrun as <- <- <-; simpl;
                    rewrite length_app; split; [exact Hgrow|intros; lia]).
  destruct (Allocator_sync a3) as [e2 a4].
  destruct e2; injection Hrun as <- <- <-; simpl;
    rewrite length_app; (split; [exact Hgrow|intros; lia]).
Qed.

(** With the 15 snapshots of [ex_manager 15], creating [extra] is refused. *)
Lemma createSnapshot_max_witness :
  Z.of_nat (length (snapshots_ (ex_manager 15))) = MAX_SNAPSHOTS
  /\ fresh_name (ex_manager 15) (str "extra")
  /\ SnapshotManager_createSnapshot ex_clone ex_save ex_sync 0
       (ex_manager 15) ex_alloc (str "extra")
     = (E_MAX_SNAPSHOTS, ex_manager 15, ex_alloc).
Proof.
  assert (Hfresh : fresh_name (ex_manager 15) (str "extra")).
  { unfold fresh_name. simpl. repeat constructor; intros _; discriminate. }
  split; [reflexivity|]. split; [exact Hfresh|].
  destruct (SnapshotManager_createSnapshot ex_clone ex_save ex_sync 0
              (ex_manager 15) ex_alloc (str "extra"))
    as [[err sm'] a'] eqn:Hrun.
  destruct (createSnapshot_max _ _ _ _ _ _ _ _ _ _ Hrun
              ltac:(vm_compute; discriminate))
    as [_ H].
  destruct H as (-> & -> & ->);
    [reflexivity|reflexivity|discriminate|vm_compute; discriminate
    |exact Hfresh|].
  reflexivity.
Defined.

(** ** Writes with an empty buffer (C10) *)

(** C10.  For every file (a path that resolves) and every offset,
    [writeFile] with an empty buffer returns success with a count of 0 and
    leaves the whole state as it was, so the inode of the file reads back
    unchanged; [writeFileByInode] does so for every inode number. *)
Theorem writeFile_empty (now : Z) (snap : option SnapshotManager)
        (a : Allocator) (path : list ascii) (inode_id offset : Z) :
  Directory_resolvePath a path = success inode_id ->
  exists a',
    Directory_writeFile now snap a path [] offset = Some (success 0, a')
    /\ Directory_writeFileByInode now snap a inode_id [] offset
       = Some (success 0, a')
    /\ a' = a
    /\ Allocator_readInode a' inode_id = Allocator_readInode a inode_id.
Proof.
  intros Hres. exists a. unfold Directory_writeFile. rewrite Hres.
  repeat split; reflexivity.
Qed.

Lemma writeFile_empty_witness :
  Directory_resolvePath ex_alloc (str "/f") = success 1
  /\ Directory_writeFile 7 None ex_alloc (str "/f") [] 5000
     = Some (success 0, ex_alloc).
Proof.
  split; [reflexivity|].
  destruct (writeFile_empty 7 None ex_alloc (str "/f") 1 5000 eq_refl)
    as (a' & H & _ & -> & _).
  exact H.
Defined.

(** ** Directories are not files (C9) *)

(** The claim fails for an empty buffer: writing nothing to the root
    directory succeeds. *)
Lemma writeFile_directory_empty_succeeds :
  Directory_resolvePath ex_alloc (str "/") = success 0
  /\ (exists inode, Allocator_readInode ex_alloc 0 = success inode
                    /\ isDirectory inode = true)
  /\ Directory_writeFile 0 None ex_alloc (str "/") [] 0
     = Some (success 0, ex_alloc)
  /\ Directory_writeFile 0 None ex_alloc (str "/") [] 0
     <> Some (failure E_IS_DIR, ex_alloc).
Proof.
  split; [reflexivity|]. split; [exists ex_root; split; reflexivity|].
  split; [reflexivity|]. discriminate.
Qed.

(** C9, amended.  For every path that resolves to a directory inode,
    [readFile] fails with [E_IS_DIR], and so does [writeFile] with a
    non-empty buffer; neither changes the state.  For every regular file,
    [readFile] at an offset at or past the size succeeds with an empty
    vector. *)
Theorem directory_is_not_a_file (now : Z) (snap : option SnapshotManager)
        (a : Allocator) (path : list ascii) (inode_id : Z) (inode : Inode) :
  Directory_resolvePath a path = success inode_id ->
  Allocator_readInode a inode_id = success inode ->
  (isDirectory inode = true ->
   (forall offset len,
       Directory_readFile now a path offset len
       = Some (failure E_IS_DIR, a))
   /\ (forall data offset,
          data <> [] ->
          Directory_writeFile now snap a path data offset
          = Some (failure E_IS_DIR, a)))
  /\ (isRegularFile inode = true ->
      forall offset len,
        size inode <= offset ->
        Directory_readFile now a path offset len = Some (success [], a)).
Proof.
  intros Hres Hino. split.
  - intros Hdir.
    assert (Hreg : isRegularFile inode = false).
    { unfold isDirectory in Hdir. unfold isRegularFile.
      destruct (type inode); try discriminate; reflexivity. }
    split.
    + intros offset len. unfold Directory_readFile. rewrite Hres.
      unfold Directory_readFileByInode. rewrite Hino, Hreg. reflexivity.
    + intros data offset Hdata. unfold Directory_writeFile. rewrite Hres.
      unfold Directory_writeFileByInode.
      destruct data as [|c data]; [contradiction|].
      rewrite Hino, Hreg. reflexivity.
  - intros Hreg offset len Hoff. unfold Directory_readFile. rewrite Hres.
    unfold Directory_readFileByInode. rewrite Hino, Hreg. simpl.
    destruct (Z.leb_spec (size inode) offset); [reflexivity|lia].
Qed.

Lemma directory_is_not_a_file_witness :
  Directory_resolvePath ex_alloc (str "/") = success 0
  /\ Allocator_readInode ex_alloc 0 = success ex_root
  /\ isDirectory ex_root = true
  /\ Directory_readFile 3 ex_alloc (str "/") 0 10
     = Some (failure E_IS_DIR, ex_alloc)
  /\ Directory_writeFile 3 None ex_alloc (str "/") [65] 0
     = Some (failure E_IS_DIR, ex_alloc).
Proof.
  split; [reflexivity|]. split; [reflexivity|]. split; [reflexivity|].
  destruct (directory_is_not_a_file 3 None ex_alloc (str "/") 0 ex_root
              eq_refl eq_refl) as [H _].
  destruct (H eq_refl) as [Hr Hw]. split.
  - apply Hr.
  - apply Hw. discriminate.
Defined.

(** ** The maximum file size (C3) *)

(** The claim fails twice: (12 + 256 + 65536) * 1024 is 67,383,296 and not
    67,383,808; and a write of no bytes succeeds at any offset, also when
    the end offset is past the maximum. *)
Lemma maxFileSize_counterexample :
  maxFileSize = (12 + 256 + 65536) * 1024
  /\ maxFileSize <> 67383808
  /\ Directory_resolvePath ex_alloc (str "/f") = success 1
  /\ 67383808 < 67383809 + Z.of_nat (length (@nil Z))
  /\ Directory_writeFile 0 None ex_alloc (str "/f") [] 67383809
     = Some (success 0, ex_alloc).
Proof.
  split; [reflexivity|]. split; [discriminate|]. split; [reflexivity|].
  split; [reflexivity|]. reflexivity.
Qed.

Lemma getOrAllocFileBlock_too_large (snap : option SnapshotManager)
      (a : Allocator) (inode : Inode) (inode_id block_index : Z) :
  maxBlocks <= block_index ->
  Directory_getOrAllocFileBlock snap a inode inode_id block_index
  = (failure E_FILE_TOO_LARGE, inode, a).
Proof.
  unfold maxBlocks, Directory_getOrAllocFileBlock.
  change NUM_DIRECT_BLOCKS with 12. change PTRS_PER_BLOCK with 256.
  intros H.
  destruct (Z.ltb_spec block_index 12); [lia|].
  destruct (Z.ltb_spec (block_index - 12) 256); [lia|].
  destruct (Z.ltb_spec (block_index - 12 - 256) (256 * 256)); [lia|].
  reflexivity.
Qed.

(** C3, amended.  The maximum file size is (12 + 256 + 65536) * 1024 =
    67,383,296 bytes; and for every [writeFile] call on a regular file with
    a non-empty buffer of at most 2^32 - 67,383,296 bytes whose end offset
    (offset plus data length) exceeds that maximum, the call fails with
    [E_FILE_TOO_LARGE] and changes nothing. *)
Theorem writeFile_too_large (now : Z) (snap : option SnapshotManager)
        (a : Allocator) (path : list ascii) (inode_id : Z) (inode : Inode)
        (data : list Z) (offset : Z) :
  Directory_resolvePath a path = success inode_id ->
  Allocator_readInode a inode_id = success inode ->
  isRegularFile inode = true ->
  data <> [] ->
  0 <= offset < 4294967296 ->
  Z.of_nat (length data) <= 4294967296 - maxFileSize ->
  maxFileSize < offset + Z.of_nat (length data) ->
  maxFileSize = (12 + 256 + 65536) * 1024
  /\ maxFileSize = 67383296
  /\ Directory_writeFile now snap a path data offset
     = Some (failure E_FILE_TOO_LARGE, a).
Proof.
  intros Hres Hino Hreg Hdata Hoff Hlen Hend.
  split; [reflexivity|]. split; [reflexivity|].
  unfold Directory_writeFile. rewrite Hres.
  unfold Directory_writeFileByInode.
  destruct data as [|c data]; [contradiction|].
  rewrite Hino, Hreg. simpl negb. cbv iota.
  change maxFileSize with 67383296 in *.
  set (len := Z.of_nat (length (c :: data))) in *.
  assert (Hpos : 0 < len) by (subst len; simpl length; lia).
  assert (Hu : u32 len = len) by (unfold u32; apply Z.mod_small; lia).
  rewrite Hu.
  destruct (Z.ltb_spec 67383296 (u32 (offset + len))) as [|Hwrap];
    [reflexivity|].
  (* the sum wrapped around: the offset itself is past the last block *)
  assert (Hbig : 4294967296 <= offset + len).
  { destruct (Z.lt_ge_cases (offset + len) 4294967296) as [Hs|Hs];
      [|exact Hs].
    unfold u32 in Hwrap. rewrite Z.mod_small in Hwrap by lia. lia. }
  simpl length. cbn [write_loop]. fold len.
  destruct (Z.ltb_spec 0 len); [|lia].
  replace (u32 (offset + 0)) with offset
    by (unfold u32; rewrite Z.add_0_r, Z.mod_small by lia; reflexivity).
  rewrite getOrAllocFileBlock_too_large.
  - reflexivity.
  - change maxBlocks with 65804. change BLOCK_SIZE with 1024.
    apply Z.div_le_lower_bound; lia.
Qed.

Lemma writeFile_too_large_witness :
  Directory_resolvePath ex_alloc (str "/f") = success 1
  /\ Allocator_readInode ex_alloc 1 = success (Inode_init REGULAR)
  /\ maxFileSize < 67383290 + Z.of_nat (length [1; 2; 3; 4; 5; 6; 7])
  /\ Directory_writeFile 0 None ex_alloc (str "/f") [1; 2; 3; 4; 5; 6; 7]
                         67383290
     = Some (failure E_FILE_TOO_LARGE, ex_alloc).
Proof.
  split; [reflexivity|]. split; [reflexivity|]. split; [reflexivity|].
  apply (writeFile_too_large 0 None ex_alloc (str "/f") 1
           (Inode_init REGULAR) [1; 2; 3; 4; 5; 6; 7] 67383290);
    try reflexivity; try discriminate.
  split; [discriminate|reflexivity].
Defined.

(** ** Copy on write (C4) *)

Lemma u32_small (x : Z) : 0 <= x < 4294967296 -> u32 x = x.
Proof. intros H. unfold u32. apply Z.mod_small. exact H. Qed.

Lemma i32_small (x : Z) : x < 2147483648 -> i32 x = x.
Proof. intros H. unfold i32. destruct (Z.ltb_spec x 2147483648); lia. Qed.

(** A valid data block and its index in the bitmap. *)
Lemma isValidDataBlock_index (a : Allocator) (n : Z) :
  alloc_ready a -> isValidDataBlock a n = true ->
  absoluteToDataBlock a n = n - data_block_start (superblock_ a)
  /\ 0 <= n - data_block_start (superblock_ a)
     < data_block_count (superblock_ a)
  /\ n < total_blocks_ (disk_ a).
Proof.
  intros R. destruct R. unfold isValidDataBlock, absoluteToDataBlock.
  rewrite andb_true_iff, Z.leb_le, Z.ltb_lt.
  rewrite u32_small by lia. intros [H1 H2].
  rewrite u32_small by lia. lia.
Qed.

Lemma isValidDataBlock_of_index (a : Allocator) (j : Z) :
  alloc_ready a -> 0 <= j < data_block_count (superblock_ a) ->
  isValidDataBlock a (data_block_start (superblock_ a) + j) = true
  /\ absoluteToDataBlock a (data_block_start (superblock_ a) + j) = j.
Proof.
  intros R Hj. destruct R. unfold isValidDataBlock, absoluteToDataBlock.
  rewrite andb_true_iff, Z.leb_le, Z.ltb_lt.
  rewrite !u32_small by lia. lia.
Qed.

Lemma findFreeBlock_free (a : Allocator) :
  alloc_ready a -> has_free_block a ->
  0 <= findFreeBlock a < data_block_count (superblock_ a)
  /\ Bitmap_get (block_bitmap_ a) (data_block_count (superblock_ a))
                (findFreeBlock a) = false.
Proof.
  intros R [_ (j & Hj & Hfree)]. destruct R. unfold findFreeBlock.
  pose proof (findFirstFree_from_spec (block_bitmap_ a)
                (data_block_count (superblock_ a))
                (Z.to_nat (data_block_count (superblock_ a))) 0
                ltac:(lia)) as Hspec.
  fold (Bitmap_findFirstFree (block_bitmap_ a)
                             (data_block_count (superblock_ a))) in Hspec.
  simpl in Hspec. rewrite Z2Nat.id in Hspec by lia.
  destruct Hspec as [[_ Hall]|(Hr & Hb & _)].
  - rewrite Hall in Hfree by lia. discriminate.
  - split; [lia|exact Hb].
Qed.

Lemma allocBlock_success (a : Allocator) :
  alloc_ready a -> has_free_block a ->
  Allocator_allocBlock a
  = (success (data_block_start (superblock_ a) + findFreeBlock a),
     allocated_state a (findFreeBlock a)).
Proof.
  intros R Hfree. destruct (findFreeBlock_free a R Hfree) as [Hj Hbit].
  destruct Hfree as [Hcount _]. destruct R.
  unfold Allocator_allocBlock. rewrite ready_loaded0. simpl negb. cbv iota.
  destruct (Z.eqb_spec (free_blocks (superblock_ a)) 0); [contradiction|].
  cbv zeta.
  destruct (Z.ltb_spec (findFreeBlock a) 0); [lia|].
  rewrite (u32_small (findFreeBlock a)) by lia.
  unfold dataBlockToAbsolute. rewrite u32_small by lia.
  cbn [refcount_enabled_ with_block_bitmap].
  rewrite ready_enabled0.
  change (refcount_size (with_block_bitmap a ?bm ?d)) with (refcount_size a).
  rewrite ready_table0.
  destruct (Z.ltb_spec (findFreeBlock a) (data_block_count (superblock_ a)));
    [|lia].
  cbn [andb]. unfold Allocator_writeBlockInternal, DiskImage_writeBlock.
  cbn [disk_ set_refcount with_block_refcount with_block_bitmap].
  replace (negb (is_open_ (disk_ a))) with false
    by (rewrite ready_open0; reflexivity).
  unfold validateBlockNo.
  destruct (Z.ltb_spec (data_block_start (superblock_ a) + findFreeBlock a)
                       (total_blocks_ (disk_ a))); [|lia].
  cbn [negb]. reflexivity.
Qed.

Lemma readBlockInternal_ok (a : Allocator) (n : Z) :
  is_open_ (disk_ a) = true -> n < total_blocks_ (disk_ a) ->
  Allocator_readBlockInternal a n
  = success (default zero_block (file_ (disk_ a) !! n)).
Proof.
  intros Ho Hn. unfold Allocator_readBlockInternal, DiskImage_readBlock.
  rewrite Ho. unfold validateBlockNo.
  destruct (Z.ltb_spec n (total_blocks_ (disk_ a))); [reflexivity|lia].
Qed.

Lemma writeBlockInternal_ok (a : Allocator) (n : Z) (buf : Block) :
  is_open_ (disk_ a) = true -> n < total_blocks_ (disk_ a) ->
  Allocator_writeBlockInternal a n buf
  = (OK, with_disk a (mkDisk (is_open_ (disk_ a)) (total_blocks_ (disk_ a))
                             (<[n := buf]> (file_ (disk_ a))))).
Proof.
  intros Ho Hn. unfold Allocator_writeBlockInternal, DiskImage_writeBlock.
  replace (negb (is_open_ (disk_ a))) with false
    by (rewrite Ho; reflexivity).
  unfold validateBlockNo.
  destruct (Z.ltb_spec n (total_blocks_ (disk_ a))); [reflexivity|lia].
Qed.

(** [decBlockRef] on a block that stays shared or owned. *)
Lemma decBlockRef_shared (a : Allocator) (b : Z) :
  loaded_ a = true -> refcount_enabled_ a = true ->
  isValidDataBlock a b = true ->
  absoluteToDataBlock a b < refcount_size a ->
  1 < refcount_at a (absoluteToDataBlock a b) < 256 ->
  Allocator_decBlockRef a b
  = (success (refcount_at a (absoluteToDataBlock a b) - 1),
     set_refcount a (absoluteToDataBlock a b)
                  (refcount_at a (absoluteToDataBlock a b) - 1)).
Proof.
  intros Hl He Hv Hsz Hrc. unfold Allocator_decBlockRef.
  rewrite Hl, He, Hv. cbn [negb orb].
  destruct (Z.leb_spec (refcount_size a) (absoluteToDataBlock a b)); [lia|].
  destruct (Z.eqb_spec (refcount_at a (absoluteToDataBlock a b)) 0); [lia|].
  cbv zeta. unfold u8. rewrite Z.mod_small by lia.
  destruct (Z.eqb_spec (refcount_at a (absoluteToDataBlock a b) - 1) 0);
    [lia|]. reflexivity.
Qed.

(** The claim fails when no data block is free.  In the full image the
    allocated block 9 has two references and a snapshot exists, so
    [needsCOW] holds; [performCOW] returns the [E_NO_SPACE] of [allocBlock]
    and changes nothing: no block is handed out and block 9 keeps its two
    references. *)
Lemma performCOW_full_disk :
  alloc_ready ex_full_alloc
  /\ ~ has_free_block ex_full_alloc
  /\ Allocator_isBlockAllocated ex_full_alloc 9 = true
  /\ Allocator_getBlockRef ex_full_alloc 9 = 2
  /\ SnapshotManager_needsCOW (ex_manager 1) ex_full_alloc 9 = true
  /\ SnapshotManager_performCOW (ex_manager 1) ex_full_alloc 9
     = (failure E_NO_SPACE, ex_full_alloc)
  /\ forall nb a',
       SnapshotManager_performCOW (ex_manager 1) ex_full_alloc 9
       <> (success nb, a').
Proof.
  split.
  { constructor; try reflexivity; try (cbn; lia).
    cbn. repeat (constructor; [lia|]). constructor. }
  split; [intros [H _]; apply H; reflexivity|].
  split; [reflexivity|]. split; [reflexivity|]. split; [reflexivity|].
  split; [reflexivity|]. intros nb a'. discriminate.
Qed.

(** C4, amended.  [needsCOW b] holds exactly when a snapshot exists and the
    reference count of [b] exceeds 1.  When it holds for an allocated block
    [b] of a loaded allocator that still has a free block, [performCOW b]
    takes a block [nb] that was free, marks it allocated with count 1,
    copies the content of [b] into it, takes one reference from [b], and
    returns [nb]; [b] keeps its content and stays allocated. *)
Theorem cow_contract (sm : SnapshotManager) (a : Allocator) (b : Z) :
  (SnapshotManager_needsCOW sm a b = true
   <-> snapshots_ sm <> [] /\ 1 < Allocator_getBlockRef a b)
  /\ (alloc_ready a -> has_free_block a ->
      Allocator_isBlockAllocated a b = true ->
      SnapshotManager_needsCOW sm a b = true ->
      exists nb a' content,
        SnapshotManager_performCOW sm a b = (success nb, a')
        /\ nb <> b
        /\ Allocator_isBlockAllocated a nb = false
        /\ Allocator_isBlockAllocated a' nb = true
        /\ Allocator_getBlockRef a' nb = 1
        /\ Allocator_readBlockInternal a b = success content
        /\ Allocator_readBlockInternal a' nb = success content
        /\ Allocator_readBlockInternal a' b = success content
        /\ Allocator_getBlockRef a' b = Allocator_getBlockRef a b - 1
        /\ Allocator_isBlockAllocated a' b = true).
Proof.
  assert (Hneeds : SnapshotManager_needsCOW sm a b = true
                   <-> snapshots_ sm <> [] /\ 1 < Allocator_getBlockRef a b).
  { unfold SnapshotManager_needsCOW. destruct (snapshots_ sm) as [|s l].
    - split; [discriminate|]. intros [H _]. contradiction.
    - rewrite Z.ltb_lt. split; [intros H; split; [discriminate|exact H]|].
      intros [_ H]. exact H. }
  split; [exact Hneeds|].
  intros R Hfree Halloc Hcow0.
  pose proof Hcow0 as Hcow.
  apply Hneeds in Hcow. destruct Hcow as [_ Hrc].
  destruct (getBlockRef_pos a b ltac:(lia)) as (Hl & He & Hv & Hsz & Hrc').
  apply isBlockAllocated_true in Halloc. destruct Halloc as (_ & _ & Hbit).
  destruct (isValidDataBlock_index a b R Hv) as (Hidx & Hrange & Hdisk).
  destruct (findFreeBlock_free a R Hfree) as [Hj Hjbit].
  destruct (isValidDataBlock_of_index a (findFreeBlock a) R Hj)
    as [Hnv Hnidx].
  pose proof (allocBlock_success a R Hfree) as Halloc.
  pose proof (refcount_at_byte a (absoluteToDataBlock a b) (ready_bytes a R))
    as Hbyte.
  set (j := findFreeBlock a) in *.
  set (nb := data_block_start (superblock_ a) + j) in *.
  set (content := default zero_block (file_ (disk_ a) !! b)).
  assert (Hne : j <> absoluteToDataBlock a b).
  { intros Heq. rewrite <- Heq in Hbit. congruence. }
  assert (Hnb : nb <> b) by (subst nb; lia).
  destruct R.
  (* the three steps of the copy *)
  assert (Hread : Allocator_readBlockInternal (allocated_state a j) b
                  = success content).
  { rewrite readBlockInternal_ok; cbn; try assumption.
    rewrite lookup_insert_ne by exact Hnb. reflexivity. }
  pose proof (writeBlockInternal_ok (allocated_state a j) nb content) as Hwrite.
  cbn [allocated_state updateBlockStats_inc with_superblock with_disk disk_
       is_open_ total_blocks_ file_] in Hwrite.
  specialize (Hwrite ready_open0 ltac:(subst nb; lia)).
  set (a2 := with_disk _ _) in Hwrite.
  assert (Hat : refcount_at a2 (absoluteToDataBlock a b)
                = refcount_at a (absoluteToDataBlock a b)).
  { subst a2. cbn. apply nth_insert_other. intros Heq.
    apply Z2Nat.inj in Heq; lia. }
  pose proof (decBlockRef_shared a2 b) as Hdec.
  change (absoluteToDataBlock a2 b) with (absoluteToDataBlock a b) in Hdec.
  change (isValidDataBlock a2 b) with (isValidDataBlock a b) in Hdec.
  rewrite Hat in Hdec.
  specialize (Hdec Hl He Hv).
  assert (Hsz2 : absoluteToDataBlock a b < refcount_size a2).
  { subst a2. unfold refcount_size in *. cbn. rewrite length_insert.
    exact Hsz. }
  specialize (Hdec Hsz2 ltac:(lia)).
  exists nb, (set_refcount a2 (absoluteToDataBlock a b)
                (refcount_at a (absoluteToDataBlock a b) - 1)), content.
  split.
  { unfold SnapshotManager_performCOW.
    rewrite Hcow0. cbn [negb]. rewrite Halloc. fold nb. rewrite Hread.
    cbv iota beta. cbv beta in Hwrite. 
    rewrite Hwrite. rewrite Hdec. reflexivity. }
  split; [exact Hnb|].
  split.
  { unfold Allocator_isBlockAllocated. rewrite Hl. subst nb. rewrite Hnv.
    cbn [negb orb]. rewrite Hnidx. exact Hjbit. }
  split.
  { unfold Allocator_isBlockAllocated. cbn. rewrite Hl. cbn [negb orb].
    change (isValidDataBlock ?x nb) with (isValidDataBlock a nb).
    subst nb. rewrite Hnv. cbn [negb].
    change (absoluteToDataBlock ?x (data_block_start (superblock_ a) + j))
      with (absoluteToDataBlock a (data_block_start (superblock_ a) + j)).
    rewrite Hnidx. apply Bitmap_get_set_same; [lia|].
    assert (j / 8 < Z.of_nat (length (block_bitmap_ a))).
    { apply Z.div_lt_upper_bound; lia. }
    assert (0 <= j / 8) by (apply Z.div_pos; lia). lia. }
  split.
  { unfold Allocator_getBlockRef. cbn. rewrite Hl, He. cbn [negb orb].
    change (isValidDataBlock ?x nb) with (isValidDataBlock a nb).
    subst nb. rewrite Hnv. cbn [negb].
    change (absoluteToDataBlock ?x (data_block_start (superblock_ a) + j))
      with (absoluteToDataBlock a (data_block_start (superblock_ a) + j)).
    rewrite Hnidx. unfold refcount_size, refcount_at in *. cbn.
    rewrite !length_insert.
    destruct (Z.leb_spec (Z.of_nat (length (block_refcount_ a))) j); [lia|].
    rewrite nth_insert_other
      by (intros Heq; apply Z2Nat.inj in Heq; lia).
    apply nth_insert_same. lia. }
  split.
  { rewrite readBlockInternal_ok by (try assumption; lia). reflexivity. }
  split.
  { rewrite readBlockInternal_ok; cbn; try assumption; [|subst nb; lia].
    rewrite lookup_insert_eq. reflexivity. }
  split.
  { rewrite readBlockInternal_ok; cbn; try assumption.
    rewrite !lookup_insert_ne by exact Hnb. reflexivity. }
  split.
  { unfold Allocator_getBlockRef at 1. cbn. rewrite Hl, He. cbn [negb orb].
    change (isValidDataBlock ?x b) with (isValidDataBlock a b). rewrite Hv.
    cbn [negb].
    change (absoluteToDataBlock ?x b) with (absoluteToDataBlock a b).
    unfold refcount_size, refcount_at in *. cbn.
    rewrite !length_insert.
    destruct (Z.leb_spec (Z.of_nat (length (block_refcount_ a)))
                         (absoluteToDataBlock a b)); [lia|].
    rewrite nth_insert_same by (rewrite length_insert; lia). lia. }
  unfold Allocator_isBlockAllocated. cbn. rewrite Hl. cbn [negb orb].
  change (isValidDataBlock ?x b) with (isValidDataBlock a b). rewrite Hv.
  cbn [negb].
  change (absoluteToDataBlock ?x b) with (absoluteToDataBlock a b).
  rewrite Bitmap_get_set_other by lia. exact Hbit.
Qed.

Lemma ex_cow_alloc_ready : alloc_ready ex_cow_alloc.
Proof.
  constructor; try reflexivity; try (cbn; lia).
  cbn. repeat (constructor; [lia|]). constructor.
Defined.

Lemma ex_cow_alloc_free : has_free_block ex_cow_alloc.
Proof.
  split; [discriminate|]. exists 2. split; [cbn; lia|reflexivity].
Defined.

(** In the example, the shared block 9 is copied into block 10. *)
Lemma cow_contract_witness :
  alloc_ready ex_cow_alloc /\ has_free_block ex_cow_alloc
  /\ Allocator_isBlockAllocated ex_cow_alloc 9 = true
  /\ SnapshotManager_needsCOW (ex_manager 1) ex_cow_alloc 9 = true
  /\ exists a',
      SnapshotManager_performCOW (ex_manager 1) ex_cow_alloc 9
      = (success 10, a')
      /\ Allocator_getBlockRef a' 9 = 1
      /\ Allocator_readBlockInternal a' 10
         = Allocator_readBlockInternal ex_cow_alloc 9.
Proof.
  split; [exact ex_cow_alloc_ready|]. split; [exact ex_cow_alloc_free|].
  split; [reflexivity|]. split; [reflexivity|].
  destruct (cow_contract (ex_manager 1) ex_cow_alloc 9) as [_ H].
  destruct (H ex_cow_alloc_ready ex_cow_alloc_free eq_refl eq_refl)
    as (nb & a' & content & Hrun & _ & _ & _ & _ & Hb & Hnb & _ & Hrc & _).
  assert (Hten : nb = 10).
  { assert (Hfst : fst (SnapshotManager_performCOW (ex_manager 1)
                          ex_cow_alloc 9) = success 10)
      by (vm_compute; reflexivity).
    rewrite Hrun in Hfst. simpl in Hfst. congruence. }
  subst nb. exists a'. split; [exact Hrun|]. split.
  - rewrite Hrc. reflexivity.
  - rewrite Hnb, Hb. reflexivity.
Defined.

(** ** The cached disk: flush (C7) *)

(** The claim fails when a clean entry is stale.  [writeBlock] skips the
    cache while the cache is disabled, so after the run [ex_stale_run] the
    flush succeeds and the cache still holds the old content of block 5,
    which a read through the cache then returns. *)
Lemma flush_leaves_stale_entry :
  fst ex_stale_run = OK
  /\ ~ flushed (snd ex_stale_run)
  /\ DiskImage_readBlock (cd_disk_ (snd ex_stale_run)) 5 = success ex_sevens
  /\ fst (CachedDisk_readBlock (snd ex_stale_run) 5) = success zero_block.
Proof.
  split; [reflexivity|]. split; [|split; reflexivity].
  intros [_ H].
  specialize (H (mkCacheBlock 5 zero_block false)).
  assert (Hin : In (mkCacheBlock 5 zero_block false)
                   (lru_list_ (cache_ (snd ex_stale_run))))
    by (left; reflexivity).
  specialize (H Hin). unfold on_disk in H. vm_compute in H. discriminate H.
Qed.

Lemma mem_In (n : Z) (l : list Z) : mem n l = true <-> In n l.
Proof.
  unfold mem. rewrite existsb_exists. split.
  - intros (x & Hx & He). apply Z.eqb_eq in He. subst x. exact Hx.
  - intros H. exists n. split; [exact H|apply Z.eqb_refl].
Qed.

Lemma mem_not_In (n : Z) (l : list Z) : mem n l = false <-> ~ In n l.
Proof.
  rewrite <- mem_In. destruct (mem n l); split; try discriminate; auto.
  intros H. exfalso. apply H. reflexivity.
Qed.

Lemma DiskImage_writeBlock_OK (d d' : DiskImage) (n : Z) (buf : Block) :
  DiskImage_writeBlock d n buf = (OK, d') ->
  is_open_ d = true /\ n < total_blocks_ d
  /\ d' = mkDisk (is_open_ d) (total_blocks_ d) (<[n := buf]> (file_ d)).
Proof.
  unfold DiskImage_writeBlock, validateBlockNo.
  destruct (is_open_ d); simpl; [|discriminate].
  destruct (Z.ltb_spec n (total_blocks_ d)); simpl; [|discriminate].
  intros [= <-]. repeat split. assumption.
Qed.

(** The loop of [flush]: every block of the list is on disk afterwards,
    every other block of the disk is untouched, and the entries of the
    blocks written are clean. *)
Lemma flush_blocks_spec (dl : list (Z * Block)) :
  forall (d d' : DiskImage) (c c' : LRUCache),
    flush_blocks dl d c = (OK, d', c') ->
    is_open_ d' = is_open_ d /\ total_blocks_ d' = total_blocks_ d
    /\ (forall n, ~ In n (map fst dl) -> file_ d' !! n = file_ d !! n)
    /\ (List.NoDup (map fst dl) ->
        forall n data, In (n, data) dl ->
                       DiskImage_readBlock d' n = success data)
    /\ lru_list_ c'
       = map (fun b => if mem (cb_block_no b) (map fst dl)
                       then clear_entry b else b)
             (lru_list_ c).
Proof.
  induction dl as [|[n data] dl IH]; intros d d' c c' Hrun; simpl in Hrun.
  - injection Hrun as <- <-. repeat split; try reflexivity.
    + intros _ n data [].
    + simpl. rewrite <- (map_id (lru_list_ c)) at 1. apply map_ext.
      intros b. reflexivity.
  - destruct (DiskImage_writeBlock d n data) as [err d1] eqn:Hw.
    destruct err; try discriminate.
    apply DiskImage_writeBlock_OK in Hw. destruct Hw as (Ho & Hn & ->).
    apply IH in Hrun. clear IH.
    destruct Hrun as (Ho' & Ht' & Hother & Hwritten & Hlist).
    simpl in Ho', Ht', Hother. repeat split.
    + exact Ho'.
    + exact Ht'.
    + intros m Hm. simpl in Hm. rewrite Hother by tauto.
      apply lookup_insert_ne. tauto.
    + intros Hnd m mdata Hin. simpl in Hnd. apply NoDup_cons_iff in Hnd.
      destruct Hnd as [Hfresh Hnd]. destruct Hin as [[= <- <-]|Hin].
      * unfold DiskImage_readBlock, validateBlockNo.
        rewrite Ho', Ho, Ht'. simpl.
        destruct (Z.ltb_spec n (total_blocks_ d)); [|lia]. simpl.
        rewrite Hother by exact Hfresh. rewrite lookup_insert_eq. reflexivity.
      * apply Hwritten; assumption.
    + rewrite Hlist. unfold LRUCache_clearDirty. simpl. rewrite map_map.
      apply map_ext. intros b. fold (clear_entry b).
      unfold mem. simpl.
      destruct (Z.eqb_spec (cb_block_no b) n) as [He|He]; simpl.
      * destruct (existsb _ _); reflexivity.
      * reflexivity.
Qed.

Lemma NoDup_map_filter {A B} (f : A -> B) (p : A -> bool) (l : list A) :
  List.NoDup (map f l) -> List.NoDup (map f (List.filter p l)).
Proof.
  induction l as [|x l IH]; simpl; intros H; [constructor|].
  apply NoDup_cons_iff in H. destruct H as [Hx Hl].
  destruct (p x); simpl; [|apply IH; exact Hl].
  constructor; [|apply IH; exact Hl].
  intros Hin. apply Hx. apply in_map_iff in Hin.
  destruct Hin as (y & Hy & Hin). apply filter_In in Hin.
  apply in_map_iff. exists y. tauto.
Qed.

Lemma dirty_numbers (c : LRUCache) :
  map fst (LRUCache_getDirtyBlocks c)
  = map cb_block_no (List.filter cb_dirty (lru_list_ c)).
Proof.
  unfold LRUCache_getDirtyBlocks. rewrite map_map. reflexivity.
Qed.

(** In a well-formed cache a block number names one entry. *)
Lemma cache_wf_same_entry (c : LRUCache) (b1 b2 : CacheBlock) :
  cache_wf c -> In b1 (lru_list_ c) -> In b2 (lru_list_ c) ->
  cb_block_no b1 = cb_block_no b2 -> b1 = b2.
Proof.
  unfold cache_wf. induction (lru_list_ c) as [|x l IH]; simpl;
    intros Hnd H1 H2 He; [contradiction|].
  apply NoDup_cons_iff in Hnd. destruct Hnd as [Hx Hl].
  destruct H1 as [<-|H1], H2 as [<-|H2].
  - reflexivity.
  - exfalso. apply Hx. rewrite He. apply in_map. exact H2.
  - exfalso. apply Hx. rewrite <- He. apply in_map. exact H1.
  - apply IH; assumption.
Qed.

(** C7, amended.  After every successful flush of a cached disk whose cache
    has one entry per block number, no cached entry is marked dirty, the
    cache holds the blocks and contents it held before, and the on-disk
    content equals the cached content for every cached block that was dirty
    before the flush or already equal to the disk; so if every clean entry
    matched the disk before the flush, every cached block matches it
    afterwards. *)
Theorem flush_writes_back (cd cd' : CachedDisk) :
  cache_wf (cache_ cd) ->
  CachedDisk_flush cd = (OK, cd') ->
  (forall b, In b (lru_list_ (cache_ cd')) -> cb_dirty b = false)
  /\ lru_list_ (cache_ cd') = map clear_entry (lru_list_ (cache_ cd))
  /\ (forall b, In b (lru_list_ (cache_ cd)) ->
                cb_dirty b = true \/ on_disk (cd_disk_ cd) b ->
                on_disk (cd_disk_ cd') (clear_entry b))
  /\ ((forall b, In b (lru_list_ (cache_ cd)) -> cb_dirty b = false ->
                 on_disk (cd_disk_ cd) b) ->
      flushed cd').
Proof.
  intros Hwf Hrun. unfold CachedDisk_flush in Hrun.
  destruct (flush_blocks _ _ _) as [[err d1] c1] eqn:Hloop.
  destruct err; try discriminate.
  injection Hrun as _ <-. simpl.
  apply flush_blocks_spec in Hloop.
  destruct Hloop as (Ho & Ht & Hother & Hwritten & Hlist).
  rewrite dirty_numbers in Hother, Hwritten, Hlist.
  specialize (Hwritten (NoDup_map_filter _ _ _ Hwf)).
  (* a dirty entry is in the list written back, a clean one is not *)
  assert (Hdirty : forall b, In b (lru_list_ (cache_ cd)) ->
            cb_dirty b = true ->
            In (cb_block_no b)
               (map cb_block_no (List.filter cb_dirty (lru_list_ (cache_ cd))))).
  { intros b Hb Hd. apply in_map. apply filter_In. tauto. }
  assert (Hclean : forall b, In b (lru_list_ (cache_ cd)) ->
            cb_dirty b = false ->
            ~ In (cb_block_no b)
                 (map cb_block_no
                      (List.filter cb_dirty (lru_list_ (cache_ cd))))).
  { intros b Hb Hd Hin. apply in_map_iff in Hin.
    destruct Hin as (b2 & He & Hin). apply filter_In in Hin.
    destruct Hin as [Hin Hd2].
    rewrite (cache_wf_same_entry _ b2 b Hwf Hin Hb He) in Hd2. congruence. }
  assert (Hsame : lru_list_ c1 = map clear_entry (lru_list_ (cache_ cd))).
  { rewrite Hlist. apply map_ext_in. intros b Hb.
    destruct (mem _ _) eqn:Hm; [reflexivity|].
    destruct (cb_dirty b) eqn:Hd.
    - apply mem_not_In in Hm. exfalso. apply Hm. apply Hdirty; assumption.
    - destruct b. simpl in Hd. subst. reflexivity. }
  assert (Hdisk : forall b, In b (lru_list_ (cache_ cd)) ->
            cb_dirty b = true \/ on_disk (cd_disk_ cd) b ->
            on_disk d1 (clear_entry b)).
  { intros b Hb Hcase. unfold on_disk. simpl.
    destruct (cb_dirty b) eqn:Hd.
    - apply Hwritten. unfold LRUCache_getDirtyBlocks.
      apply in_map_iff. exists b. split; [reflexivity|].
      apply filter_In. tauto.
    - destruct Hcase as [|Hcase]; [discriminate|].
      unfold on_disk, DiskImage_readBlock, validateBlockNo in *.
      rewrite Ho, Ht, (Hother _ (Hclean b Hb Hd)). exact Hcase. }
  split; [|split; [exact Hsame|split; [exact Hdisk|]]].
  - rewrite Hsame. intros b Hb. apply in_map_iff in Hb.
    destruct Hb as (b0 & <- & _). reflexivity.
  - intros Hcoherent. split; simpl; rewrite Hsame; intros b Hb;
      apply in_map_iff in Hb; destruct Hb as (b0 & <- & Hb0).
    + reflexivity.
    + apply Hdisk; [exact Hb0|].
      destruct (cb_dirty b0) eqn:Hd; [left; reflexivity|].
      right. apply Hcoherent; assumption.
Qed.

Lemma flush_writes_back_witness :
  cache_wf (cache_ ex_dirty_disk)
  /\ CachedDisk_flush ex_dirty_disk
     = (OK, snd (CachedDisk_flush ex_dirty_disk))
  /\ flushed (snd (CachedDisk_flush ex_dirty_disk))
  /\ DiskImage_readBlock (cd_disk_ (snd (CachedDisk_flush ex_dirty_disk))) 3
     = success ex_sevens.
Proof.
  assert (Hwf : cache_wf (cache_ ex_dirty_disk)).
  { unfold cache_wf. simpl. constructor; [intros []|constructor]. }
  assert (Hrun : CachedDisk_flush ex_dirty_disk
                 = (OK, snd (CachedDisk_flush ex_dirty_disk)))
    by reflexivity.
  split; [exact Hwf|]. split; [exact Hrun|].
  destruct (flush_writes_back _ _ Hwf Hrun) as (_ & _ & _ & H).
  split; [|reflexivity].
  apply H. intros b [<-|[]]. discriminate.
Defined.

(** The well-formedness of the cache is kept by its operations. *)
Lemma cache_remove_wf (l : list CacheBlock) (n : Z) :
  List.NoDup (map cb_block_no l) ->
  List.NoDup (map cb_block_no (cache_remove l n))
  /\ ~ In n (map cb_block_no (cache_remove l n)).
Proof.
  intros H. split; [apply NoDup_map_filter; exact H|].
  intros Hin. apply in_map_iff in Hin. destruct Hin as (b & He & Hin).
  apply filter_In in Hin. destruct Hin as [_ Hne].
  rewrite He, Z.eqb_refl in Hne. discriminate.
Qed.

Lemma moveToFront_wf (c : LRUCache) (b : CacheBlock) :
  cache_wf c -> cache_wf (moveToFront c b).
Proof.
  unfold cache_wf, moveToFront. simpl. intros H.
  destruct (cache_remove_wf (lru_list_ c) (cb_block_no b) H).
  constructor; assumption.
Qed.

Lemma NoDup_removelast {A} (l : list A) :
  List.NoDup l -> List.NoDup (removelast l).
Proof.
  induction l as [|x l IH]; intros H; [exact H|].
  apply NoDup_cons_iff in H. destruct H as [Hx Hl]. simpl.
  destruct l as [|y l]; [constructor|].
  constructor; [|apply IH; exact Hl].
  intros Hin. apply Hx. clear -Hin. revert y Hin.
  induction l as [|z l IHl]; intros y Hin; simpl in Hin; [contradiction|].
  destruct Hin as [<-|Hin]; [left; reflexivity|right; apply IHl; exact Hin].
Qed.

Lemma removelast_map {A B} (f : A -> B) (l : list A) :
  map f (removelast l) = removelast (map f l).
Proof.
  induction l as [|x l IH]; [reflexivity|]. simpl.
  destruct l; [reflexivity|]. simpl in *. rewrite IH. reflexivity.
Qed.

Lemma evict_while_full_wf (n : nat) (c : LRUCache) :
  cache_wf c -> cache_wf (evict_while_full n c).
Proof.
  revert c. induction n as [|n IH]; intros c H; simpl; [exact H|].
  destruct (capacity_ c <=? Z.of_nat (length (lru_list_ c))); [|exact H].
  apply IH. unfold cache_wf, evictLRU in *. simpl.
  rewrite removelast_map. apply NoDup_removelast. exact H.
Qed.

Lemma In_removelast {A} (x : A) (l : list A) :
  In x (removelast l) -> In x l.
Proof.
  induction l as [|y l IH]; [intros []|]. simpl.
  destruct l as [|z l]; [intros []|]. intros [<-|H]; [left; reflexivity|].
  right. apply IH. exact H.
Qed.

Lemma evict_while_full_In (n : nat) (c : LRUCache) (b : CacheBlock) :
  In b (lru_list_ (evict_while_full n c)) -> In b (lru_list_ c).
Proof.
  revert c. induction n as [|n IH]; intros c; simpl; [tauto|].
  destruct (capacity_ c <=? Z.of_nat (length (lru_list_ c))); [|tauto].
  intros H. apply IH in H. simpl in H. apply In_removelast. exact H.
Qed.

Lemma cache_find_None (c : LRUCache) (n : Z) :
  cache_find c n = None -> ~ In n (map cb_block_no (lru_list_ c)).
Proof.
  unfold cache_find. intros H Hin. apply in_map_iff in Hin.
  destruct Hin as (b & He & Hin).
  apply (find_none _ _ H) in Hin. rewrite He, Z.eqb_refl in Hin.
  discriminate.
Qed.

Lemma LRUCache_put_wf (c : LRUCache) (n : Z) (data : Block) (dirty : bool) :
  cache_wf c -> cache_wf (LRUCache_put c n data dirty).
Proof.
  intros H. unfold LRUCache_put.
  destruct (cache_find c n) as [b|] eqn:Hf.
  - apply moveToFront_wf. exact H.
  - unfold cache_wf. simpl. constructor.
    + intros Hin. apply (cache_find_None c n Hf).
      apply in_map_iff in Hin. destruct Hin as (b & He & Hin).
      apply in_map_iff. exists b. split; [exact He|].
      eapply evict_while_full_In. exact Hin.
    + apply evict_while_full_wf. exact H.
Qed.

Lemma LRUCache_get_wf (c : LRUCache) (n : Z) :
  cache_wf c -> cache_wf (snd (LRUCache_get c n)).
Proof.
  intros H. unfold LRUCache_get. destruct (cache_find c n); simpl;
    [apply moveToFront_wf|]; exact H.
Qed.

Lemma LRUCache_clearDirty_wf (c : LRUCache) (n : Z) :
  cache_wf c -> cache_wf (LRUCache_clearDirty c n).
Proof.
  unfold cache_wf, LRUCache_clearDirty. simpl. rewrite map_map.
  intros H. erewrite map_ext; [exact H|]. intros b. simpl.
  destruct (cb_block_no b =? n); reflexivity.
Qed.

Lemma CachedDisk_readBlock_wf (cd : CachedDisk) (n : Z) :
  cache_wf (cache_ cd) -> cache_wf (cache_ (snd (CachedDisk_readBlock cd n))).
Proof.
  intros H. unfold CachedDisk_readBlock.
  destruct (cache_enabled_ cd) eqn:He.
  - pose proof (LRUCache_get_wf (cache_ cd) n H) as Hg.
    destruct (LRUCache_get (cache_ cd) n) as [[data|] c1]; simpl in *;
      [exact Hg|].
    destruct (DiskImage_readBlock (cd_disk_ cd) n); simpl;
      [apply LRUCache_put_wf|]; exact Hg.
  - destruct (DiskImage_readBlock (cd_disk_ cd) n); simpl; exact H.
Qed.

Lemma CachedDisk_writeBlock_wf (cd : CachedDisk) (n : Z) (buf : Block)
      (wt : bool) :
  cache_wf (cache_ cd) ->
  cache_wf (cache_ (snd (CachedDisk_writeBlock cd n buf wt))).
Proof.
  intros H. unfold CachedDisk_writeBlock.
  assert (Hput : cache_wf (if cache_enabled_ cd
                           then LRUCache_put (cache_ cd) n buf
                                             (negb (wt || write_through_ cd))
                           else cache_ cd)).
  { destruct (cache_enabled_ cd); [apply LRUCache_put_wf|]; exact H. }
  destruct (wt || write_through_ cd || negb (cache_enabled_ cd)); simpl;
    [|exact Hput].
  destruct (DiskImage_writeBlock (cd_disk_ cd) n buf) as [err d1].
  destruct err; simpl; try exact Hput.
  destruct (cache_enabled_ cd); [apply LRUCache_clearDirty_wf|]; exact Hput.
Qed.

(** ** Paths (C8) *)

(** The claim fails on its first part: nothing returns an error for an
    empty or a relative path.  [normalizePath] turns the empty path into
    the root path and puts a ['/'] before a relative one, and [resolvePath]
    resolves the result; only the predicate [isValidPath] tells them
    apart. *)
Lemma resolvePath_accepts_relative :
  normalizePath (str "") = str "/"
  /\ normalizePath (str "f") = str "/f"
  /\ Directory_resolvePath ex_alloc (str "") = success ROOT_INODE
  /\ Directory_resolvePath ex_alloc (str "f") = success 1.
Proof. repeat split; reflexivity. Qed.

Lemma string_eqb_eq (s t : list ascii) : string_eqb s t = true <-> s = t.
Proof. unfold string_eqb. apply bool_decide_eq_true. Qed.

Lemma string_eqb_neq (s t : list ascii) : string_eqb s t = false <-> s <> t.
Proof. unfold string_eqb. apply bool_decide_eq_false. Qed.

Lemma is_slash_true (c : ascii) : is_slash c = true <-> c = slash.
Proof. unfold is_slash. apply Ascii.eqb_eq. Qed.

(** *** The trailing slashes *)

Lemma pop_back_slashes_spec (r : list ascii) :
  r <> [] ->
  exists k,
    r = repeat slash k ++ pop_back_slashes r
    /\ ((exists c, pop_back_slashes r = [c])
        \/ (exists c t, pop_back_slashes r = c :: t /\ is_slash c = false)).
Proof.
  induction r as [|c r IH]; intros Hne; [contradiction|].
  destruct r as [|d r].
  - exists 0%nat. split; [reflexivity|]. left. exists c. reflexivity.
  - simpl. destruct (is_slash c) eqn:Hc.
    + destruct (IH ltac:(discriminate)) as (k & Hk & Hcase).
      exists (S k). split; [|exact Hcase].
      apply is_slash_true in Hc. subst c. simpl. f_equal. exact Hk.
    + exists 0%nat. split; [reflexivity|]. right. exists c, (d :: r).
      split; [reflexivity|exact Hc].
Qed.

(** *** The repeated slashes *)

Lemma collapse_slashes_head (s : list ascii) (b : bool) :
  match collapse_slashes s b with
  | c :: _ => b = true -> is_slash c = false
  | [] => True
  end.
Proof.
  revert b. induction s as [|c s IH]; intros b; simpl; [exact I|].
  destruct (is_slash c) eqn:Hc.
  - destruct b; [apply IH|discriminate].
  - intros _. exact Hc.
Qed.

Lemma collapse_slashes_no_double (s : list ascii) (b : bool) :
  no_double_slash (collapse_slashes s b).
Proof.
  revert b. induction s as [|c s IH]; intros b; simpl; [exact I|].
  assert (Hcons : forall b', (is_slash c = true -> b' = true) ->
            no_double_slash (c :: collapse_slashes s b')).
  { intros b' Hb'. pose proof (IH b') as Hnd.
    pose proof (collapse_slashes_head s b') as Hhd.
    destruct (collapse_slashes s b') as [|d t]; [exact I|].
    split; [|exact Hnd].
    destruct (is_slash c) eqn:Hc; [|reflexivity].
    simpl. apply Hhd. apply Hb'. reflexivity. }
  destruct (is_slash c) eqn:Hc.
  - destruct b; [apply IH|]. apply Hcons. reflexivity.
  - apply Hcons. discriminate.
Qed.

Lemma collapse_slashes_app_plain (s : list ascii) (c : ascii) (b : bool) :
  is_slash c = false ->
  collapse_slashes (s ++ [c]) b = collapse_slashes s b ++ [c].
Proof.
  intros Hc. revert b. induction s as [|d s IH]; intros b; simpl.
  - rewrite Hc. reflexivity.
  - destruct (is_slash d); [destruct b|]; rewrite IH; reflexivity.
Qed.

(** *** The components are kept *)

Lemma nonempty_rev (cur : list ascii) : nonempty (rev cur) = nonempty cur.
Proof.
  destruct cur as [|c cur]; [reflexivity|]. unfold nonempty.
  rewrite !(proj2 (string_eqb_neq _ _)); [reflexivity|discriminate|].
  simpl. intros H. apply app_eq_nil in H. destruct H as [_ H]. discriminate.
Qed.

Lemma tokens_end (cur : list ascii) :
  List.filter nonempty (getline_tokens [] cur)
  = List.filter nonempty [rev cur].
Proof. destruct cur; reflexivity. Qed.

Lemma tokens_collapse (s : list ascii) :
  List.filter nonempty (getline_tokens (collapse_slashes s true) [])
  = List.filter nonempty (getline_tokens s [])
  /\ forall cur,
      List.filter nonempty (getline_tokens (collapse_slashes s false) cur)
      = List.filter nonempty (getline_tokens s cur).
Proof.
  induction s as [|c s [IH1 IH2]]; [split; reflexivity|].
  simpl. destruct (is_slash c) eqn:Hc.
  - split.
    + simpl. exact IH1.
    + intros cur. simpl. rewrite Hc. simpl. rewrite IH1. reflexivity.
  - split; [|intros cur]; simpl; rewrite Hc; apply IH2.
Qed.

(** Splitting a string at one of its slashes splits its components. *)
Lemma tokens_app_slash (s t cur : list ascii) :
  List.filter nonempty (getline_tokens (s ++ slash :: t) cur)
  = List.filter nonempty (getline_tokens s cur)
    ++ List.filter nonempty (getline_tokens t []).
Proof.
  revert cur. induction s as [|c s IH]; intros cur.
  - rewrite tokens_end. simpl.
    destruct (nonempty (rev cur)); reflexivity.
  - simpl. destruct (is_slash c).
    + simpl. rewrite IH. destruct (nonempty (rev cur)); reflexivity.
    + apply IH.
Qed.

Lemma components_app_slash (s t : list ascii) :
  components (s ++ slash :: t) = components s ++ components t.
Proof. apply tokens_app_slash. Qed.

Lemma components_slashes (s : list ascii) (k : nat) :
  components (s ++ repeat slash k) = components s.
Proof.
  induction k as [|k IH]; [rewrite app_nil_r; reflexivity|].
  change (repeat slash (S k)) with (slash :: repeat slash k).
  rewrite repeat_cons, app_assoc.
  replace ((s ++ repeat slash k) ++ [slash])
    with ((s ++ repeat slash k) ++ slash :: []) by reflexivity.
  rewrite components_app_slash, IH. apply app_nil_r.
Qed.

Lemma components_cons_slash (s : list ascii) :
  components (slash :: s) = components s.
Proof. reflexivity. Qed.

Lemma rev_repeat {A} (x : A) (k : nat) : rev (repeat x k) = repeat x k.
Proof.
  induction k as [|k IH]; [reflexivity|].
  simpl. rewrite IH. symmetry. apply repeat_cons.
Qed.

(** What [normalizePath] makes of a string that starts with ['/']. *)
Lemma normalize_absolute (t : list ascii) :
  let r := collapse_slashes
             (rev (pop_back_slashes (rev (slash :: t)))) false in
  normalized r /\ components r = components t.
Proof.
  destruct (pop_back_slashes_spec (rev (slash :: t))) as (k & Hk & Hcase).
  { simpl. intros H. apply app_eq_nil in H. destruct H as [_ H].
    discriminate. }
  set (core := rev (pop_back_slashes (rev (slash :: t)))) in *.
  assert (Hsplit : slash :: t = core ++ repeat slash k).
  { rewrite <- (rev_involutive (slash :: t)), Hk, rev_app_distr, rev_repeat.
    reflexivity. }
  assert (Hcomp : components core = components t).
  { rewrite <- (components_slashes core k), <- Hsplit. reflexivity. }
  cbv zeta. split.
  - destruct Hcase as [[c Hc]|(c & u & Hc & Hplain)].
    + (* only slashes: the root path *)
      assert (Hcore : core = [c]) by (subst core; rewrite Hc; reflexivity).
      rewrite Hcore in Hsplit. injection Hsplit as <- _.
      rewrite Hcore. simpl. repeat split.
      * exists []. reflexivity.
      * left. reflexivity.
    + assert (Hcore : core = rev u ++ [c])
        by (subst core; rewrite Hc; reflexivity).
      rewrite Hcore, collapse_slashes_app_plain by exact Hplain.
      split; [|split].
      * destruct (rev u) as [|d v] eqn:Hu.
        -- rewrite Hcore in Hsplit. simpl in Hsplit.
           injection Hsplit as <- _. discriminate.
        -- rewrite Hcore in Hsplit. simpl in Hsplit.
           injection Hsplit as <- _. simpl.
           eexists. reflexivity.
      * rewrite <- collapse_slashes_app_plain by exact Hplain.
        apply collapse_slashes_no_double.
      * right. rewrite last_last. exact Hplain.
  - rewrite <- Hcomp. apply (proj2 (tokens_collapse core)).
Qed.

Lemma normalizePath_spec (p : list ascii) :
  normalized (normalizePath p)
  /\ components (normalizePath p) = components p.
Proof.
  destruct p as [|c p].
  - split; [|reflexivity]. repeat split.
    + exists []. reflexivity.
    + left. reflexivity.
  - unfold normalizePath. destruct (is_slash c) eqn:Hc.
    + apply is_slash_true in Hc. subst c.
      destruct (normalize_absolute p) as [H1 H2]. split; [exact H1|].
      rewrite H2. reflexivity.
    + destruct (normalize_absolute (c :: p)) as [H1 H2]. split; assumption.
Qed.

(** *** The components that [splitPath] keeps *)

Lemma splitPath_step_empty (cs : list (list ascii)) :
  splitPath_step cs [] = cs.
Proof. reflexivity. Qed.

Lemma fold_step_filter (toks cs : list (list ascii)) :
  fold_left splitPath_step toks cs
  = fold_left splitPath_step (List.filter nonempty toks) cs.
Proof.
  revert cs. induction toks as [|t toks IH]; intros cs; [reflexivity|].
  simpl. unfold nonempty at 1. destruct (string_eqb t []) eqn:Ht; simpl.
  - apply string_eqb_eq in Ht. subst t. apply IH.
  - apply IH.
Qed.

Lemma splitPath_components (p : list ascii) :
  splitPath p = fold_left splitPath_step (components p) [].
Proof.
  destruct (normalizePath_spec p) as [_ Hcomp]. unfold splitPath.
  rewrite <- Hcomp.
  destruct (string_eqb (normalizePath p) []) eqn:H1; simpl.
  - apply string_eqb_eq in H1. rewrite H1. reflexivity.
  - destruct (string_eqb (normalizePath p) [slash]) eqn:H2.
    + apply string_eqb_eq in H2. rewrite H2. reflexivity.
    + apply fold_step_filter.
Qed.

Lemma splitPath_normalizePath (p : list ascii) :
  splitPath (normalizePath p) = splitPath p.
Proof.
  rewrite !splitPath_components. destruct (normalizePath_spec p) as [_ ->].
  reflexivity.
Qed.

Lemma resolvePath_components (a : Allocator) (p : list ascii) :
  Directory_resolvePath a p = resolve_components a (splitPath p) ROOT_INODE.
Proof.
  unfold Directory_resolvePath. rewrite splitPath_normalizePath.
  destruct (string_eqb (normalizePath p) [slash]) eqn:H.
  - apply string_eqb_eq in H. rewrite splitPath_components.
    destruct (normalizePath_spec p) as [_ <-]. rewrite H. reflexivity.
  - destruct (splitPath p); reflexivity.
Qed.

Lemma tokens_plain (s cur : list ascii) :
  forallb (fun c => negb (is_slash c)) s = true ->
  List.filter nonempty (getline_tokens s cur)
  = List.filter nonempty [rev cur ++ s].
Proof.
  revert cur. induction s as [|c s IH]; intros cur Hs.
  - rewrite app_nil_r. apply tokens_end.
  - simpl in Hs. apply andb_true_iff in Hs. destruct Hs as [Hc Hs].
    apply negb_true_iff in Hc. simpl getline_tokens. rewrite Hc.
    rewrite IH by exact Hs. simpl rev. rewrite <- app_assoc. reflexivity.
Qed.

Lemma components_plain (name : list ascii) :
  name <> [] -> forallb (fun c => negb (is_slash c)) name = true ->
  components name = [name].
Proof.
  intros Hne Hs. unfold components. fold nonempty.
  rewrite tokens_plain by exact Hs. simpl. unfold nonempty.
  rewrite (proj2 (string_eqb_neq name [])) by exact Hne. reflexivity.
Qed.

Lemma splitPath_app (p name : list ascii) :
  name <> [] -> forallb (fun c => negb (is_slash c)) name = true ->
  splitPath (p ++ slash :: name) = splitPath_step (splitPath p) name.
Proof.
  intros Hne Hs. rewrite !splitPath_components, components_app_slash.
  rewrite fold_left_app, components_plain by assumption. reflexivity.
Qed.

(** [splitPath] never yields an empty component, [.] or [..]. *)
Lemma splitPath_plain (p : list ascii) :
  Forall (fun c => c <> [] /\ c <> str "." /\ c <> str "..") (splitPath p).
Proof.
  rewrite splitPath_components.
  assert (H : forall toks cs,
             Forall (fun c => c <> [] /\ c <> str "." /\ c <> str "..") cs ->
             Forall (fun c => c <> [] /\ c <> str "." /\ c <> str "..")
                    (fold_left splitPath_step toks cs)).
  { induction toks as [|t toks IH]; intros cs Hcs; [exact Hcs|].
    simpl. apply IH. unfold splitPath_step.
    destruct (string_eqb t []) eqn:H1; [exact Hcs|].
    destruct (string_eqb t (str ".")) eqn:H2; [exact Hcs|]. cbn [negb andb].
    destruct (string_eqb t (str "..")) eqn:H3.
    - clear -Hcs. induction Hcs as [|c cs Hc Hcs IHcs]; [constructor|].
      simpl. destruct cs; [constructor|]. constructor; assumption.
    - apply Forall_app. split; [exact Hcs|]. constructor; [|constructor].
      apply string_eqb_neq in H1, H2, H3. tauto. }
  apply H. constructor.
Qed.

(** C8, amended.  The predicate [isValidPath] is false for the empty path
    and for a path that does not start with ['/'], but nothing returns an
    error for them: [normalizePath] maps the empty path to the root path and
    treats a relative path as if it started with ['/'].  For every input,
    the normalised path starts with ['/'], repeats no ['/'], ends with none
    unless it is the root path, and has the components of the input.
    [resolvePath] walks the components that [splitPath] keeps, from the
    root: a [.] is dropped, a [..] removes the component before it and is
    dropped at the root, any other name is appended; so no component is
    empty, [.] or [..], and [/..] is the root. *)
Theorem path_layer :
  isValidPath [] = false
  /\ (forall c s, is_slash c = false -> isValidPath (c :: s) = false)
  /\ normalizePath [] = [slash]
  /\ (forall c s, is_slash c = false ->
                  normalizePath (c :: s) = normalizePath (slash :: c :: s))
  /\ (forall p, normalized (normalizePath p)
                /\ components (normalizePath p) = components p)
  /\ (forall a p, Directory_resolvePath a p
                  = resolve_components a (splitPath p) ROOT_INODE)
  /\ (forall p, splitPath (p ++ str "/.") = splitPath p)
  /\ (forall p, splitPath (p ++ str "/..") = removelast (splitPath p))
  /\ (forall p name, plain_name name ->
                     splitPath (p ++ slash :: name) = splitPath p ++ [name])
  /\ (forall p, Forall (fun c => c <> [] /\ c <> str "." /\ c <> str "..")
                       (splitPath p))
  /\ (forall a, Directory_resolvePath a (str "/..") = success ROOT_INODE).
Proof.
  split; [reflexivity|].
  split; [intros c s Hc; simpl; rewrite Hc; reflexivity|].
  split; [reflexivity|].
  split; [intros c s Hc; unfold normalizePath; rewrite Hc; reflexivity|].
  split; [exact normalizePath_spec|].
  split; [exact resolvePath_components|].
  split; [intros p; apply (splitPath_app p (str ".")); [discriminate
                                                       |reflexivity]|].
  split; [intros p; apply (splitPath_app p (str "..")); [discriminate
                                                        |reflexivity]|].
  split.
  { intros p name (Hne & Hdot & Hdots & Hs).
    rewrite splitPath_app by assumption. unfold splitPath_step.
    rewrite (proj2 (string_eqb_neq name [])) by exact Hne.
    rewrite (proj2 (string_eqb_neq name (str "."))) by exact Hdot.
    rewrite (proj2 (string_eqb_neq name (str ".."))) by exact Hdots.
    reflexivity. }
  split; [exact splitPath_plain|].
  intros a. rewrite resolvePath_components. reflexivity.
Qed.

Lemma path_layer_witness :
  is_slash "a"%char = false
  /\ isValidPath (str "a/b") = false
  /\ plain_name (str "c")
  /\ splitPath (str "/a/b/../" ++ slash :: str "c") = [str "a"; str "c"].
Proof.
  destruct path_layer as (_ & Hrel & _ & _ & _ & _ & _ & _ & Happ & _).
  assert (Hc : plain_name (str "c")).
  { repeat split; discriminate. }
  split; [reflexivity|]. split; [apply (Hrel "a"%char); reflexivity|].
  split; [exact Hc|].
  rewrite (Happ _ _ Hc). reflexivity.
Defined.

(** ** Truncation (C2) *)

(** *** [freeBlock] keeps the allocator ready and touches one block *)

Lemma Forall_insert_byte (l : list Z) (i : nat) (v : Z) :
  Forall (fun c => 0 <= c < 256) l -> 0 <= v < 256 ->
  Forall (fun c => 0 <= c < 256) (<[i := v]> l).
Proof.
  intros Hl Hv. revert i. induction Hl as [|x l Hx Hl IH]; intros i.
  - constructor.
  - destruct i; simpl; constructor; auto.
Qed.

Lemma freeBlock_cases (a : Allocator) (x : Z) :
  alloc_ready a ->
  (Allocator_isBlockAllocated a x = false
   /\ snd (Allocator_freeBlock a x) = a)
  \/ (Allocator_isBlockAllocated a x = true
      /\ 1 < Allocator_getBlockRef a x
      /\ snd (Allocator_freeBlock a x)
         = set_refcount a (absoluteToDataBlock a x)
                        (Allocator_getBlockRef a x - 1))
  \/ (Allocator_isBlockAllocated a x = true
      /\ Allocator_getBlockRef a x <= 1
      /\ snd (Allocator_freeBlock a x)
         = updateBlockStats_dec
             (with_block_bitmap
                (set_refcount a (absoluteToDataBlock a x) 0)
                (Bitmap_clear (block_bitmap_ a)
                              (data_block_count (superblock_ a))
                              (absoluteToDataBlock a x)) true)).
Proof.
  intros R.
  destruct (Allocator_isBlockAllocated a x) eqn:Halloc.
  2:{ left. rewrite freeBlock_unallocated by exact Halloc.
      split; reflexivity. }
  right.
  destruct (Z.lt_ge_cases 1 (Allocator_getBlockRef a x)) as [Hrc|Hrc].
  - left. split; [reflexivity|]. split; [exact Hrc|].
    rewrite freeBlock_shared; try assumption; [reflexivity|].
    apply (ready_bytes a R).
  - right. split; [reflexivity|]. split; [exact Hrc|].
    pose proof Halloc as Halloc'.
    apply isBlockAllocated_true in Halloc'.
    destruct Halloc' as (Hl & Hv & Hbit).
    destruct (Bitmap_get_in_range _ _ _ (absoluteToDataBlock_nonneg a x) Hbit)
      as [Hlt _].
    assert (Hsz : absoluteToDataBlock a x < refcount_size a)
      by (rewrite (ready_table a R); exact Hlt).
    rewrite freeBlock_last; try assumption; [reflexivity|apply R|].
    unfold Allocator_getBlockRef in Hrc.
    rewrite Hl, (ready_enabled a R), Hv in Hrc. simpl in Hrc.
    destruct (Z.leb_spec (refcount_size a) (absoluteToDataBlock a x)); lia.
Qed.

Lemma set_refcount_ready (a : Allocator) (i v : Z) :
  alloc_ready a -> 0 <= v < 256 -> alloc_ready (set_refcount a i v).
Proof.
  intros R Hv. destruct R. constructor; try assumption.
  - rewrite refcount_size_set. assumption.
  - apply Forall_insert_byte; assumption.
Qed.

Lemma release_ready (a : Allocator) (i : Z) :
  alloc_ready a ->
  alloc_ready
    (updateBlockStats_dec
       (with_block_bitmap a
          (Bitmap_clear (block_bitmap_ a) (data_block_count (superblock_ a)) i)
          true)).
Proof.
  intros R. destruct R. constructor; try assumption.
  cbn. rewrite Bitmap_clear_length. assumption.
Qed.

Lemma freeBlock_ready (a : Allocator) (x : Z) :
  alloc_ready a -> alloc_ready (snd (Allocator_freeBlock a x)).
Proof.
  intros R.
  pose proof (refcount_at_byte a (absoluteToDataBlock a x) (ready_bytes a R))
    as Hb.
  destruct (freeBlock_cases a x R)
    as [[_ ->]|[(Ha & Hrc & ->)|(Ha & Hrc & ->)]].
  - exact R.
  - apply set_refcount_ready; [exact R|].
    destruct (getBlockRef_pos a x ltac:(lia)) as (_ & _ & _ & _ & Heq).
    rewrite Heq in *. lia.
  - apply (release_ready (set_refcount a (absoluteToDataBlock a x) 0)).
    apply set_refcount_ready; [exact R|lia].
Qed.

Lemma freeBlock_disk (a : Allocator) (x : Z) :
  disk_ (snd (Allocator_freeBlock a x)) = disk_ a.
Proof.
  unfold Allocator_freeBlock.
  destruct (loaded_ a); simpl; [|reflexivity].
  destruct (isValidDataBlock a x); simpl; [|reflexivity].
  destruct (Bitmap_get _ _ _); simpl; [|reflexivity].
  destruct (refcount_enabled_ a && _); [|reflexivity].
  destruct (1 <? _); reflexivity.
Qed.


(** The count and the bit of a block other than the one freed. *)
Lemma freeBlock_frame (a : Allocator) (x b : Z) :
  alloc_ready a -> x <> b ->
  Allocator_getBlockRef (snd (Allocator_freeBlock a x)) b
  = Allocator_getBlockRef a b
  /\ Allocator_isBlockAllocated (snd (Allocator_freeBlock a x)) b
     = Allocator_isBlockAllocated a b.
Proof.
  intros R Hne.
  destruct (freeBlock_cases a x R) as [[_ ->]|Hcase]; [split; reflexivity|].
  assert (Hvx : isValidDataBlock a x = true).
  { destruct Hcase as [(Ha & _)|(Ha & _)];
      apply isBlockAllocated_true in Ha; tauto. }
  destruct (isValidDataBlock_index a x R Hvx) as (Hix & Hrx & _).
  destruct (isValidDataBlock a b) eqn:Hvb.
  2:{ (* [b] is no data block: both read as 0 and false *)
    destruct Hcase as [(_ & _ & ->)|(_ & _ & ->)];
      unfold Allocator_getBlockRef, Allocator_isBlockAllocated; cbn;
      change (isValidDataBlock _ b) with (isValidDataBlock a b);
      rewrite Hvb; cbn; rewrite !orb_true_r; split; reflexivity. }
  destruct (isValidDataBlock_index a b R Hvb) as (Hib & Hrb & _).
  assert (Hidx : absoluteToDataBlock a x <> absoluteToDataBlock a b) by lia.
  pose proof (absoluteToDataBlock_nonneg a x).
  pose proof (absoluteToDataBlock_nonneg a b).
  destruct Hcase as [(_ & _ & ->)|(_ & _ & ->)];
    unfold Allocator_getBlockRef, Allocator_isBlockAllocated; cbn;
    change (isValidDataBlock _ b) with (isValidDataBlock a b);
    change (absoluteToDataBlock _ b) with (absoluteToDataBlock a b);
    unfold refcount_size, refcount_at; cbn; rewrite !length_insert;
    rewrite nth_insert_other
      by (intros Heq; apply Z2Nat.inj in Heq; lia);
    try rewrite Bitmap_get_clear_other by lia; split; reflexivity.
Qed.

(** Freeing an allocated block takes one reference from it, and releases
    it when that was the last. *)
Lemma freeBlock_self (a : Allocator) (b : Z) :
  alloc_ready a -> Allocator_isBlockAllocated a b = true ->
  1 <= Allocator_getBlockRef a b ->
  Allocator_getBlockRef (snd (Allocator_freeBlock a b)) b
  = Allocator_getBlockRef a b - 1
  /\ (Allocator_getBlockRef a b = 1 ->
      Allocator_isBlockAllocated (snd (Allocator_freeBlock a b)) b = false).
Proof.
  intros R Ha Hrc.
  destruct (getBlockRef_pos a b ltac:(lia)) as (Hl & He & Hv & Hsz & Hrc').
  pose proof (absoluteToDataBlock_nonneg a b) as Hidx.
  destruct (freeBlock_cases a b R)
    as [[Hno _]|[(_ & Hr & ->)|(_ & Hr & ->)]].
  - congruence.
  - split; [apply getBlockRef_set_same; lia|]. lia.
  - split.
    + change (Allocator_getBlockRef
                (set_refcount a (absoluteToDataBlock a b) 0) b
              = Allocator_getBlockRef a b - 1).
      rewrite getBlockRef_set_same by lia. lia.
    + intros _. unfold Allocator_isBlockAllocated. cbn. rewrite Hl. cbn.
      change (isValidDataBlock _ b) with (isValidDataBlock a b).
      rewrite Hv. cbn.
      change (absoluteToDataBlock _ b) with (absoluteToDataBlock a b).
      apply Bitmap_get_clear_same. exact Hidx.
Qed.

(** [freeBlock] never raises a count and never sets a bit. *)
Lemma freeBlock_mono (a : Allocator) (x b : Z) :
  alloc_ready a ->
  Allocator_getBlockRef (snd (Allocator_freeBlock a x)) b
  <= Allocator_getBlockRef a b
  /\ (Allocator_isBlockAllocated (snd (Allocator_freeBlock a x)) b = true ->
      Allocator_isBlockAllocated a b = true).
Proof.
  intros R. destruct (Z.eq_dec x b) as [->|Hne].
  2:{ destruct (freeBlock_frame a x b R Hne) as [-> ->]. split; [lia|auto]. }
  destruct (freeBlock_cases a b R)
    as [[_ ->]|[(Ha & Hr & ->)|(Ha & Hr & ->)]].
  - split; [lia|auto].
  - split; [|intros _; exact Ha].
    rewrite getBlockRef_set_same by lia. lia.
  - split; [|intros _; exact Ha].
    assert (H0 : Allocator_getBlockRef
                   (updateBlockStats_dec
                      (with_block_bitmap
                         (set_refcount a (absoluteToDataBlock a b) 0)
                         (Bitmap_clear (block_bitmap_ a)
                            (data_block_count (superblock_ a))
                            (absoluteToDataBlock a b)) true)) b
                 <= 0).
    { unfold Allocator_getBlockRef. cbn.
      destruct (negb (loaded_ a) || negb (refcount_enabled_ a)); [lia|].
      change (isValidDataBlock _ b) with (isValidDataBlock a b).
      destruct (negb (isValidDataBlock a b)); [lia|].
      change (absoluteToDataBlock _ b) with (absoluteToDataBlock a b).
      unfold refcount_size, refcount_at. cbn. rewrite length_insert.
      destruct (Z.leb_spec (Z.of_nat (length (block_refcount_ a)))
                           (absoluteToDataBlock a b)); [lia|].
      rewrite nth_insert_same; [lia|].
      pose proof (absoluteToDataBlock_nonneg a b). lia. }
    assert (Hnn : 0 <= Allocator_getBlockRef a b).
    { unfold Allocator_getBlockRef.
      destruct (negb (loaded_ a) || negb (refcount_enabled_ a)); [lia|].
      destruct (negb (isValidDataBlock a b)); [lia|].
      destruct (refcount_size a <=? absoluteToDataBlock a b); [lia|].
      apply (refcount_at_byte a _ (ready_bytes a R)). }
    lia.
Qed.

Lemma free_list_ready (bs : list Z) (a : Allocator) :
  alloc_ready a -> alloc_ready (free_list bs a).
Proof.
  revert a. induction bs as [|x bs IH]; intros a R; [exact R|].
  simpl. apply IH. apply freeBlock_ready. exact R.
Qed.

Lemma free_list_disk (bs : list Z) (a : Allocator) :
  disk_ (free_list bs a) = disk_ a.
Proof.
  revert a. induction bs as [|x bs IH]; intros a; [reflexivity|].
  simpl. rewrite IH. apply freeBlock_disk.
Qed.


Lemma free_list_app (bs cs : list Z) (a : Allocator) :
  free_list (bs ++ cs) a = free_list cs (free_list bs a).
Proof. apply fold_left_app. Qed.

Lemma free_list_mono (bs : list Z) (a : Allocator) (b : Z) :
  alloc_ready a ->
  Allocator_getBlockRef (free_list bs a) b <= Allocator_getBlockRef a b
  /\ (Allocator_isBlockAllocated (free_list bs a) b = true ->
      Allocator_isBlockAllocated a b = true).
Proof.
  revert a. induction bs as [|x bs IH]; intros a R.
  { change (free_list [] a) with a. split; [lia|auto]. }
  change (free_list (x :: bs) a)
    with (free_list bs (snd (Allocator_freeBlock a x))).
  destruct (IH _ (freeBlock_ready a x R)) as [H1 H2].
  destruct (freeBlock_mono a x b R) as [H3 H4]. split; [lia|auto].
Qed.

(** Every block of the list loses a reference, and is released when it held
    its last one. *)
Lemma free_list_frees (bs : list Z) (a : Allocator) (b : Z) :
  alloc_ready a -> In b bs ->
  Allocator_isBlockAllocated a b = true ->
  1 <= Allocator_getBlockRef a b ->
  Allocator_getBlockRef (free_list bs a) b < Allocator_getBlockRef a b
  /\ (Allocator_getBlockRef a b = 1 ->
      Allocator_isBlockAllocated (free_list bs a) b = false).
Proof.
  revert a. induction bs as [|x bs IH]; intros a R Hin Ha Hrc; [contradiction|].
  change (free_list (x :: bs) a)
    with (free_list bs (snd (Allocator_freeBlock a x))).
  destruct (Z.eq_dec x b) as [->|Hne].
  - destruct (freeBlock_self a b R Ha Hrc) as [H1 H2].
    destruct (free_list_mono bs _ b (freeBlock_ready a b R)) as [H3 H4].
    split; [lia|]. intros Hone.
    destruct (Allocator_isBlockAllocated (free_list bs _) b) eqn:Hf;
      [|reflexivity].
    rewrite H4 in H2 by reflexivity. specialize (H2 Hone). discriminate H2.
  - destruct Hin as [Heq|Hin]; [contradiction|].
    destruct (freeBlock_frame a x b R Hne) as [H1 H2].
    rewrite <- H1, <- H2 in *.
    apply IH; try assumption. apply freeBlock_ready. exact R.
Qed.

(** *** The loops of [freeFileBlocks] *)

Lemma In_range (lo hi k : Z) :
  0 <= lo -> (In k (range lo hi) <-> lo <= k < hi).
Proof.
  intros Hlo. unfold range. rewrite in_map_iff. split.
  - intros (n & <- & Hn). apply in_seq in Hn. lia.
  - intros Hk. exists (Z.to_nat k). split; [lia|]. apply in_seq. lia.
Qed.

Lemma NoDup_range (lo hi : Z) : List.NoDup (range lo hi).
Proof.
  unfold range. apply Finite.Injective_map_NoDup; [|apply seq_NoDup].
  intros x y H. lia.
Qed.

Lemma range_nonneg (lo hi k : Z) : In k (range lo hi) -> 0 <= k.
Proof.
  unfold range. rewrite in_map_iff. intros (n & <- & _). lia.
Qed.

Lemma same_ptrs_refl (i : Inode) : same_ptrs i i.
Proof. repeat split. Qed.

Lemma same_ptrs_trans (i j k : Inode) :
  same_ptrs i j -> same_ptrs j k -> same_ptrs i k.
Proof. unfold same_ptrs. intros (? & ? & ?) (? & ? & ?). repeat split; congruence. Qed.

Lemma dec_block_count_ptrs (i : Inode) : same_ptrs (dec_block_count i) i.
Proof.
  unfold dec_block_count. destruct (0 <? block_count i); repeat split.
Qed.

Lemma free_and_count_eq (st : Inode * Allocator) (b : Z) :
  free_and_count st b
  = (dec_block_count (fst st), snd (Allocator_freeBlock (snd st) b)).
Proof. destruct st. reflexivity. Qed.

Lemma free_list_nil (a : Allocator) : free_list [] a = a.
Proof. reflexivity. Qed.

Lemma free_list_one (x : Z) (a : Allocator) :
  free_list [x] a = snd (Allocator_freeBlock a x).
Proof. reflexivity. Qed.

(** A loop that frees the valid pointers [f i] of the indices [idxs]. *)
Lemma free_loop_spec (f : Z -> Z) (idxs : list Z) (st : Inode * Allocator) :
  let st' :=
    fold_left (fun st i => if negb (f i =? INVALID_BLOCK)
                           then free_and_count st (f i) else st) idxs st in
  snd st' = free_list (List.filter is_valid_ptr (map f idxs)) (snd st)
  /\ same_ptrs (fst st') (fst st).
Proof.
  revert st. induction idxs as [|i idxs IH]; intros st.
  - split; [reflexivity|apply same_ptrs_refl].
  - simpl. fold (is_valid_ptr (f i)). destruct (is_valid_ptr (f i)).
    + rewrite free_and_count_eq.
      destruct (IH (dec_block_count (fst st),
                    snd (Allocator_freeBlock (snd st) (f i)))) as [H1 H2].
      cbn [fst snd] in H1, H2. split; [rewrite H1; reflexivity|].
      eapply same_ptrs_trans; [exact H2|apply dec_block_count_ptrs].
    + apply IH.
Qed.

Lemma free_pointers_spec (st : Inode * Allocator) (blk : Block) :
  snd (free_pointers st blk) = free_list (valid_ptrs blk) (snd st)
  /\ same_ptrs (fst (free_pointers st blk)) (fst st).
Proof. apply (free_loop_spec (ptr_at blk)). Qed.

Lemma direct_block_set_other (i : Inode) (k j v : Z) :
  0 <= k -> 0 <= j -> k <> j ->
  direct_block (set_direct_block i k v) j = direct_block i j.
Proof.
  intros Hk Hj Hne. unfold direct_block, set_direct_block. simpl.
  apply nth_insert_other. intros Heq. apply Z2Nat.inj in Heq; lia.
Qed.

Lemma direct_block_set_same (i : Inode) (k : Z) :
  direct_block (set_direct_block i k INVALID_BLOCK) k = INVALID_BLOCK.
Proof.
  unfold direct_block, set_direct_block. simpl.
  destruct (Nat.lt_ge_cases (Z.to_nat k) (length (direct_blocks i))) as [H|H].
  - apply nth_insert_same. exact H.
  - rewrite nth_insert_out by exact H. apply nth_overflow. exact H.
Qed.

Lemma direct_block_same_ptrs (i j : Inode) (k : Z) :
  same_ptrs i j -> direct_block i k = direct_block j k.
Proof. intros (H & _). unfold direct_block. rewrite H. reflexivity. Qed.

(** The loop over the direct pointers. *)
Lemma direct_loop_spec (idxs : list Z) :
  List.NoDup idxs -> (forall i, In i idxs -> 0 <= i) ->
  forall st : Inode * Allocator,
    let st' :=
      fold_left
        (fun st i =>
           if negb (direct_block (fst st) i =? INVALID_BLOCK) then
             let '(inode, a) :=
               free_and_count st (direct_block (fst st) i) in
             (set_direct_block inode i INVALID_BLOCK, a)
           else st) idxs st in
    snd st'
    = free_list (List.filter is_valid_ptr (map (direct_block (fst st)) idxs))
                (snd st)
    /\ single_indirect (fst st') = single_indirect (fst st)
    /\ double_indirect (fst st') = double_indirect (fst st)
    /\ forall k, 0 <= k ->
                 direct_block (fst st') k
                 = if mem k idxs then INVALID_BLOCK
                   else direct_block (fst st) k.
Proof.
  induction idxs as [|i idxs IH]; intros Hnd Hpos st.
  - repeat split.
  - apply NoDup_cons_iff in Hnd. destruct Hnd as [Hi Hnd].
    assert (Hi0 : 0 <= i) by (apply Hpos; left; reflexivity).
    assert (Hpos' : forall j, In j idxs -> 0 <= j)
      by (intros j Hj; apply Hpos; right; exact Hj).
    specialize (IH Hnd Hpos'). cbn [fold_left map List.filter].
    fold (is_valid_ptr (direct_block (fst st) i)).
    destruct (is_valid_ptr (direct_block (fst st) i)) eqn:Hv.
    + rewrite free_and_count_eq.
      set (st1 := (set_direct_block (dec_block_count (fst st)) i
                                    INVALID_BLOCK,
                   snd (Allocator_freeBlock (snd st)
                                            (direct_block (fst st) i)))).
      destruct (IH st1) as (H1 & H2 & H3 & H4).
      assert (Hother : forall j, 0 <= j -> j <> i ->
                direct_block (fst st1) j = direct_block (fst st) j).
      { intros j Hj Hne. subst st1. cbn [fst].
        rewrite direct_block_set_other by lia.
        apply direct_block_same_ptrs. apply dec_block_count_ptrs. }
      split; [|split; [|split]].
      * rewrite H1. cbn [free_list fold_left]. f_equal. f_equal.
        apply map_ext_in. intros j Hj. apply Hother; [apply Hpos'; exact Hj|].
        intros ->. contradiction.
      * rewrite H2. subst st1. cbn.
        apply (dec_block_count_ptrs (fst st)).
      * rewrite H3. subst st1. cbn.
        apply (dec_block_count_ptrs (fst st)).
      * intros k Hk. rewrite H4 by exact Hk. unfold mem. cbn [existsb].
        fold (mem k idxs). destruct (Z.eqb_spec k i) as [->|Hne].
        -- cbn [orb]. destruct (mem i idxs); [reflexivity|].
           subst st1. cbn [fst]. apply direct_block_set_same.
        -- cbn [orb]. destruct (mem k idxs); [reflexivity|].
           apply Hother; assumption.
    + destruct (IH st) as (H1 & H2 & H3 & H4).
      split; [exact H1|]. split; [exact H2|]. split; [exact H3|].
      intros k Hk. rewrite H4 by exact Hk. unfold mem. cbn [existsb].
      fold (mem k idxs). destruct (Z.eqb_spec k i) as [->|Hne]; cbn [orb];
        [|reflexivity].
      destruct (mem i idxs); [reflexivity|].
      unfold is_valid_ptr in Hv. apply negb_false_iff in Hv.
      apply Z.eqb_eq in Hv. exact Hv.
Qed.

(** One pointer of the double-indirect block: its tree is freed. *)
Lemma free_l2_spec (d : DiskImage) (l1_data : Block)
      (st : Inode * Allocator) (i : Z) :
  disk_ (snd st) = d ->
  snd (free_l2 l1_data st i)
  = free_list (flat_map (indirect_tree d)
                        (List.filter is_valid_ptr [ptr_at l1_data i]))
              (snd st)
  /\ same_ptrs (fst (free_l2 l1_data st i)) (fst st).
Proof.
  intros Hd. unfold free_l2. cbn [List.filter]. unfold is_valid_ptr.
  set (p := ptr_at l1_data i).
  destruct (negb (p =? INVALID_BLOCK)).
  2:{ split; [reflexivity|apply same_ptrs_refl]. }
  cbn [flat_map]. rewrite app_nil_r. unfold indirect_tree.
  rewrite free_list_app, free_list_one.
  unfold Allocator_readBlockInternal. rewrite Hd.
  destruct (DiskImage_readBlock d p) as [l2|e].
  - destruct (free_pointers_spec st l2) as [H1 H2]. revert H1 H2.
    generalize (free_pointers st l2). intros st0 H1 H2.
    rewrite free_and_count_eq. cbn [fst snd]. rewrite H1.
    split; [reflexivity|].
    eapply same_ptrs_trans; [apply dec_block_count_ptrs|exact H2].
  - rewrite free_list_nil, free_and_count_eq. cbn [fst snd].
    split; [reflexivity|apply dec_block_count_ptrs].
Qed.

(** The loop over the pointers of the double-indirect block. *)
Lemma double_loop_spec (d : DiskImage) (l1_data : Block) (idxs : list Z) :
  forall st : Inode * Allocator,
    disk_ (snd st) = d ->
    snd (fold_left (free_l2 l1_data) idxs st)
    = free_list
        (flat_map (indirect_tree d)
                  (List.filter is_valid_ptr (map (ptr_at l1_data) idxs)))
        (snd st)
    /\ same_ptrs (fst (fold_left (free_l2 l1_data) idxs st)) (fst st).
Proof.
  induction idxs as [|i idxs IH]; intros st Hd.
  - split; [reflexivity|apply same_ptrs_refl].
  - destruct (free_l2_spec d l1_data st i Hd) as [Hs1 Hp1].
    change (fold_left (free_l2 l1_data) (i :: idxs) st)
      with (fold_left (free_l2 l1_data) idxs (free_l2 l1_data st i)).
    assert (Hd1 : disk_ (snd (free_l2 l1_data st i)) = d)
      by (rewrite Hs1, free_list_disk; exact Hd).
    destruct (IH (free_l2 l1_data st i) Hd1) as [H1 H2].
    split.
    + rewrite H1, Hs1, <- free_list_app. f_equal.
      change (map (ptr_at l1_data) (i :: idxs))
        with ([ptr_at l1_data i] ++ map (ptr_at l1_data) idxs).
      rewrite List.filter_app, flat_map_app. reflexivity.
    + eapply same_ptrs_trans; [exact H2|exact Hp1].
Qed.

Lemma mem_range (lo hi k : Z) :
  0 <= lo -> mem k (range lo hi) = (lo <=? k) && (k <? hi).
Proof.
  intros Hlo. destruct (mem k (range lo hi)) eqn:Hm.
  - apply mem_In, In_range in Hm; [|exact Hlo]. symmetry.
    apply andb_true_iff. rewrite Z.leb_le, Z.ltb_lt. exact Hm.
  - apply mem_not_In in Hm. rewrite In_range in Hm by exact Hlo. symmetry.
    apply andb_false_iff. rewrite Z.leb_gt, Z.ltb_ge. lia.
Qed.


(** The three statements of [freeFileBlocks]. *)
Lemma free_direct_spec (inode : Inode) (a : Allocator) (from_block : Z) :
  0 <= from_block ->
  let st' := free_direct (inode, a) from_block in
  snd st'
  = free_list
      (List.filter is_valid_ptr
         (map (direct_block inode) (range from_block NUM_DIRECT_BLOCKS))) a
  /\ single_indirect (fst st') = single_indirect inode
  /\ double_indirect (fst st') = double_indirect inode
  /\ forall k, 0 <= k ->
       direct_block (fst st') k
       = if (from_block <=? k) && (k <? NUM_DIRECT_BLOCKS)
         then INVALID_BLOCK else direct_block inode k.
Proof.
  intros Hfrom.
  destruct (direct_loop_spec (range from_block NUM_DIRECT_BLOCKS)
              (NoDup_range _ _) (range_nonneg _ _) (inode, a))
    as (Ha & Hs & Hd & Hk).
  split; [exact Ha|]. split; [exact Hs|]. split; [exact Hd|].
  intros k Hk0. rewrite <- mem_range by exact Hfrom. apply Hk. exact Hk0.
Qed.

Lemma free_single_spec (st : Inode * Allocator) :
  snd (free_single st)
  = free_list (indirect_tree (disk_ (snd st)) (single_indirect (fst st)))
              (snd st)
  /\ direct_blocks (fst (free_single st)) = direct_blocks (fst st)
  /\ single_indirect (fst (free_single st)) = INVALID_BLOCK
  /\ double_indirect (fst (free_single st)) = double_indirect (fst st).
Proof.
  unfold free_single, indirect_tree, Allocator_readBlockInternal.
  rewrite free_list_app, free_list_one.
  destruct (DiskImage_readBlock (disk_ (snd st)) (single_indirect (fst st)))
    as [blk|e].
  - destruct (free_pointers_spec st blk) as [Hf (Hd & Hs & Hdd)].
    revert Hf Hd Hs Hdd. generalize (free_pointers st blk). intros st0.
    intros Hf Hd Hs Hdd. rewrite free_and_count_eq. cbn [fst snd].
    rewrite Hf, Hs.
    destruct (dec_block_count_ptrs (fst st0)) as (Hd' & Hs' & Hdd').
    split; [reflexivity|]. split; [|split].
    + change (direct_blocks (dec_block_count (fst st0)) = direct_blocks (fst st)).
      congruence.
    + reflexivity.
    + change (double_indirect (dec_block_count (fst st0))
              = double_indirect (fst st)). congruence.
  - rewrite free_list_nil, free_and_count_eq. cbn [fst snd].
    destruct (dec_block_count_ptrs (fst st)) as (Hd' & Hs' & Hdd').
    split; [reflexivity|]. split; [exact Hd'|]. split; [reflexivity|].
    exact Hdd'.
Qed.

Lemma free_double_spec (st : Inode * Allocator) :
  snd (free_double st)
  = free_list (double_tree (disk_ (snd st)) (double_indirect (fst st)))
              (snd st)
  /\ direct_blocks (fst (free_double st)) = direct_blocks (fst st)
  /\ single_indirect (fst (free_double st)) = single_indirect (fst st)
  /\ double_indirect (fst (free_double st)) = INVALID_BLOCK.
Proof.
  unfold free_double, double_tree, Allocator_readBlockInternal.
  rewrite free_list_app, free_list_one.
  destruct (DiskImage_readBlock (disk_ (snd st)) (double_indirect (fst st)))
    as [l1|e].
  - destruct (double_loop_spec (disk_ (snd st)) l1 (range 0 PTRS_PER_BLOCK)
                               st eq_refl) as [Hf (Hd & Hs & Hdd)].
    revert Hf Hd Hs Hdd.
    generalize (fold_left (free_l2 l1) (range 0 PTRS_PER_BLOCK) st).
    intros st0 Hf Hd Hs Hdd. rewrite free_and_count_eq. cbn [fst snd].
    unfold valid_ptrs. rewrite Hf, Hdd.
    destruct (dec_block_count_ptrs (fst st0)) as (Hd' & Hs' & Hdd').
    split; [reflexivity|]. split; [|split].
    + change (direct_blocks (dec_block_count (fst st0))
              = direct_blocks (fst st)). congruence.
    + change (single_indirect (dec_block_count (fst st0))
              = single_indirect (fst st)). congruence.
    + reflexivity.
  - rewrite free_list_nil, free_and_count_eq. cbn [fst snd].
    destruct (dec_block_count_ptrs (fst st)) as (Hd' & Hs' & Hdd').
    split; [reflexivity|]. split; [exact Hd'|]. split; [exact Hs'|].
    reflexivity.
Qed.

(** [freeFileBlocks] hands the blocks of [blocks_freed] to [freeBlock], in
    that order, and clears the pointers it went through. *)
Lemma freeFileBlocks_spec (a : Allocator) (inode : Inode) (from_block : Z) :
  0 <= from_block ->
  snd (Directory_freeFileBlocks a inode from_block)
  = free_list (blocks_freed (disk_ a) inode from_block) a
  /\ (forall k, 0 <= k ->
        direct_block (fst (Directory_freeFileBlocks a inode from_block)) k
        = if (from_block <=? k) && (k <? NUM_DIRECT_BLOCKS)
          then INVALID_BLOCK else direct_block inode k)
  /\ (from_block <= NUM_DIRECT_BLOCKS ->
      single_indirect (fst (Directory_freeFileBlocks a inode from_block))
      = INVALID_BLOCK)
  /\ (from_block <= NUM_DIRECT_BLOCKS + PTRS_PER_BLOCK ->
      double_indirect (fst (Directory_freeFileBlocks a inode from_block))
      = INVALID_BLOCK).
Proof.
  intros Hfrom. unfold Directory_freeFileBlocks, blocks_freed.
  rewrite !free_list_app.
  destruct (free_direct_spec inode a from_block Hfrom)
    as (Ha1 & Hs1 & Hd1 & Hk1).
  revert Ha1 Hs1 Hd1 Hk1. cbv zeta.
  generalize (free_direct (inode, a) from_block).
  intros st1 Ha1 Hs1 Hd1 Hk1. rewrite <- Ha1, Hs1.
  assert (Hdisk1 : disk_ (snd st1) = disk_ a)
    by (rewrite Ha1; apply free_list_disk).
  (* the single-indirect block *)
  assert (H2 : exists st2,
             (if (from_block <=? NUM_DIRECT_BLOCKS)
                 && negb (single_indirect inode =? INVALID_BLOCK)
              then free_single st1 else st1) = st2
             /\ snd st2
                = free_list
                    (if (from_block <=? NUM_DIRECT_BLOCKS)
                        && is_valid_ptr (single_indirect inode)
                     then indirect_tree (disk_ a) (single_indirect inode)
                     else []) (snd st1)
             /\ direct_blocks (fst st2) = direct_blocks (fst st1)
             /\ (from_block <= NUM_DIRECT_BLOCKS ->
                 single_indirect (fst st2) = INVALID_BLOCK)
             /\ double_indirect (fst st2) = double_indirect inode).
  { eexists. split; [reflexivity|]. unfold is_valid_ptr.
    destruct (Z.leb_spec from_block NUM_DIRECT_BLOCKS); cbn [andb].
    2:{ split; [reflexivity|]. split; [reflexivity|].
        split; [lia|exact Hd1]. }
    destruct (Z.eqb_spec (single_indirect inode) INVALID_BLOCK) as [He|He];
      cbn [negb].
    { split; [reflexivity|]. split; [reflexivity|].
      split; [intros _; congruence|exact Hd1]. }
    destruct (free_single_spec st1) as (F1 & F2 & F3 & F4).
    rewrite F1, Hdisk1, Hs1. split; [reflexivity|].
    split; [exact F2|]. split; [intros _; exact F3|]. congruence. }
  destruct H2 as (st2 & -> & Ha2 & Hk2 & Hs2 & Hd2).
  rewrite <- Ha2, Hd2.
  assert (Hdisk2 : disk_ (snd st2) = disk_ a)
    by (rewrite Ha2, free_list_disk; exact Hdisk1).
  assert (Hdir : forall k, 0 <= k ->
            direct_block (fst st2) k
            = if (from_block <=? k) && (k <? NUM_DIRECT_BLOCKS)
              then INVALID_BLOCK else direct_block inode k).
  { intros k Hk. rewrite <- Hk1 by exact Hk. unfold direct_block.
    rewrite Hk2. reflexivity. }
  (* the double-indirect block *)
  unfold is_valid_ptr.
  destruct (Z.leb_spec from_block (NUM_DIRECT_BLOCKS + PTRS_PER_BLOCK));
    cbn [andb].
  2:{ split; [reflexivity|]. split; [exact Hdir|]. split; [exact Hs2|lia]. }
  destruct (Z.eqb_spec (double_indirect inode) INVALID_BLOCK) as [He|He];
    cbn [negb].
  { split; [reflexivity|]. split; [exact Hdir|]. split; [exact Hs2|].
    intros _. congruence. }
  destruct (free_double_spec st2) as (F1 & F2 & F3 & F4).
  rewrite F1, Hdisk2, Hd2. split; [reflexivity|]. split; [|split].
  - intros k Hk. rewrite <- Hdir by exact Hk. unfold direct_block.
    rewrite F2. reflexivity.
  - intros H12. rewrite F3. apply Hs2. exact H12.
  - intros _. exact F4.
Qed.

(** ** C2: [truncate] *)

(** [getFileBlock] reads the pointers of the inode and the image only. *)
Lemma getFileBlock_ext (a a' : Allocator) (i j : Inode) (k : Z) :
  disk_ a' = disk_ a -> same_ptrs j i ->
  Directory_getFileBlock a' j k = Directory_getFileBlock a i k.
Proof.
  intros Hd Hp. pose proof (direct_block_same_ptrs j i k Hp) as Hk.
  destruct Hp as (_ & Hs & Hdd).
  unfold Directory_getFileBlock, Directory_getIndirectBlock,
    Allocator_readBlockInternal.
  rewrite Hd, Hk, Hs, Hdd. reflexivity.
Qed.

Lemma is_valid_ptr_true (p : Z) : p <> INVALID_BLOCK -> is_valid_ptr p = true.
Proof.
  intros H. unfold is_valid_ptr.
  destruct (Z.eqb_spec p INVALID_BLOCK); [contradiction|reflexivity].
Qed.

(** What a successful [getIndirectBlock] has read. *)
Lemma getIndirectBlock_success (a : Allocator) (p index b : Z) :
  Directory_getIndirectBlock a p index = success b ->
  index < PTRS_PER_BLOCK
  /\ exists blk, DiskImage_readBlock (disk_ a) p = success blk
                 /\ ptr_at blk index = b /\ b <> INVALID_BLOCK.
Proof.
  unfold Directory_getIndirectBlock, Allocator_readBlockInternal.
  destruct (p =? INVALID_BLOCK); [discriminate|].
  destruct (Z.leb_spec PTRS_PER_BLOCK index); [discriminate|]. cbn [orb].
  destruct (DiskImage_readBlock (disk_ a) p) as [blk|e]; [|discriminate].
  destruct (Z.eqb_spec (ptr_at blk index) INVALID_BLOCK) as [Hp|Hp];
    [discriminate|].
  intros [= <-]. split; [assumption|]. exists blk. repeat split. exact Hp.
Qed.

Lemma In_valid_ptrs (blk : Block) (index : Z) :
  0 <= index < PTRS_PER_BLOCK -> ptr_at blk index <> INVALID_BLOCK ->
  In (ptr_at blk index) (valid_ptrs blk).
Proof.
  intros Hi Hp. unfold valid_ptrs. apply filter_In. split.
  - apply in_map. apply In_range; [lia|exact Hi].
  - apply is_valid_ptr_true. exact Hp.
Qed.

(** A block that [getFileBlock] finds at an index from [from_block] on is
    among the blocks handed to [freeBlock], when [from_block] lies in the
    direct pointers or is the first index of the double-indirect tree. *)
Lemma blocks_freed_member (a : Allocator) (inode : Inode)
      (from_block k b : Z) :
  0 <= from_block -> from_block <= k ->
  from_block <= NUM_DIRECT_BLOCKS
  \/ from_block = NUM_DIRECT_BLOCKS + PTRS_PER_BLOCK ->
  Directory_getFileBlock a inode k = success b ->
  In b (blocks_freed (disk_ a) inode from_block).
Proof.
  intros Hfrom Hk Hcase. unfold Directory_getFileBlock, blocks_freed.
  change NUM_DIRECT_BLOCKS with 12 in *. change PTRS_PER_BLOCK with 256 in *.
  destruct (Z.ltb_spec k 12) as [Hk12|Hk12].
  { destruct (Z.eqb_spec (direct_block inode k) INVALID_BLOCK) as [He|He];
      [discriminate|].
    intros [= <-]. apply in_or_app. left. apply filter_In. split.
    - apply in_map. apply In_range; lia.
    - apply is_valid_ptr_true; assumption. }
  intros Hg. apply in_or_app. right. revert Hg.
  destruct (Z.ltb_spec (k - 12) 256) as [Hk268|Hk268].
  { destruct (Z.eqb_spec (single_indirect inode) INVALID_BLOCK) as [He|He];
      [discriminate|].
    intros Hg. apply getIndirectBlock_success in Hg.
    destruct Hg as (_ & blk & Hr & <- & Hp).
    apply in_or_app. left.
    destruct (Z.leb_spec from_block 12); [|lia].
    rewrite (is_valid_ptr_true _ He). cbn [andb].
    unfold indirect_tree. rewrite Hr. apply in_or_app. left.
    apply In_valid_ptrs; [change PTRS_PER_BLOCK with 256; lia|exact Hp]. }
  destruct (Z.ltb_spec (k - 12 - 256) (256 * 256)) as [Hmax|Hmax];
    [|discriminate].
  destruct (Z.eqb_spec (double_indirect inode) INVALID_BLOCK) as [He|He];
    [discriminate|].
  cbv zeta.
  set (l1_index := (k - 12 - 256) / 256).
  set (l2_index := (k - 12 - 256) mod 256).
  assert (H1 : 0 <= l1_index) by (subst l1_index; apply Z.div_pos; lia).
  assert (H2 : 0 <= l2_index)
    by (subst l2_index; apply Z.mod_pos_bound; lia).
  destruct (Directory_getIndirectBlock a (double_indirect inode) l1_index)
    as [l1|e] eqn:Hg1; [|discriminate].
  intros Hg2.
  apply getIndirectBlock_success in Hg1.
  destruct Hg1 as (Hl1 & blk1 & Hr1 & <- & Hp1).
  apply getIndirectBlock_success in Hg2.
  destruct Hg2 as (Hl2 & blk2 & Hr2 & <- & Hp2).
  apply in_or_app. right.
  destruct (Z.leb_spec from_block (12 + 256)); [|lia].
  rewrite (is_valid_ptr_true _ He). cbn [andb].
  unfold double_tree. rewrite Hr1. apply in_or_app. left.
  apply in_flat_map. exists (ptr_at blk1 l1_index). split.
  - apply In_valid_ptrs; [split; assumption|exact Hp1].
  - unfold indirect_tree. rewrite Hr2. apply in_or_app. left.
    apply In_valid_ptrs; [split; assumption|exact Hp2].
Qed.

(** With the pointers from [from_block] on cleared, [getFileBlock] finds
    no block there. *)
Lemma getFileBlock_cleared (a : Allocator) (i : Inode) (from_block k : Z) :
  from_block <= k < maxBlocks ->
  (forall j, from_block <= j < NUM_DIRECT_BLOCKS ->
             direct_block i j = INVALID_BLOCK) ->
  (from_block <= NUM_DIRECT_BLOCKS -> single_indirect i = INVALID_BLOCK) ->
  (from_block <= NUM_DIRECT_BLOCKS + PTRS_PER_BLOCK ->
   double_indirect i = INVALID_BLOCK) ->
  from_block <= NUM_DIRECT_BLOCKS
  \/ from_block = NUM_DIRECT_BLOCKS + PTRS_PER_BLOCK ->
  Directory_getFileBlock a i k = failure E_NOT_FOUND.
Proof.
  unfold maxBlocks, Directory_getFileBlock.
  change NUM_DIRECT_BLOCKS with 12. change PTRS_PER_BLOCK with 256.
  intros Hk Hd Hs Hdd Hcase.
  destruct (Z.ltb_spec k 12).
  { rewrite Hd by lia. reflexivity. }
  destruct (Z.ltb_spec (k - 12) 256).
  { rewrite Hs by lia. reflexivity. }
  destruct (Z.ltb_spec (k - 12 - 256) (256 * 256)); [|lia].
  rewrite Hdd by lia. reflexivity.
Qed.


(** A block read from a sized image has [BLOCK_SIZE] bytes. *)
Lemma readBlockInternal_length (a : Allocator) (b : Z) (blk : Block) :
  disk_sized (disk_ a) -> Allocator_readBlockInternal a b = success blk ->
  length blk = Z.to_nat BLOCK_SIZE.
Proof.
  intros Hs. unfold Allocator_readBlockInternal, DiskImage_readBlock.
  destruct (negb (is_open_ (disk_ a))); [discriminate|].
  destruct (negb (validateBlockNo (disk_ a) b)); [discriminate|].
  intros [= <-]. destruct (file_ (disk_ a) !! b) as [blk|] eqn:Hb; simpl.
  - exact (Hs b blk Hb).
  - reflexivity.
Qed.



(** [writeInode] and [readInode] on an inode that was read before: the
    checks of both pass again in a state with the same superblock fields
    and image. *)
Lemma inode_io (a a1 : Allocator) (id : Z) (inode i' : Inode) :
  Allocator_readInode a id = success inode ->
  loaded_ a1 = loaded_ a ->
  total_inodes (superblock_ a1) = total_inodes (superblock_ a) ->
  inode_table_start (superblock_ a1) = inode_table_start (superblock_ a) ->
  disk_ a1 = disk_ a ->
  Allocator_writeInode a1 id i'
  = (OK, with_inode_table a1 (<[id := i']> (inode_table_ a1)))
  /\ Allocator_readInode
       (with_inode_table a1 (<[id := i']> (inode_table_ a1))) id
     = success i'.
Proof.
  intros Hr Hl Ht Hs Hd.
  unfold Allocator_readInode, Allocator_writeInode, getInodeBlock,
    Allocator_readBlockInternal in *.
  cbn [loaded_ superblock_ disk_ inode_table_ with_inode_table].
  rewrite Hl, Ht, Hs, Hd.
  destruct (negb (loaded_ a)); [discriminate|].
  destruct (total_inodes (superblock_ a) <=? id); [discriminate|].
  destruct (DiskImage_readBlock _ _); [|discriminate].
  rewrite lookup_insert_eq. split; reflexivity.
Qed.





Lemma file_byte_ext (a a' : Allocator) (i j : Inode) (pos : Z) :
  disk_ a' = disk_ a -> same_ptrs j i ->
  file_byte a' j pos = file_byte a i pos.
Proof.
  intros Hd Hp. unfold file_byte.
  rewrite (getFileBlock_ext a a' i j _ Hd Hp).
  unfold Allocator_readBlockInternal. rewrite Hd. reflexivity.
Qed.



(** *** What a file reads when a block of the image is rewritten

    Two states that read the same from every block but [ib] give a file the
    same blocks and the same bytes, as long as [ib] is none of its pointer
    blocks and none of its data blocks.  With [ib] the block of the inode
    record this is what [writeInode] leaves of the image. *)
Lemma getIndirectBlock_frame (a a' : Allocator) (ib p index : Z) :
  (forall b, b <> ib ->
     Allocator_readBlockInternal a' b = Allocator_readBlockInternal a b) ->
  p <> ib ->
  Directory_getIndirectBlock a' p index
  = Directory_getIndirectBlock a p index.
Proof.
  intros Hf Hp. unfold Directory_getIndirectBlock. rewrite (Hf p Hp).
  reflexivity.
Qed.

Lemma getFileBlock_frame (a a' : Allocator) (i j : Inode) (ib k : Z) :
  (forall b, b <> ib ->
     Allocator_readBlockInternal a' b = Allocator_readBlockInternal a b) ->
  same_ptrs j i ->
  ~ In ib (pointer_blocks a i k) ->
  Directory_getFileBlock a' j k = Directory_getFileBlock a i k.
Proof.
  intros Hf Hp Hn. pose proof (direct_block_same_ptrs j i k Hp) as Hk.
  destruct Hp as (_ & Hs & Hdd).
  unfold Directory_getFileBlock, pointer_blocks in *. rewrite Hk, Hs, Hdd.
  destruct (k <? NUM_DIRECT_BLOCKS); [reflexivity|]. cbv zeta.
  destruct (k - NUM_DIRECT_BLOCKS <? PTRS_PER_BLOCK).
  { rewrite (getIndirectBlock_frame a a' ib); [reflexivity|exact Hf|].
    intros E. apply Hn. left. exact E. }
  destruct (k - NUM_DIRECT_BLOCKS - PTRS_PER_BLOCK
            <? PTRS_PER_BLOCK * PTRS_PER_BLOCK); [|reflexivity].
  destruct (double_indirect i =? INVALID_BLOCK); [reflexivity|].
  rewrite (getIndirectBlock_frame a a' ib (double_indirect i));
    [|exact Hf|intros E; apply Hn; left; exact E].
  destruct (Directory_getIndirectBlock a (double_indirect i) _)
    as [l1|e]; [|reflexivity].
  apply (getIndirectBlock_frame a a' ib); [exact Hf|].
  intros E. apply Hn. right. left. exact E.
Qed.



(** Beyond the first block of the double-indirect tree [freeFileBlocks]
    leaves the file as it is. *)
Lemma freeFileBlocks_beyond (a : Allocator) (inode : Inode) (from_block : Z) :
  NUM_DIRECT_BLOCKS + PTRS_PER_BLOCK < from_block ->
  Directory_freeFileBlocks a inode from_block = (inode, a).
Proof.
  intros H. unfold Directory_freeFileBlocks, free_direct, range.
  change NUM_DIRECT_BLOCKS with 12 in *. change PTRS_PER_BLOCK with 256 in *.
  replace (Z.to_nat 12 - Z.to_nat from_block)%nat with 0%nat by lia.
  cbn [seq map fold_left fst snd].
  destruct (Z.leb_spec from_block 12); [lia|].
  destruct (Z.leb_spec from_block (12 + 256)); [lia|]. reflexivity.
Qed.


Lemma bytes_check (l : list Z) :
  forallb (fun c => (0 <=? c) && (c <? 256)) l = true ->
  Forall (fun c => 0 <= c < 256) l.
Proof.
  intros H. apply Forall_forall. intros x Hx. apply list_elem_of_In in Hx.
  rewrite forallb_forall in H. specialize (H x Hx).
  apply andb_true_iff in H. rewrite Z.leb_le, Z.ltb_lt in H. exact H.
Qed.

Lemma ex_hello_ready : alloc_ready ex_hello.
Proof.
  constructor; try (vm_compute; reflexivity);
    try (apply bytes_check; vm_compute; reflexivity);
    try (apply Z.leb_le; vm_compute; reflexivity);
    try (apply Z.ltb_lt; vm_compute; reflexivity).
  split; [apply Z.leb_le|apply Z.ltb_lt]; vm_compute; reflexivity.
Defined.

Lemma disk_sized_check (d : DiskImage) :
  forallb (fun p => (length (snd p) =? Z.to_nat BLOCK_SIZE)%nat)
          (map_to_list (file_ d)) = true ->
  disk_sized d.
Proof.
  intros H b blk Hb. rewrite forallb_forall in H.
  apply elem_of_map_to_list, list_elem_of_In in Hb.
  apply Nat.eqb_eq. exact (H (b, blk) Hb).
Qed.



(** * Further properties of the code *)

(** Closed comparisons and equations of the examples, by computation. *)
Ltac zcompute :=
  match goal with
  | |- _ /\ _ => split; zcompute
  | |- (_ <= _)%Z => apply Z.leb_le; vm_compute; reflexivity
  | |- (_ < _)%Z => apply Z.ltb_lt; vm_compute; reflexivity
  | |- _ => vm_compute; reflexivity
  end.

(** ** FSTypes.h: [Bitmap] *)

(** X1.  [set] and [clear] change the bit they are given and no other bit:
    for an index inside the bitmap, [get] after [set] is true and [get]
    after [clear] is false at that index, and both leave every other index as
    it was.  At an index outside the bitmap [get] is false and [set] and
    [clear] leave the bytes untouched. *)
Theorem Bitmap_bit_update (data : list Z) (total i : Z) :
  (0 <= i < total -> (Z.to_nat (i / 8) < length data)%nat ->
   forall j, 0 <= j ->
     Bitmap_get (Bitmap_set data total i) total j
     = (if j =? i then true else Bitmap_get data total j)
     /\ Bitmap_get (Bitmap_clear data total i) total j
        = (if j =? i then false else Bitmap_get data total j))
  /\ (total <= i ->
      Bitmap_get data total i = false
      /\ Bitmap_set data total i = data
      /\ Bitmap_clear data total i = data).
Proof.
  split.
  - intros Hi Hlen j Hj. destruct (Z.eqb_spec j i) as [->|Hne]; split.
    + apply Bitmap_get_set_same; assumption.
    + apply Bitmap_get_clear_same; lia.
    + apply Bitmap_get_set_other; lia.
    + apply Bitmap_get_clear_other; lia.
  - intros Hi. unfold Bitmap_get, Bitmap_set, Bitmap_clear.
    destruct (Z.leb_spec total i); [|lia]. repeat split.
Qed.

Lemma Bitmap_bit_update_witness :
  Bitmap_get (Bitmap_set [5; 0] 16 9) 16 9 = true
  /\ Bitmap_get (Bitmap_set [5; 0] 16 9) 16 2 = true
  /\ Bitmap_get (Bitmap_clear [5; 0] 16 2) 16 2 = false
  /\ Bitmap_set [5; 0] 16 16 = [5; 0].
Proof.
  destruct (Bitmap_bit_update [5; 0] 16 9) as [H _].
  destruct (Bitmap_bit_update [5; 0] 16 2) as [H2 _].
  destruct (Bitmap_bit_update [5; 0] 16 16) as [_ H16].
  split; [exact (proj1 (H ltac:(lia) ltac:(apply Nat.ltb_lt; reflexivity) 9 ltac:(lia)))|].
  split; [exact (proj1 (H ltac:(lia) ltac:(apply Nat.ltb_lt; reflexivity) 2 ltac:(lia)))|].
  split; [exact (proj2 (H2 ltac:(lia) ltac:(apply Nat.ltb_lt; reflexivity) 2 ltac:(lia)))|].
  exact (proj1 (proj2 (H16 ltac:(lia)))).
Defined.

(** X2.  For a bitmap of [total_bits] bits, a [uint32_t], [findFirstFree]
    returns [-1] exactly when every bit is set.  Otherwise it returns the
    least index [k] whose bit is clear, cast to [int32_t]: [k] itself when
    [k] is below 2^31, which is so in every bitmap of at most 2^31 bits, and
    the negative number [k - 2^32], below [-1], from 2^31 on. *)
Theorem Bitmap_findFirstFree_least (data : list Z) (total : Z) :
  0 <= total < 4294967296 ->
  (Bitmap_findFirstFree data total = -1
   /\ forall j, 0 <= j < total -> Bitmap_get data total j = true)
  \/ (exists k,
        0 <= k < total
        /\ Bitmap_get data total k = false
        /\ (forall j, 0 <= j < k -> Bitmap_get data total j = true)
        /\ Bitmap_findFirstFree data total = i32 k
        /\ Bitmap_findFirstFree data total <> -1
        /\ (k < 2147483648 -> Bitmap_findFirstFree data total = k)
        /\ (2147483648 <= k ->
            Bitmap_findFirstFree data total = k - 4294967296
            /\ Bitmap_findFirstFree data total < -1)).
Proof.
  intros Ht. unfold Bitmap_findFirstFree.
  pose proof (findFirstFree_from_cast data total (Z.to_nat total) 0) as H.
  cbv zeta in H. rewrite Z2Nat.id in H by lia.
  destruct H as [[Hr Hall]|(k & Hk & Hr & Hb & Hlow)].
  - left. split; [exact Hr|]. intros j Hj. apply Hall. lia.
  - right. exists k. split; [lia|]. split; [exact Hb|].
    split; [intros j Hj; apply Hlow; lia|]. split; [exact Hr|].
    rewrite Hr. unfold i32.
    destruct (Z.ltb_spec k 2147483648); repeat split; lia.
Qed.

Lemma Bitmap_findFirstFree_least_witness :
  Bitmap_findFirstFree [255; 3] 16 = 10
  /\ Bitmap_findFirstFree [255; 255] 16 = -1.
Proof.
  split.
  - destruct (Bitmap_findFirstFree_least [255; 3] 16 ltac:(lia))
      as [[H _]|_]; [vm_compute in H; discriminate H|reflexivity].
  - destruct (Bitmap_findFirstFree_least [255; 255] 16 ltac:(lia))
      as [[H _]|(k & _ & _ & _ & _ & H & _)]; [exact H|].
    exfalso. apply H. reflexivity.
Defined.

Lemma In_zrange (n : nat) : forall i x,
  In x (zrange i n) <-> i <= x < i + Z.of_nat n.
Proof.
  induction n as [|n IH]; intros i x; cbn [zrange In].
  - lia.
  - rewrite IH. lia.
Qed.

Lemma NoDup_zrange (n : nat) : forall i, List.NoDup (zrange i n).
Proof.
  induction n as [|n IH]; intros i; cbn [zrange]; constructor.
  - rewrite In_zrange. lia.
  - apply IH.
Qed.

Lemma length_zrange (n : nat) : forall i, length (zrange i n) = n.
Proof. induction n as [|n IH]; intros i; cbn; [|rewrite IH]; reflexivity. Qed.

Lemma filter_length_le {A} (f : A -> bool) (l : list A) :
  (length (List.filter f l) <= length l)%nat.
Proof.
  induction l as [|x l IH]; cbn; [lia|]. destruct (f x); cbn; lia.
Qed.

(** The counter of [countUsed] does not wrap: it counts the set bits. *)
Lemma countUsed_from_spec (data : list Z) (total : Z) (n : nat) :
  forall i c, 0 <= c -> c + Z.of_nat n < 4294967296 ->
    countUsed_from data total n i c
    = c + Z.of_nat (length (List.filter (Bitmap_get data total)
                                        (zrange i n))).
Proof.
  induction n as [|n IH]; intros i c Hc Hn; cbn [countUsed_from zrange].
  - cbn. lia.
  - cbn [List.filter]. destruct (Bitmap_get data total i).
    + rewrite u32_small by lia. rewrite IH by lia. cbn [length]. lia.
    + rewrite IH by lia. reflexivity.
Qed.

Lemma Bitmap_countUsed_spec (data : list Z) (total : Z) :
  0 <= total < 4294967296 ->
  Bitmap_countUsed data total
  = Z.of_nat (length (List.filter (Bitmap_get data total)
                                  (zrange 0 (Z.to_nat total)))).
Proof.
  intros Ht. unfold Bitmap_countUsed. rewrite countUsed_from_spec by lia.
  lia.
Qed.

(** Two tests that differ at one element of a list without repetition. *)
Lemma filter_length_update {A} (f g : A -> bool) (l : list A) (x : A) :
  List.NoDup l -> In x l -> f x = false -> g x = true ->
  (forall y, y <> x -> In y l -> g y = f y) ->
  length (List.filter g l) = S (length (List.filter f l)).
Proof.
  intros Hnd. induction Hnd as [|y l Hy Hnd IH]; intros Hin Hf Hg Hother.
  - destruct Hin.
  - cbn [List.filter]. destruct Hin as [->|Hin].
    + rewrite Hf, Hg. cbn [length]. f_equal. f_equal.
      apply filter_ext_in. intros z Hz. apply Hother; [|right; exact Hz].
      intros ->. contradiction.
    + assert (Hne : y <> x) by (intros ->; contradiction).
      rewrite (Hother y Hne (or_introl eq_refl)).
      destruct (f y); cbn [length]; [f_equal|];
        apply IH; try assumption; intros z Hz Hzl; apply Hother;
          try assumption; right; assumption.
Qed.

Lemma Bitmap_countUsed_le (data : list Z) (total : Z) :
  0 <= total < 4294967296 -> 0 <= Bitmap_countUsed data total <= total.
Proof.
  intros Ht. rewrite Bitmap_countUsed_spec by lia.
  pose proof (filter_length_le (Bitmap_get data total)
                               (zrange 0 (Z.to_nat total))) as H.
  rewrite length_zrange in H. lia.
Qed.

Lemma Bitmap_countUsed_ext (data data' : list Z) (total : Z) :
  0 <= total < 4294967296 ->
  (forall j, 0 <= j < total ->
             Bitmap_get data total j = Bitmap_get data' total j) ->
  Bitmap_countUsed data total = Bitmap_countUsed data' total.
Proof.
  intros Ht Hext. rewrite !Bitmap_countUsed_spec by lia. f_equal. f_equal.
  apply filter_ext_in. intros j Hj. apply In_zrange in Hj. apply Hext. lia.
Qed.

Lemma Bitmap_countUsed_set (data : list Z) (total i : Z) :
  0 <= i < total -> total < 4294967296 ->
  (Z.to_nat (i / 8) < length data)%nat ->
  Bitmap_get data total i = false ->
  Bitmap_countUsed (Bitmap_set data total i) total
  = Bitmap_countUsed data total + 1.
Proof.
  intros Hi Ht Hlen Hbit. rewrite !Bitmap_countUsed_spec by lia.
  rewrite (filter_length_update (Bitmap_get data total)
             (Bitmap_get (Bitmap_set data total i) total)
             (zrange 0 (Z.to_nat total)) i); try assumption.
  - lia.
  - apply NoDup_zrange.
  - apply In_zrange. lia.
  - apply Bitmap_get_set_same; assumption.
  - intros y Hne Hy. apply In_zrange in Hy.
    apply Bitmap_get_set_other; [lia|lia|congruence].
Qed.

Lemma Bitmap_countUsed_clear (data : list Z) (total i : Z) :
  0 <= i < total -> total < 4294967296 ->
  Bitmap_get data total i = true ->
  Bitmap_countUsed (Bitmap_clear data total i) total
  = Bitmap_countUsed data total - 1.
Proof.
  intros Hi Ht Hbit. rewrite !Bitmap_countUsed_spec by lia.
  rewrite (filter_length_update
             (Bitmap_get (Bitmap_clear data total i) total)
             (Bitmap_get data total)
             (zrange 0 (Z.to_nat total)) i); try assumption.
  - lia.
  - apply NoDup_zrange.
  - apply In_zrange. lia.
  - apply Bitmap_get_clear_same; lia.
  - intros y Hne Hy. apply In_zrange in Hy. symmetry.
    apply Bitmap_get_clear_other; [lia|lia|congruence].
Qed.

(** X3.  [countUsed] is the number of set bits: it is at most the size of
    the bitmap, [countUsed + countFree] is that size, setting a clear bit
    adds one to it and clearing a set bit takes one off. *)
Theorem Bitmap_countUsed_update (data : list Z) (total i : Z) :
  0 <= i < total -> total < 4294967296 ->
  (Z.to_nat (i / 8) < length data)%nat ->
  0 <= Bitmap_countUsed data total <= total
  /\ Bitmap_countUsed data total + Bitmap_countFree data total = total
  /\ (Bitmap_get data total i = false ->
      Bitmap_countUsed (Bitmap_set data total i) total
      = Bitmap_countUsed data total + 1)
  /\ (Bitmap_get data total i = true ->
      Bitmap_countUsed (Bitmap_clear data total i) total
      = Bitmap_countUsed data total - 1).
Proof.
  intros Hi Ht Hlen.
  pose proof (Bitmap_countUsed_le data total ltac:(lia)) as Hle.
  split; [exact Hle|]. split; [|split].
  - unfold Bitmap_countFree. rewrite u32_small by lia. lia.
  - apply Bitmap_countUsed_set; assumption.
  - apply Bitmap_countUsed_clear; assumption.
Qed.

Lemma Bitmap_countUsed_update_witness :
  Bitmap_countUsed [5; 0] 16 = 2
  /\ Bitmap_countUsed (Bitmap_set [5; 0] 16 9) 16 = 3
  /\ Bitmap_countUsed (Bitmap_clear [5; 0] 16 2) 16 = 1
  /\ Bitmap_countFree [5; 0] 16 = 14.
Proof.
  destruct (Bitmap_countUsed_update [5; 0] 16 9 ltac:(lia) ltac:(lia)
              ltac:(apply Nat.ltb_lt; reflexivity)) as (_ & Hsum & Hset & _).
  destruct (Bitmap_countUsed_update [5; 0] 16 2 ltac:(lia) ltac:(lia)
              ltac:(apply Nat.ltb_lt; reflexivity)) as (_ & _ & _ & Hclear).
  assert (H2 : Bitmap_countUsed [5; 0] 16 = 2) by reflexivity.
  split; [exact H2|]. split; [|split].
  - rewrite (Hset eq_refl), H2. reflexivity.
  - rewrite (Hclear eq_refl), H2. reflexivity.
  - rewrite H2 in Hsum. lia.
Defined.

(** ** DiskImage.cpp *)

Lemma DiskImage_writeBlock_ok (d : DiskImage) (n : Z) (buf : Block) :
  is_open_ d = true -> n < total_blocks_ d ->
  DiskImage_writeBlock d n buf
  = (OK, mkDisk true (total_blocks_ d) (<[n := buf]> (file_ d))).
Proof.
  intros Ho Hn. unfold DiskImage_writeBlock, validateBlockNo. rewrite Ho.
  destruct (Z.ltb_spec n (total_blocks_ d)); [reflexivity|lia].
Qed.

Lemma DiskImage_read_after_write (d : DiskImage) (n b : Z) (buf : Block) :
  is_open_ d = true -> n < total_blocks_ d ->
  DiskImage_readBlock
    (mkDisk true (total_blocks_ d) (<[n := buf]> (file_ d))) b
  = if b =? n then success buf else DiskImage_readBlock d b.
Proof.
  intros Ho Hn. unfold DiskImage_readBlock, validateBlockNo. rewrite Ho.
  cbn [is_open_ total_blocks_ file_ negb].
  destruct (Z.eqb_spec b n) as [->|Hne].
  - destruct (Z.ltb_spec n (total_blocks_ d)); [|lia]. cbn [negb].
    rewrite lookup_insert_eq. reflexivity.
  - destruct (b <? total_blocks_ d); [|reflexivity]. cbn [negb].
    rewrite lookup_insert_ne by congruence. reflexivity.
Qed.

(** X4.  On an open image a block written inside the image is read back as
    written, and the write leaves every other block as it was.  A write or
    a read outside the image, or on a closed image, returns
    [E_INVALID_PARAM], and the write changes nothing. *)
Theorem DiskImage_write_read (d : DiskImage) (b : Z) (buf : Block) :
  (is_open_ d = true -> b < total_blocks_ d ->
   exists d',
     DiskImage_writeBlock d b buf = (OK, d')
     /\ DiskImage_readBlock d' b = success buf
     /\ forall b', b' <> b ->
                   DiskImage_readBlock d' b' = DiskImage_readBlock d b')
  /\ (is_open_ d = false \/ total_blocks_ d <= b ->
      DiskImage_writeBlock d b buf = (E_INVALID_PARAM, d)
      /\ DiskImage_readBlock d b = failure E_INVALID_PARAM).
Proof.
  split.
  - intros Ho Hb. eexists. split; [apply DiskImage_writeBlock_ok; assumption|].
    split.
    + rewrite DiskImage_read_after_write by assumption.
      rewrite Z.eqb_refl. reflexivity.
    + intros b' Hne. rewrite DiskImage_read_after_write by assumption.
      destruct (Z.eqb_spec b' b); [contradiction|reflexivity].
  - unfold DiskImage_writeBlock, DiskImage_readBlock, validateBlockNo.
    intros [->|Hb]; [split; reflexivity|].
    destruct (is_open_ d); [|split; reflexivity].
    destruct (Z.ltb_spec b (total_blocks_ d)); [lia|]. split; reflexivity.
Qed.

Lemma DiskImage_write_read_witness :
  (exists d', DiskImage_writeBlock ex_disk 9 ex_sevens = (OK, d')
              /\ DiskImage_readBlock d' 9 = success ex_sevens
              /\ DiskImage_readBlock d' 8 = success ex_root_block)
  /\ DiskImage_writeBlock ex_disk 64 ex_sevens = (E_INVALID_PARAM, ex_disk).
Proof.
  destruct (DiskImage_write_read ex_disk 9 ex_sevens) as [H _].
  destruct (DiskImage_write_read ex_disk 64 ex_sevens) as [_ H'].
  split.
  - destruct (H eq_refl ltac:(cbn; lia)) as (d' & Hw & Hr & Hother).
    exists d'. split; [exact Hw|]. split; [exact Hr|].
    rewrite Hother by lia. reflexivity.
  - apply H'. right. cbn. lia.
Defined.

Lemma zeroBlocks_from_spec (start_block total : Z) (n : nat) :
  forall (i : Z) (d : DiskImage),
    is_open_ d = true -> total_blocks_ d = total ->
    0 <= start_block -> 0 <= i ->
    start_block + i + Z.of_nat n < 4294967296 ->
    let r := zeroBlocks_from d start_block n i in
    fst r = (if (Z.of_nat n =? 0) || (start_block + i + Z.of_nat n <=? total)
             then OK else E_INVALID_PARAM)
    /\ forall b,
         DiskImage_readBlock (snd r) b
         = if (start_block + i <=? b) && (b <? start_block + i + Z.of_nat n)
              && (b <? total)
           then success zero_block else DiskImage_readBlock d b.
Proof.
  induction n as [|n IH]; intros i d Ho Ht Hs Hi Hmax; cbv zeta.
  - cbn [zeroBlocks_from fst snd]. split; [reflexivity|]. intros b.
    destruct (Z.leb_spec (start_block + i) b);
      destruct (Z.ltb_spec b (start_block + i + Z.of_nat 0));
      cbn [andb]; try reflexivity; lia.
  - cbn [zeroBlocks_from]. unfold DiskImage_zeroBlock.
    rewrite u32_small by lia.
    destruct (Z.eqb_spec (Z.of_nat (S n)) 0); [lia|]. cbn [orb].
    destruct (Z.ltb_spec (start_block + i) total) as [Hin|Hout].
    + rewrite DiskImage_writeBlock_ok by (try assumption; lia).
      set (d1 := mkDisk true (total_blocks_ d)
                        (<[start_block + i := zero_block]> (file_ d))).
      destruct (IH (i + 1) d1 eq_refl Ht Hs ltac:(lia) ltac:(lia))
        as [Hr Hb].
      split.
      * rewrite Hr.
        destruct (Z.eqb_spec (Z.of_nat n) 0) as [Hz|Hz]; cbn [orb].
        -- destruct (Z.leb_spec (start_block + i + Z.of_nat (S n)) total);
             [reflexivity|lia].
        -- destruct (Z.leb_spec (start_block + (i + 1) + Z.of_nat n) total);
             destruct (Z.leb_spec (start_block + i + Z.of_nat (S n)) total);
             try reflexivity; lia.
      * intros b. rewrite Hb. subst d1.
        rewrite DiskImage_read_after_write by (try assumption; lia).
        destruct (Z.leb_spec (start_block + (i + 1)) b);
          destruct (Z.ltb_spec b (start_block + (i + 1) + Z.of_nat n));
          destruct (Z.ltb_spec b total);
          destruct (Z.leb_spec (start_block + i) b);
          destruct (Z.ltb_spec b (start_block + i + Z.of_nat (S n)));
          destruct (Z.eqb_spec b (start_block + i));
          cbn [andb]; try reflexivity; lia.
    + unfold DiskImage_writeBlock, validateBlockNo. rewrite Ho, Ht.
      destruct (Z.ltb_spec (start_block + i) total); [lia|].
      cbn [negb fst snd]. split.
      * destruct (Z.leb_spec (start_block + i + Z.of_nat (S n)) total);
          [lia|reflexivity].
      * intros b.
        destruct (Z.leb_spec (start_block + i) b);
          destruct (Z.ltb_spec b total); cbn [andb];
          try reflexivity; try lia.
        destruct (b <? start_block + i + Z.of_nat (S n)); reflexivity.
Qed.

(** X5.  [zeroBlocks] is not atomic: on an open image it zeroes the blocks
    of the range that lie inside the image, leaves every other block as it
    was, and returns [OK] when the range is empty or ends inside the
    image and [E_INVALID_PARAM] otherwise, the blocks before the end of the
    image staying zeroed. *)
Theorem DiskImage_zeroBlocks_spec (d : DiskImage) (start_block count : Z) :
  is_open_ d = true -> 0 <= start_block -> 0 <= count ->
  start_block + count < 4294967296 ->
  fst (DiskImage_zeroBlocks d start_block count)
  = (if (count =? 0) || (start_block + count <=? total_blocks_ d)
     then OK else E_INVALID_PARAM)
  /\ forall b,
       DiskImage_readBlock (snd (DiskImage_zeroBlocks d start_block count)) b
       = if (start_block <=? b) && (b <? start_block + count)
            && (b <? total_blocks_ d)
         then success zero_block else DiskImage_readBlock d b.
Proof.
  intros Ho Hs Hc Hmax. unfold DiskImage_zeroBlocks.
  destruct (zeroBlocks_from_spec start_block (total_blocks_ d)
              (Z.to_nat count) 0 d Ho eq_refl Hs ltac:(lia) ltac:(lia))
    as [Hr Hb].
  rewrite Z2Nat.id, Z.add_0_r in * by lia. split; [exact Hr|exact Hb].
Qed.

Lemma DiskImage_zeroBlocks_spec_witness :
  fst (DiskImage_zeroBlocks ex_disk 62 4) = E_INVALID_PARAM
  /\ DiskImage_readBlock (snd (DiskImage_zeroBlocks ex_disk 62 4)) 63
     = success zero_block
  /\ fst (DiskImage_zeroBlocks ex_disk 8 1) = OK
  /\ DiskImage_readBlock (snd (DiskImage_zeroBlocks ex_disk 8 1)) 8
     = success zero_block.
Proof.
  destruct (DiskImage_zeroBlocks_spec ex_disk 62 4 eq_refl ltac:(lia)
              ltac:(lia) ltac:(lia)) as [H1 H2].
  destruct (DiskImage_zeroBlocks_spec ex_disk 8 1 eq_refl ltac:(lia)
              ltac:(lia) ltac:(lia)) as [H3 H4].
  split; [rewrite H1; reflexivity|]. split; [rewrite H2; reflexivity|].
  split; [rewrite H3; reflexivity|]. rewrite H4. reflexivity.
Defined.

(** ** Allocator.cpp: data blocks *)

Lemma ready_byte_index (a : Allocator) (j : Z) :
  alloc_ready a -> 0 <= j < data_block_count (superblock_ a) ->
  (Z.to_nat (j / 8) < length (block_bitmap_ a))%nat.
Proof.
  intros R Hj. destruct R.
  assert (j / 8 < Z.of_nat (length (block_bitmap_ a)))
    by (apply Z.div_lt_upper_bound; lia).
  assert (0 <= j / 8) by (apply Z.div_pos; lia). lia.
Qed.

(** What [isBlockAllocated], [getBlockRef] and [readBlockInternal] see of
    the state after a successful [allocBlock]. *)
Lemma allocated_state_seen (a : Allocator) (j x : Z) :
  alloc_ready a -> 0 <= j < data_block_count (superblock_ a) ->
  let b := data_block_start (superblock_ a) + j in
  let a' := allocated_state a j in
  Allocator_isBlockAllocated a' x
  = (if x =? b then true else Allocator_isBlockAllocated a x)
  /\ Allocator_getBlockRef a' x
     = (if x =? b then 1 else Allocator_getBlockRef a x)
  /\ Allocator_readBlockInternal a' x
     = (if x =? b then success zero_block
        else Allocator_readBlockInternal a x).
Proof.
  intros R Hj b a'.
  pose proof (ready_byte_index a j R Hj) as Hbyte.
  destruct (isValidDataBlock_of_index a j R Hj) as [Hvb Hib].
  fold b in Hvb, Hib.
  pose proof (isValidDataBlock_index a x R) as Hx.
  assert (Hb : b < total_blocks_ (disk_ a)) by (destruct R; subst b; lia).
  unfold Allocator_isBlockAllocated, Allocator_getBlockRef,
    Allocator_readBlockInternal.
  change (loaded_ a') with (loaded_ a).
  change (refcount_enabled_ a') with (refcount_enabled_ a).
  change (isValidDataBlock a' x) with (isValidDataBlock a x).
  change (absoluteToDataBlock a' x) with (absoluteToDataBlock a x).
  change (data_block_count (superblock_ a'))
    with (data_block_count (superblock_ a)).
  change (refcount_size a') with (refcount_size (set_refcount a j 1)).
  rewrite refcount_size_set.
  change (block_bitmap_ a')
    with (Bitmap_set (block_bitmap_ a) (data_block_count (superblock_ a)) j).
  change (refcount_at a' (absoluteToDataBlock a x))
    with (refcount_at (set_refcount a j 1) (absoluteToDataBlock a x)).
  change (disk_ a')
    with (mkDisk (is_open_ (disk_ a)) (total_blocks_ (disk_ a))
                 (<[b := zero_block]> (file_ (disk_ a)))).
  rewrite (ready_loaded a R), (ready_enabled a R), (ready_table a R).
  cbn [negb orb].
  destruct (Z.eqb_spec x b) as [->|Hne].
  - rewrite Hvb, Hib. cbn [negb].
    destruct (Z.leb_spec (data_block_count (superblock_ a)) j); [lia|].
    split; [apply Bitmap_get_set_same; [lia|exact Hbyte]|].
    split.
    + apply refcount_at_set_same. rewrite (ready_table a R). exact Hj.
    + unfold DiskImage_readBlock, validateBlockNo.
      cbn [is_open_ total_blocks_ file_]. rewrite (ready_open a R).
      destruct (Z.ltb_spec b (total_blocks_ (disk_ a))); [|lia].
      cbn [negb]. rewrite lookup_insert_eq. reflexivity.
  - split; [|split].
    + destruct (isValidDataBlock a x) eqn:Hv; cbn [negb]; [|reflexivity].
      destruct (Hx eq_refl) as (Hk & Hrange & _). rewrite Hk.
      apply Bitmap_get_set_other; lia.
    + destruct (isValidDataBlock a x) eqn:Hv; cbn [negb]; [|reflexivity].
      destruct (Hx eq_refl) as (Hk & Hrange & _). rewrite Hk.
      destruct (Z.leb_spec (data_block_count (superblock_ a))
                           (x - data_block_start (superblock_ a)));
        [reflexivity|].
      apply refcount_at_set_other; lia.
    + unfold DiskImage_readBlock, validateBlockNo.
      cbn [is_open_ total_blocks_ file_].
      destruct (negb (is_open_ (disk_ a))); [reflexivity|].
      destruct (negb (x <? total_blocks_ (disk_ a))); [reflexivity|].
      rewrite lookup_insert_ne by congruence. reflexivity.
Qed.

(** X6.  On a loaded allocator that has a free block, [allocBlock] hands
    out the lowest free data block: the block was free, it is allocated
    afterwards with reference count 1 and zeroed content, the counters move
    by one, and every other block keeps its allocation bit, its reference
    count and its content. *)
Theorem allocBlock_spec (a : Allocator) :
  alloc_ready a -> has_free_block a ->
  exists b a',
    Allocator_allocBlock a = (success b, a')
    /\ Allocator_isBlockAllocated a b = false
    /\ (forall x, data_block_start (superblock_ a) <= x < b ->
                  Allocator_isBlockAllocated a x = true)
    /\ Allocator_isBlockAllocated a' b = true
    /\ Allocator_getBlockRef a' b = 1
    /\ Allocator_readBlockInternal a' b = success zero_block
    /\ free_blocks (superblock_ a') = u32 (free_blocks (superblock_ a) - 1)
    /\ used_blocks (superblock_ a') = u32 (used_blocks (superblock_ a) + 1)
    /\ forall x, x <> b ->
         Allocator_isBlockAllocated a' x = Allocator_isBlockAllocated a x
         /\ Allocator_getBlockRef a' x = Allocator_getBlockRef a x
         /\ Allocator_readBlockInternal a' x
            = Allocator_readBlockInternal a x.
Proof.
  intros R Hfree.
  destruct (findFreeBlock_free a R Hfree) as [Hj Hbit].
  exists (data_block_start (superblock_ a) + findFreeBlock a),
         (allocated_state a (findFreeBlock a)).
  split; [apply allocBlock_success; assumption|].
  destruct (isValidDataBlock_of_index a _ R Hj) as [Hvb Hib].
  split; [|split].
  - unfold Allocator_isBlockAllocated. rewrite (ready_loaded a R), Hvb, Hib.
    exact Hbit.
  - intros x Hx.
    assert (Hxj : 0 <= x - data_block_start (superblock_ a)
                  < data_block_count (superblock_ a)) by lia.
    destruct (isValidDataBlock_of_index a _ R Hxj) as [Hvx Hix].
    replace (data_block_start (superblock_ a)
             + (x - data_block_start (superblock_ a))) with x in * by lia.
    unfold Allocator_isBlockAllocated. rewrite (ready_loaded a R), Hvx, Hix.
    cbn [negb orb]. unfold findFreeBlock in *.
    pose proof (ready_count a R) as Hc.
    pose proof (findFirstFree_from_spec (block_bitmap_ a)
                  (data_block_count (superblock_ a))
                  (Z.to_nat (data_block_count (superblock_ a))) 0
                  ltac:(lia)) as Hspec.
    cbv zeta in Hspec.
    fold (Bitmap_findFirstFree (block_bitmap_ a)
                               (data_block_count (superblock_ a))) in Hspec.
    destruct Hspec as [[Hr _]|(Hr & _ & Hlow)].
    + rewrite Hr in Hj. vm_compute in Hj. destruct Hj as [Hj _].
      exfalso. apply Hj. reflexivity.
    + apply Hlow. lia.
  - destruct (allocated_state_seen a (findFreeBlock a)
                (data_block_start (superblock_ a) + findFreeBlock a) R Hj)
      as (H1 & H2 & H3).
    rewrite Z.eqb_refl in H1, H2, H3.
    split; [exact H1|]. split; [exact H2|]. split; [exact H3|].
    split; [reflexivity|]. split; [reflexivity|].
    intros x Hne.
    destruct (allocated_state_seen a (findFreeBlock a) x R Hj)
      as (G1 & G2 & G3).
    destruct (Z.eqb_spec x (data_block_start (superblock_ a)
                            + findFreeBlock a)); [contradiction|].
    split; [exact G1|]. split; [exact G2|exact G3].
Qed.

Lemma ex_alloc_ready : alloc_ready ex_alloc.
Proof.
  constructor; try reflexivity; try (cbn; lia).
  apply Forall_forall. intros x Hx. apply list_elem_of_In in Hx.
  apply repeat_spec in Hx. lia.
Defined.

Lemma ex_alloc_free : has_free_block ex_alloc.
Proof.
  split; [discriminate|]. exists 1. split; [cbn; lia|reflexivity].
Defined.

Lemma allocBlock_spec_witness :
  exists a', Allocator_allocBlock ex_alloc = (success 9, a')
             /\ Allocator_isBlockAllocated a' 9 = true
             /\ Allocator_isBlockAllocated a' 8 = true
             /\ Allocator_isBlockAllocated a' 10 = false.
Proof.
  destruct (allocBlock_spec ex_alloc ex_alloc_ready ex_alloc_free)
    as (b & a' & Hrun & _ & _ & Hb & _ & _ & _ & _ & Hother).
  assert (Hnine : b = 9).
  { assert (H : fst (Allocator_allocBlock ex_alloc) = success 9)
      by (vm_compute; reflexivity).
    rewrite Hrun in H. cbn in H. congruence. }
  subst b. exists a'. split; [exact Hrun|]. split; [exact Hb|]. split.
  - rewrite (proj1 (Hother 8 ltac:(lia))). reflexivity.
  - rewrite (proj1 (Hother 10 ltac:(lia))). reflexivity.
Defined.

Lemma allocBlock_no_space_eq (a : Allocator) :
  loaded_ a = true ->
  0 <= data_block_count (superblock_ a) ->
  free_blocks (superblock_ a) = 0
  \/ (forall j, 0 <= j < data_block_count (superblock_ a) ->
                Bitmap_get (block_bitmap_ a)
                           (data_block_count (superblock_ a)) j = true) ->
  Allocator_allocBlock a = (failure E_NO_SPACE, a).
Proof.
  intros Hl Hc Hfull. unfold Allocator_allocBlock. rewrite Hl. cbn [negb].
  destruct (Z.eqb_spec (free_blocks (superblock_ a)) 0) as [|Hfree];
    [reflexivity|].
  destruct Hfull as [|Hall]; [contradiction|]. cbv zeta.
  unfold findFreeBlock.
  pose proof (findFirstFree_from_cast (block_bitmap_ a)
                (data_block_count (superblock_ a))
                (Z.to_nat (data_block_count (superblock_ a))) 0) as Hspec.
  cbv zeta in Hspec.
  fold (Bitmap_findFirstFree (block_bitmap_ a)
                             (data_block_count (superblock_ a))) in Hspec.
  destruct Hspec as [[-> _]|(k & Hk & _ & Hb & _)]; [reflexivity|].
  rewrite Hall in Hb by lia. discriminate Hb.
Qed.

Lemma allocBlock_no_space_state (a : Allocator) :
  loaded_ a = true ->
  0 <= data_block_count (superblock_ a) ->
  free_blocks (superblock_ a) = 0
  \/ (forall j, 0 <= j < data_block_count (superblock_ a) ->
                Bitmap_get (block_bitmap_ a)
                           (data_block_count (superblock_ a)) j = true) ->
  snd (Allocator_allocBlock a) = a.
Proof.
  intros Hl Hc Hfull. rewrite allocBlock_no_space_eq by assumption.
  reflexivity.
Qed.

(** X7.  When the free counter is zero or every bit of the block bitmap is
    set, [allocBlock] returns [E_NO_SPACE] and leaves the allocator as it
    was. *)
Theorem allocBlock_no_space (a : Allocator) :
  loaded_ a = true ->
  0 <= data_block_count (superblock_ a) ->
  free_blocks (superblock_ a) = 0
  \/ (forall j, 0 <= j < data_block_count (superblock_ a) ->
                Bitmap_get (block_bitmap_ a)
                           (data_block_count (superblock_ a)) j = true) ->
  Allocator_allocBlock a = (failure E_NO_SPACE, a).
Proof. exact (allocBlock_no_space_eq a). Qed.

Lemma allocBlock_no_space_witness :
  Allocator_allocBlock
    (with_superblock ex_alloc (set_block_counters ex_superblock 0 56) false)
  = (failure E_NO_SPACE,
     with_superblock ex_alloc (set_block_counters ex_superblock 0 56) false).
Proof.
  apply allocBlock_no_space; [reflexivity|cbn; lia|left; reflexivity].
Defined.

(** Clearing a bit that was set on a clear bit gives the bytes back. *)
Lemma Bitmap_clear_set (data : list Z) (total i : Z) :
  0 <= i -> Bitmap_get data total i = false ->
  (Z.to_nat (i / 8) < length data)%nat ->
  Bitmap_clear (Bitmap_set data total i) total i = data.
Proof.
  intros Hi Hbit Hlen. unfold Bitmap_clear, Bitmap_set.
  destruct (Z.leb_spec total i) as [|Hlt]; [reflexivity|].
  rewrite nth_insert_same by exact Hlen.
  rewrite list_insert_insert_eq.
  rewrite Bitmap_get_testbit in Hbit by exact Hi.
  destruct (Z.ltb_spec i total); [|lia]. cbn [andb] in Hbit.
  assert (Hm : 0 <= i mod 8) by (apply Z.mod_pos_bound; lia).
  set (x := nth (Z.to_nat (i / 8)) data 0) in *.
  assert (Hx : Z.land (Z.lor x (Z.shiftl 1 (i mod 8)))
                      (Z.lnot (Z.shiftl 1 (i mod 8))) = x).
  { apply Z.bits_inj'. intros t Ht. rewrite testbit_clear by lia.
    rewrite testbit_set by lia.
    destruct (Z.eqb_spec t (i mod 8)) as [->|];
      [rewrite Hbit; reflexivity|].
    rewrite orb_false_r, andb_true_r. reflexivity. }
  rewrite Hx. apply list_insert_id. subst x.
  destruct (lookup_lt_is_Some_2 data _ Hlen) as [v Hv].
  rewrite nth_lookup, Hv. reflexivity.
Qed.

(** X8.  [freeBlock] undoes [allocBlock]: freeing the block that
    [allocBlock] has just handed out succeeds and gives back the bitmap and
    the superblock counters of before; the inode table is untouched and the
    reference count of the block is left at 0. *)
Theorem allocBlock_freeBlock (a : Allocator) :
  alloc_ready a -> has_free_block a ->
  0 <= free_blocks (superblock_ a) < 4294967296 ->
  0 <= used_blocks (superblock_ a) < 4294967295 ->
  exists b a1 a2,
    Allocator_allocBlock a = (success b, a1)
    /\ Allocator_freeBlock a1 b = (OK, a2)
    /\ block_bitmap_ a2 = block_bitmap_ a
    /\ superblock_ a2 = superblock_ a
    /\ inode_table_ a2 = inode_table_ a
    /\ Allocator_getBlockRef a2 b = 0.
Proof.
  intros R Hfree Hf Hu.
  destruct (findFreeBlock_free a R Hfree) as [Hj Hbit].
  set (j := findFreeBlock a) in *.
  set (b := data_block_start (superblock_ a) + j).
  destruct (isValidDataBlock_of_index a j R Hj) as [Hvb Hib]. fold b in Hvb, Hib.
  destruct (allocated_state_seen a j b R Hj) as (H1 & H2 & _).
  fold b in H1, H2. rewrite Z.eqb_refl in H1, H2.
  assert (Habs : absoluteToDataBlock (allocated_state a j) b = j)
    by exact Hib.
  assert (Hsize : refcount_size (allocated_state a j) = refcount_size a).
  { change (refcount_size (allocated_state a j))
      with (refcount_size (set_refcount a j 1)).
    apply refcount_size_set. }
  assert (Hat : refcount_at (allocated_state a j) j = 1).
  { change (refcount_at (allocated_state a j) j)
      with (refcount_at (set_refcount a j 1) j).
    apply refcount_at_set_same. rewrite (ready_table a R). exact Hj. }
  exists b, (allocated_state a j). eexists.
  split; [apply allocBlock_success; assumption|].
  split.
  { apply freeBlock_last.
    - exact H1.
    - exact (ready_enabled a R).
    - rewrite Habs, Hsize, (ready_table a R). lia.
    - rewrite Habs, Hat. lia. }
  rewrite Habs. split; [|split; [|split]].
  - change (Bitmap_clear
              (Bitmap_set (block_bitmap_ a)
                          (data_block_count (superblock_ a)) j)
              (data_block_count (superblock_ a)) j = block_bitmap_ a).
    apply Bitmap_clear_set; [lia|exact Hbit|].
    apply ready_byte_index; assumption.
  - destruct Hfree as [Hnz _].
    unfold updateBlockStats_dec, allocated_state, updateBlockStats_inc.
    cbn [superblock_ with_superblock with_block_bitmap set_refcount
         with_block_refcount with_disk free_blocks used_blocks
         set_block_counters].
    rewrite (u32_small (free_blocks (superblock_ a) - 1)) by lia.
    rewrite (u32_small (used_blocks (superblock_ a) + 1)) by lia.
    rewrite !u32_small by lia.
    replace (free_blocks (superblock_ a) - 1 + 1)
      with (free_blocks (superblock_ a)) by lia.
    replace (used_blocks (superblock_ a) + 1 - 1)
      with (used_blocks (superblock_ a)) by lia.
    destruct (superblock_ a). reflexivity.
  - reflexivity.
  - unfold Allocator_getBlockRef.
    match goal with |- context [isValidDataBlock ?s b] =>
      change (isValidDataBlock s b) with (isValidDataBlock a b);
      change (absoluteToDataBlock s b) with (absoluteToDataBlock a b);
      change (loaded_ s) with (loaded_ a);
      change (refcount_enabled_ s) with (refcount_enabled_ a);
      change (refcount_size s)
        with (refcount_size (set_refcount (allocated_state a j) j 0));
      change (refcount_at s (absoluteToDataBlock a b))
        with (refcount_at (set_refcount (allocated_state a j) j 0)
                          (absoluteToDataBlock a b))
    end.
    rewrite (ready_loaded a R), (ready_enabled a R), Hvb, Hib.
    cbn [negb orb]. rewrite refcount_size_set, Hsize, (ready_table a R).
    destruct (Z.leb_spec (data_block_count (superblock_ a)) j); [lia|].
    apply refcount_at_set_same. rewrite Hsize, (ready_table a R). exact Hj.
Qed.

Lemma allocBlock_freeBlock_witness :
  exists a1 a2,
    Allocator_allocBlock ex_alloc = (success 9, a1)
    /\ Allocator_freeBlock a1 9 = (OK, a2)
    /\ block_bitmap_ a2 = block_bitmap_ ex_alloc
    /\ superblock_ a2 = ex_superblock.
Proof.
  destruct (allocBlock_freeBlock ex_alloc ex_alloc_ready ex_alloc_free
              ltac:(cbn; lia) ltac:(cbn; lia))
    as (b & a1 & a2 & Hrun & Hfree & Hbm & Hsb & _).
  assert (Hnine : b = 9).
  { assert (H : fst (Allocator_allocBlock ex_alloc) = success 9)
      by (vm_compute; reflexivity).
    rewrite Hrun in H. cbn in H. congruence. }
  subst b. exists a1, a2. repeat split; assumption.
Defined.

(** ** Allocator.cpp: reference counts *)

Lemma set_refcount_back (a : Allocator) (i v : Z) :
  0 <= i < refcount_size a ->
  set_refcount (set_refcount a i v) i (refcount_at a i) = a.
Proof.
  intros Hi. unfold set_refcount, with_block_refcount, refcount_at.
  cbn [block_refcount_ disk_ superblock_ loaded_ inode_bitmap_ block_bitmap_
       inode_bitmap_dirty_ block_bitmap_dirty_ superblock_dirty_
       refcount_enabled_ inode_table_].
  rewrite list_insert_insert_eq.
  assert (Hlen : (Z.to_nat i < length (block_refcount_ a))%nat)
    by (unfold refcount_size in Hi; lia).
  destruct (lookup_lt_is_Some_2 _ _ Hlen) as [x Hx].
  rewrite nth_lookup, Hx. cbn [default].
  rewrite list_insert_id by exact Hx. destruct a. reflexivity.
Qed.

(** X9.  [decBlockRef] undoes [incBlockRef]: on a block with a count
    between 1 and 254, [incBlockRef] returns the count plus one and a
    following [decBlockRef] returns the count and gives back the very
    state.  [incBlockRef] refuses a count of 255 and [decBlockRef] a count
    of 0 with [E_INTERNAL], changing nothing. *)
Theorem incBlockRef_decBlockRef (a : Allocator) (b : Z) :
  loaded_ a = true -> refcount_enabled_ a = true ->
  isValidDataBlock a b = true ->
  absoluteToDataBlock a b < refcount_size a ->
  (1 <= Allocator_getBlockRef a b < 255 ->
   exists a1,
     Allocator_incBlockRef a b
     = (success (Allocator_getBlockRef a b + 1), a1)
     /\ Allocator_getBlockRef a1 b = Allocator_getBlockRef a b + 1
     /\ Allocator_decBlockRef a1 b = (success (Allocator_getBlockRef a b), a))
  /\ (255 <= Allocator_getBlockRef a b ->
      Allocator_incBlockRef a b = (failure E_INTERNAL, a))
  /\ (Allocator_getBlockRef a b = 0 ->
      Allocator_decBlockRef a b = (failure E_INTERNAL, a)).
Proof.
  intros Hl He Hv Hsz.
  pose proof (absoluteToDataBlock_nonneg a b) as Hnn.
  set (k := absoluteToDataBlock a b) in *.
  assert (Hget : Allocator_getBlockRef a b = refcount_at a k).
  { unfold Allocator_getBlockRef. rewrite Hl, He, Hv. cbn [negb orb].
    fold k. destruct (Z.leb_spec (refcount_size a) k); [lia|reflexivity]. }
  rewrite Hget. split; [|split].
  - intros Hrc. exists (set_refcount a k (refcount_at a k + 1)).
    assert (Hinc : Allocator_incBlockRef a b
                   = (success (refcount_at a k + 1),
                      set_refcount a k (refcount_at a k + 1))).
    { unfold Allocator_incBlockRef. rewrite Hl, He, Hv. cbn [negb orb].
      fold k. destruct (Z.leb_spec (refcount_size a) k); [lia|].
      destruct (Z.leb_spec 255 (refcount_at a k)); [lia|].
      unfold u8. rewrite Z.mod_small by lia. reflexivity. }
    split; [exact Hinc|].
    set (a1 := set_refcount a k (refcount_at a k + 1)).
    assert (Hat : refcount_at a1 k = refcount_at a k + 1)
      by (apply refcount_at_set_same; lia).
    assert (Hsz1 : refcount_size a1 = refcount_size a)
      by apply refcount_size_set.
    split.
    + unfold Allocator_getBlockRef.
      change (loaded_ a1) with (loaded_ a).
      change (refcount_enabled_ a1) with (refcount_enabled_ a).
      change (isValidDataBlock a1 b) with (isValidDataBlock a b).
      change (absoluteToDataBlock a1 b) with k.
      rewrite Hl, He, Hv, Hsz1. cbn [negb orb].
      destruct (Z.leb_spec (refcount_size a) k); [lia|exact Hat].
    + unfold Allocator_decBlockRef.
      change (loaded_ a1) with (loaded_ a).
      change (refcount_enabled_ a1) with (refcount_enabled_ a).
      change (isValidDataBlock a1 b) with (isValidDataBlock a b).
      change (absoluteToDataBlock a1 b) with k.
      rewrite Hl, He, Hv, Hsz1, Hat. cbn [negb orb].
      destruct (Z.leb_spec (refcount_size a) k); [lia|].
      destruct (Z.eqb_spec (refcount_at a k + 1) 0); [lia|].
      replace (refcount_at a k + 1 - 1) with (refcount_at a k) by lia.
      unfold u8. rewrite Z.mod_small by lia.
      destruct (Z.eqb_spec (refcount_at a k) 0); [lia|].
      subst a1. rewrite set_refcount_back by lia. reflexivity.
  - intros Hrc. unfold Allocator_incBlockRef.
    rewrite Hl, He, Hv. cbn [negb orb]. fold k.
    destruct (Z.leb_spec (refcount_size a) k); [lia|].
    destruct (Z.leb_spec 255 (refcount_at a k)); [reflexivity|lia].
  - intros Hrc. unfold Allocator_decBlockRef.
    rewrite Hl, He, Hv. cbn [negb orb]. fold k.
    destruct (Z.leb_spec (refcount_size a) k); [lia|].
    rewrite Hrc. reflexivity.
Qed.

Lemma incBlockRef_decBlockRef_witness :
  exists a1, Allocator_incBlockRef ex_alloc 8 = (success 2, a1)
             /\ Allocator_getBlockRef a1 8 = 2
             /\ Allocator_decBlockRef a1 8 = (success 1, ex_alloc).
Proof.
  destruct (incBlockRef_decBlockRef ex_alloc 8 eq_refl eq_refl eq_refl
              ltac:(zcompute)) as [H _].
  destruct (H ltac:(zcompute)) as (a1 & H1 & H2 & H3).
  exists a1. split; [exact H1|]. split; [exact H2|exact H3].
Defined.

(** X10.  On an allocated block with a positive count [decBlockRef] and
    [freeBlock] do the same: both succeed and leave the same state, a
    count above 1 being decremented and a block with count 1 released. *)
Theorem decBlockRef_as_freeBlock (a : Allocator) (b : Z) :
  Forall (fun c => 0 <= c < 256) (block_refcount_ a) ->
  Allocator_isBlockAllocated a b = true ->
  1 <= Allocator_getBlockRef a b ->
  Allocator_decBlockRef a b
  = (success (Allocator_getBlockRef a b - 1), snd (Allocator_freeBlock a b))
  /\ fst (Allocator_freeBlock a b) = OK.
Proof.
  intros Hbytes Halloc Hrc.
  destruct (getBlockRef_pos a b ltac:(lia)) as (Hl & He & Hv & Hsz & Hget).
  pose proof (absoluteToDataBlock_nonneg a b) as Hnn.
  pose proof (refcount_at_byte a (absoluteToDataBlock a b) Hbytes) as Hbyte.
  set (k := absoluteToDataBlock a b) in *.
  assert (Hdec : Allocator_decBlockRef a b
                 = (success (refcount_at a k - 1),
                    if refcount_at a k - 1 =? 0 then
                      updateBlockStats_dec
                        (with_block_bitmap (set_refcount a k 0)
                           (Bitmap_clear (block_bitmap_ a)
                              (data_block_count (superblock_ a)) k) true)
                    else set_refcount a k (refcount_at a k - 1))).
  { unfold Allocator_decBlockRef. rewrite Hl, He, Hv. cbn [negb orb].
    fold k. destruct (Z.leb_spec (refcount_size a) k); [lia|].
    destruct (Z.eqb_spec (refcount_at a k) 0); [lia|].
    unfold u8. rewrite Z.mod_small by lia.
    destruct (Z.eqb_spec (refcount_at a k - 1) 0) as [Hz|Hz];
      [rewrite Hz|]; reflexivity. }
  rewrite Hdec, Hget.
  destruct (Z.eqb_spec (refcount_at a k - 1) 0) as [Hz|Hz].
  - rewrite (freeBlock_last a b Halloc He Hsz) by (fold k; lia).
    split; reflexivity.
  - rewrite (freeBlock_shared a b Hbytes Halloc) by lia.
    rewrite Hget. split; reflexivity.
Qed.

Lemma decBlockRef_as_freeBlock_witness :
  Allocator_decBlockRef ex_cow_alloc 9
  = (success 1, snd (Allocator_freeBlock ex_cow_alloc 9))
  /\ Allocator_decBlockRef ex_alloc 8
     = (success 0, snd (Allocator_freeBlock ex_alloc 8)).
Proof.
  split.
  - exact (proj1 (decBlockRef_as_freeBlock ex_cow_alloc 9
                    (ready_bytes _ ex_cow_alloc_ready) eq_refl
                    ltac:(zcompute))).
  - exact (proj1 (decBlockRef_as_freeBlock ex_alloc 8
                    (ready_bytes _ ex_alloc_ready) eq_refl
                    ltac:(zcompute))).
Defined.

(** ** Allocator.cpp: the counters and the bitmaps *)

(** The bitmap either has a clear bit in its range or is full. *)
Lemma bitmap_free_or_full (data : list Z) (total : Z) :
  0 <= total ->
  (exists j, 0 <= j < total /\ Bitmap_get data total j = false)
  \/ (forall j, 0 <= j < total -> Bitmap_get data total j = true).
Proof.
  intros Ht.
  pose proof (findFirstFree_from_cast data total (Z.to_nat total) 0) as H.
  cbv zeta in H. rewrite Z2Nat.id in H by exact Ht.
  destruct H as [[_ Hall]|(k & Hk & _ & Hb & _)].
  - right. intros j Hj. apply Hall. lia.
  - left. exists k. split; [|exact Hb]. lia.
Qed.

Lemma allocBlock_keeps_consistency (a : Allocator) :
  alloc_ready a -> blocks_consistent a ->
  blocks_consistent (snd (Allocator_allocBlock a)).
Proof.
  intros R Hc. pose proof (ready_count a R) as Hcount.
  destruct (Z.eq_dec (free_blocks (superblock_ a)) 0) as [Hz|Hnz].
  { rewrite allocBlock_no_space_state; try assumption; [apply R|lia|].
    left. exact Hz. }
  destruct (bitmap_free_or_full (block_bitmap_ a)
              (data_block_count (superblock_ a)) ltac:(lia))
    as [Hex|Hfull].
  2:{ rewrite allocBlock_no_space_state; try assumption; [apply R|lia|].
      right. exact Hfull. }
  assert (Hfree : has_free_block a) by (split; assumption).
  rewrite allocBlock_success by assumption. cbn [snd].
  destruct (findFreeBlock_free a R Hfree) as [Hj Hbit].
  unfold blocks_consistent in *.
  change (used_blocks (superblock_ (allocated_state a (findFreeBlock a))))
    with (u32 (used_blocks (superblock_ a) + 1)).
  change (block_bitmap_ (allocated_state a (findFreeBlock a)))
    with (Bitmap_set (block_bitmap_ a) (data_block_count (superblock_ a))
                     (findFreeBlock a)).
  change (data_block_count (superblock_ (allocated_state a (findFreeBlock a))))
    with (data_block_count (superblock_ a)).
  pose proof (Bitmap_countUsed_le (block_bitmap_ a)
                (data_block_count (superblock_ a)) ltac:(lia)) as Hle.
  rewrite Bitmap_countUsed_set; try assumption; try lia.
  - rewrite Hc. apply u32_small. lia.
  - apply ready_byte_index; assumption.
Qed.

Lemma freeBlock_keeps_consistency (a : Allocator) (x : Z) :
  alloc_ready a -> blocks_consistent a ->
  blocks_consistent (snd (Allocator_freeBlock a x)).
Proof.
  intros R Hc. pose proof (ready_count a R) as Hcount.
  destruct (freeBlock_cases a x R)
    as [[_ ->]|[(_ & _ & ->)|(Halloc & _ & ->)]]; [exact Hc|exact Hc|].
  apply isBlockAllocated_true in Halloc. destruct Halloc as (_ & _ & Hbit).
  pose proof (absoluteToDataBlock_nonneg a x) as Hnn.
  destruct (Bitmap_get_in_range _ _ _ Hnn Hbit) as [Hlt _].
  unfold blocks_consistent in *.
  match goal with |- used_blocks (superblock_ ?s) = _ =>
    change (used_blocks (superblock_ s))
      with (u32 (used_blocks (superblock_ a) - 1));
    change (block_bitmap_ s)
      with (Bitmap_clear (block_bitmap_ a) (data_block_count (superblock_ a))
                         (absoluteToDataBlock a x));
    change (data_block_count (superblock_ s))
      with (data_block_count (superblock_ a))
  end.
  pose proof (Bitmap_countUsed_le (block_bitmap_ a)
                (data_block_count (superblock_ a)) ltac:(lia)) as Hle.
  pose proof (Bitmap_countUsed_le
                (Bitmap_clear (block_bitmap_ a)
                   (data_block_count (superblock_ a))
                   (absoluteToDataBlock a x))
                (data_block_count (superblock_ a)) ltac:(lia)) as Hle'.
  rewrite Bitmap_countUsed_clear in * by (try assumption; lia).
  rewrite Hc. apply u32_small. lia.
Qed.

(** X11.  [allocBlock] and [freeBlock] keep the block counter of the
    superblock equal to the number of set bits of the block bitmap, whether
    they succeed or fail: what [checkConsistency] compares stays equal. *)
Theorem block_ops_keep_consistency (a : Allocator) (x : Z) :
  alloc_ready a -> blocks_consistent a ->
  blocks_consistent (snd (Allocator_allocBlock a))
  /\ blocks_consistent (snd (Allocator_freeBlock a x)).
Proof.
  intros R Hc. split.
  - apply allocBlock_keeps_consistency; assumption.
  - apply freeBlock_keeps_consistency; assumption.
Qed.

Lemma block_ops_keep_consistency_witness :
  blocks_consistent ex_alloc
  /\ blocks_consistent (snd (Allocator_allocBlock ex_alloc))
  /\ blocks_consistent (snd (Allocator_freeBlock ex_alloc 8)).
Proof.
  assert (Hc : blocks_consistent ex_alloc) by reflexivity.
  split; [exact Hc|].
  exact (block_ops_keep_consistency ex_alloc 8 ex_alloc_ready Hc).
Defined.

(** X12.  [decBlockRef] does not look at the bitmap.  On a free data block
    whose count is 1, as [load] leaves it, it returns 0, moves the counters
    as for a release and leaves the bitmap as it is: counters that agreed
    with the bitmap no longer do. *)
Theorem decBlockRef_free_block (a : Allocator) (b : Z) :
  alloc_ready a -> blocks_consistent a ->
  isValidDataBlock a b = true ->
  Allocator_isBlockAllocated a b = false ->
  Allocator_getBlockRef a b = 1 ->
  exists a',
    Allocator_decBlockRef a b = (success 0, a')
    /\ used_blocks (superblock_ a') = u32 (used_blocks (superblock_ a) - 1)
    /\ free_blocks (superblock_ a') = u32 (free_blocks (superblock_ a) + 1)
    /\ (forall x, Allocator_isBlockAllocated a' x
                  = Allocator_isBlockAllocated a x)
    /\ ~ blocks_consistent a'.
Proof.
  intros R Hc Hv Hfree Hrc.
  destruct (getBlockRef_pos a b ltac:(lia)) as (Hl & He & _ & Hsz & Hget).
  pose proof (absoluteToDataBlock_nonneg a b) as Hnn.
  pose proof (ready_count a R) as Hcount.
  set (k := absoluteToDataBlock a b) in *.
  assert (Hbit : Bitmap_get (block_bitmap_ a)
                            (data_block_count (superblock_ a)) k = false).
  { unfold Allocator_isBlockAllocated in Hfree.
    rewrite Hl, Hv in Hfree. exact Hfree. }
  assert (Hsame : forall j, 0 <= j ->
            Bitmap_get (Bitmap_clear (block_bitmap_ a)
                          (data_block_count (superblock_ a)) k)
                       (data_block_count (superblock_ a)) j
            = Bitmap_get (block_bitmap_ a)
                         (data_block_count (superblock_ a)) j).
  { intros j Hj. destruct (Z.eq_dec j k) as [->|Hne].
    - rewrite Bitmap_get_clear_same by lia. symmetry. exact Hbit.
    - apply Bitmap_get_clear_other; lia. }
  eexists. split.
  { unfold Allocator_decBlockRef. rewrite Hl, He, Hv. cbn [negb orb].
    fold k. destruct (Z.leb_spec (refcount_size a) k); [lia|].
    rewrite <- Hget, Hrc. cbn [Z.eqb Z.sub Z.add Z.opp Z.pos_sub].
    change (u8 0) with 0. cbn [Z.eqb]. reflexivity. }
  split; [reflexivity|]. split; [reflexivity|]. split.
  - intros x. unfold Allocator_isBlockAllocated.
    match goal with |- context [isValidDataBlock ?s x] =>
      change (isValidDataBlock s x) with (isValidDataBlock a x);
      change (absoluteToDataBlock s x) with (absoluteToDataBlock a x);
      change (loaded_ s) with (loaded_ a);
      change (data_block_count (superblock_ s))
        with (data_block_count (superblock_ a));
      change (block_bitmap_ s)
        with (Bitmap_clear (block_bitmap_ a)
                (data_block_count (superblock_ a)) k)
    end.
    destruct (negb (loaded_ a) || negb (isValidDataBlock a x));
      [reflexivity|].
    apply Hsame. apply absoluteToDataBlock_nonneg.
  - unfold blocks_consistent in *.
    match goal with |- ~ used_blocks (superblock_ ?s) = _ =>
      change (used_blocks (superblock_ s))
        with (u32 (used_blocks (superblock_ a) - 1));
      change (data_block_count (superblock_ s))
        with (data_block_count (superblock_ a));
      change (block_bitmap_ s)
        with (Bitmap_clear (block_bitmap_ a)
                (data_block_count (superblock_ a)) k)
    end.
    rewrite (Bitmap_countUsed_ext _ (block_bitmap_ a)) by
        (try lia; intros j Hj; apply Hsame; lia).
    rewrite <- Hc.
    pose proof (Bitmap_countUsed_le (block_bitmap_ a)
                  (data_block_count (superblock_ a)) ltac:(lia)) as Hle.
    rewrite <- Hc in Hle. unfold u32.
    destruct (Z.eq_dec (used_blocks (superblock_ a)) 0) as [Hz|Hnz].
    + rewrite Hz. vm_compute. discriminate.
    + rewrite Z.mod_small by lia. lia.
Qed.

Lemma decBlockRef_free_block_witness :
  exists a', Allocator_decBlockRef ex_alloc 9 = (success 0, a')
             /\ used_blocks (superblock_ a') = 0
             /\ Allocator_isBlockAllocated a' 8 = true
             /\ ~ blocks_consistent a'.
Proof.
  destruct (decBlockRef_free_block ex_alloc 9 ex_alloc_ready eq_refl eq_refl
              eq_refl eq_refl) as (a' & Hrun & Hused & _ & Hbits & Hbad).
  exists a'. split; [exact Hrun|]. split; [rewrite Hused; reflexivity|].
  split; [rewrite Hbits; reflexivity|exact Hbad].
Defined.

(** ** Allocator.cpp: [checkConsistency] *)

(** Without [fix] the check changes nothing and reports whether the two
    counters agree with the bitmaps and the root inode is allocated. *)
Lemma checkConsistency_report (a : Allocator) :
  loaded_ a = true ->
  Allocator_checkConsistency a false
  = (if (Bitmap_countUsed (inode_bitmap_ a) (total_inodes (superblock_ a))
         =? used_inodes (superblock_ a))
        && (Bitmap_countUsed (block_bitmap_ a)
                             (data_block_count (superblock_ a))
            =? used_blocks (superblock_ a))
        && Bitmap_get (inode_bitmap_ a) (total_inodes (superblock_ a))
                      ROOT_INODE
     then OK else E_INTERNAL, a).
Proof.
  intros Hl. unfold Allocator_checkConsistency. rewrite Hl. cbn [negb].
  destruct (_ =? used_inodes (superblock_ a)); cbn [negb andb];
    destruct (_ =? used_blocks (superblock_ a)); cbn [negb andb];
    destruct (Bitmap_get _ _ ROOT_INODE); reflexivity.
Qed.

(** The state that the check with [fix] leaves. *)
Lemma checkConsistency_fix_state (a : Allocator) :
  loaded_ a = true ->
  let a' := snd (Allocator_checkConsistency a true) in
  loaded_ a' = true
  /\ total_inodes (superblock_ a') = total_inodes (superblock_ a)
  /\ data_block_count (superblock_ a') = data_block_count (superblock_ a)
  /\ block_bitmap_ a' = block_bitmap_ a
  /\ used_inodes (superblock_ a')
     = Bitmap_countUsed (inode_bitmap_ a) (total_inodes (superblock_ a))
  /\ used_blocks (superblock_ a')
     = Bitmap_countUsed (block_bitmap_ a) (data_block_count (superblock_ a))
  /\ inode_bitmap_ a'
     = (if Bitmap_get (inode_bitmap_ a) (total_inodes (superblock_ a))
                      ROOT_INODE
        then inode_bitmap_ a
        else Bitmap_set (inode_bitmap_ a) (total_inodes (superblock_ a))
                        ROOT_INODE).
Proof.
  intros Hl. unfold Allocator_checkConsistency. rewrite Hl. cbn [negb].
  destruct (Z.eqb_spec
              (Bitmap_countUsed (inode_bitmap_ a)
                                (total_inodes (superblock_ a)))
              (used_inodes (superblock_ a))) as [Hi|Hi]; cbn [negb];
    cbn [with_superblock set_inode_counters superblock_ block_bitmap_
         data_block_count used_blocks];
    destruct (Z.eqb_spec
                (Bitmap_countUsed (block_bitmap_ a)
                                  (data_block_count (superblock_ a)))
                (used_blocks (superblock_ a))) as [Hb|Hb]; cbn [negb];
    cbn [with_superblock set_block_counters set_inode_counters superblock_
         inode_bitmap_ total_inodes];
    destruct (Bitmap_get (inode_bitmap_ a) (total_inodes (superblock_ a))
                         ROOT_INODE); cbn [negb snd];
    repeat split; try assumption; try (symmetry; assumption).
Qed.

(** X13.  [checkConsistency(true)] sets the two used counters from the
    bitmaps and marks the root inode, in that order.  When the root inode
    was marked already, a following check reports [OK]; when it was not, the
    inode counter was taken before the bit was set and the following check
    reports [E_INTERNAL] again; a second repairing pass always ends in a
    consistent state.  The check without [fix] changes nothing. *)
Theorem checkConsistency_fix (a : Allocator) :
  loaded_ a = true ->
  0 < total_inodes (superblock_ a) < 4294967296 ->
  0 <= data_block_count (superblock_ a) < 4294967296 ->
  inode_bitmap_ a <> [] ->
  let a1 := snd (Allocator_checkConsistency a true) in
  let a2 := snd (Allocator_checkConsistency a1 true) in
  snd (Allocator_checkConsistency a false) = a
  /\ blocks_consistent a1
  /\ fst (Allocator_checkConsistency a1 false)
     = (if Bitmap_get (inode_bitmap_ a) (total_inodes (superblock_ a))
                      ROOT_INODE
        then OK else E_INTERNAL)
  /\ fst (Allocator_checkConsistency a2 false) = OK.
Proof.
  intros Hl Hti Hdc Hne a1 a2.
  destruct (checkConsistency_fix_state a Hl)
    as (Hl1 & Ht1 & Hc1 & Hb1 & Hui1 & Hub1 & Hbm1).
  fold a1 in Hl1, Ht1, Hc1, Hb1, Hui1, Hub1, Hbm1.
  destruct (checkConsistency_fix_state a1 Hl1)
    as (Hl2 & Ht2 & Hc2 & Hb2 & Hui2 & Hub2 & Hbm2).
  fold a2 in Hl2, Ht2, Hc2, Hb2, Hui2, Hub2, Hbm2.
  assert (Hbyte : (Z.to_nat (ROOT_INODE / 8) < length (inode_bitmap_ a))%nat).
  { change (Z.to_nat (ROOT_INODE / 8)) with 0%nat.
    destruct (inode_bitmap_ a); [contradiction|cbn; lia]. }
  assert (Hroot : 0 <= ROOT_INODE < total_inodes (superblock_ a))
    by (change ROOT_INODE with 0; lia).
  split; [rewrite checkConsistency_report by exact Hl; reflexivity|].
  split; [unfold blocks_consistent; rewrite Hub1, Hb1, Hc1; reflexivity|].
  split.
  - rewrite checkConsistency_report by exact Hl1. cbn [fst].
    rewrite Hui1, Hub1, Hb1, Hc1, Ht1, Hbm1, Z.eqb_refl.
    destruct (Bitmap_get (inode_bitmap_ a) (total_inodes (superblock_ a))
                         ROOT_INODE) eqn:Hbit.
    + rewrite Z.eqb_refl, Hbit. reflexivity.
    + rewrite Bitmap_countUsed_set by (try assumption; lia).
      destruct (Z.eqb_spec
                  (Bitmap_countUsed (inode_bitmap_ a)
                                    (total_inodes (superblock_ a)) + 1)
                  (Bitmap_countUsed (inode_bitmap_ a)
                                    (total_inodes (superblock_ a))));
        [lia|reflexivity].
  - rewrite checkConsistency_report by exact Hl2. cbn [fst].
    rewrite Hui2, Hub2, Hb2, Hc2, Ht2, Hbm2, Ht1, Hbm1.
    destruct (Bitmap_get (inode_bitmap_ a) (total_inodes (superblock_ a))
                         ROOT_INODE) eqn:Hbit.
    + rewrite !Hbit, !Z.eqb_refl. reflexivity.
    + rewrite !Bitmap_get_set_same by assumption.
      rewrite !Z.eqb_refl. reflexivity.
Qed.

Lemma checkConsistency_fix_witness :
  fst (Allocator_checkConsistency ex_alloc false) = OK
  /\ fst (Allocator_checkConsistency
            (snd (Allocator_checkConsistency
                    (with_inode_bitmap ex_alloc (2 :: repeat 0 1023) false)
                    true)) false) = E_INTERNAL.
Proof.
  split; [reflexivity|].
  destruct (checkConsistency_fix
              (with_inode_bitmap ex_alloc (2 :: repeat 0 1023) false)
              eq_refl ltac:(zcompute) ltac:(zcompute) ltac:(discriminate))
    as (_ & _ & H & _).
  rewrite H. reflexivity.
Defined.

(** ** Allocator.cpp: inodes *)

Lemma iready_byte_index (a : Allocator) (j : Z) :
  inode_ready a -> 0 <= j < total_inodes (superblock_ a) ->
  (Z.to_nat (j / 8) < length (inode_bitmap_ a))%nat.
Proof.
  intros R Hj. destruct R.
  assert (j / 8 < Z.of_nat (length (inode_bitmap_ a)))
    by (apply Z.div_lt_upper_bound; lia).
  assert (0 <= j / 8) by (apply Z.div_pos; lia). lia.
Qed.

(** The block of the inode table that holds an inode can be read. *)
Lemma inode_block_readable (a : Allocator) (id : Z) :
  inode_ready a -> 0 <= id < total_inodes (superblock_ a) ->
  exists blk,
    Allocator_readBlockInternal a (getInodeBlock a id) = success blk.
Proof.
  intros R Hid. destruct R. unfold getInodeBlock.
  assert (0 <= id / INODES_PER_BLOCK
          <= total_inodes (superblock_ a) / INODES_PER_BLOCK).
  { split; [apply Z.div_pos; [lia|reflexivity]|].
    apply Z.div_le_mono; [reflexivity|lia]. }
  rewrite u32_small by lia.
  rewrite readBlockInternal_ok by (try assumption; lia). eexists. reflexivity.
Qed.

Lemma writeInode_ok (a : Allocator) (id : Z) (inode : Inode) :
  inode_ready a -> 0 <= id < total_inodes (superblock_ a) ->
  Allocator_writeInode a id inode
  = (OK, with_inode_table a (<[id := inode]> (inode_table_ a))).
Proof.
  intros R Hid. destruct (inode_block_readable a id R Hid) as [blk Hblk].
  unfold Allocator_writeInode. rewrite (iready_loaded a R). cbn [negb].
  destruct (Z.leb_spec (total_inodes (superblock_ a)) id); [lia|].
  rewrite Hblk. reflexivity.
Qed.

Lemma readInode_ok (a : Allocator) (id : Z) :
  inode_ready a -> 0 <= id < total_inodes (superblock_ a) ->
  Allocator_readInode a id
  = success (default zero_inode (inode_table_ a !! id)).
Proof.
  intros R Hid. destruct (inode_block_readable a id R Hid) as [blk Hblk].
  unfold Allocator_readInode. rewrite (iready_loaded a R). cbn [negb].
  destruct (Z.leb_spec (total_inodes (superblock_ a)) id); [lia|].
  rewrite Hblk. reflexivity.
Qed.

(** [readInode] looks at the superblock, the image and the table only. *)
Lemma readInode_ext (a a' : Allocator) (id : Z) :
  loaded_ a' = loaded_ a ->
  total_inodes (superblock_ a') = total_inodes (superblock_ a) ->
  inode_table_start (superblock_ a') = inode_table_start (superblock_ a) ->
  disk_ a' = disk_ a ->
  inode_table_ a' !! id = inode_table_ a !! id ->
  Allocator_readInode a' id = Allocator_readInode a id.
Proof.
  intros Hl Ht Hs Hd Hi.
  unfold Allocator_readInode, getInodeBlock, Allocator_readBlockInternal.
  rewrite Hl, Ht, Hs, Hd, Hi. reflexivity.
Qed.

Lemma findFreeInode_free (a : Allocator) :
  inode_ready a ->
  (exists j, 0 <= j < total_inodes (superblock_ a)
             /\ Bitmap_get (inode_bitmap_ a) (total_inodes (superblock_ a)) j
                = false) ->
  0 <= findFreeInode a < total_inodes (superblock_ a)
  /\ Bitmap_get (inode_bitmap_ a) (total_inodes (superblock_ a))
                (findFreeInode a) = false
  /\ forall x, 0 <= x < findFreeInode a ->
               Bitmap_get (inode_bitmap_ a) (total_inodes (superblock_ a)) x
               = true.
Proof.
  intros R (j & Hj & Hfree). pose proof (iready_total a R) as Ht.
  unfold findFreeInode.
  pose proof (findFirstFree_from_spec (inode_bitmap_ a)
                (total_inodes (superblock_ a))
                (Z.to_nat (total_inodes (superblock_ a))) 0
                ltac:(lia)) as Hspec.
  cbv zeta in Hspec.
  fold (Bitmap_findFirstFree (inode_bitmap_ a)
                             (total_inodes (superblock_ a))) in Hspec.
  rewrite Z2Nat.id in Hspec by lia.
  destruct Hspec as [[_ Hall]|(Hr & Hb & Hlow)].
  - rewrite Hall in Hfree by lia. discriminate.
  - split; [lia|]. split; [exact Hb|].
    intros x Hx. apply Hlow. lia.
Qed.

(** X14.  On a loaded allocator with a free inode, [allocInode] hands out
    the lowest free inode number: the inode was free, it is marked
    afterwards and reads as [Inode::init(FREE)], the counters move by one,
    and every other inode keeps its mark and its record. *)
Theorem allocInode_spec (a : Allocator) :
  inode_ready a ->
  free_inodes (superblock_ a) <> 0 ->
  (exists j, 0 <= j < total_inodes (superblock_ a)
             /\ Bitmap_get (inode_bitmap_ a) (total_inodes (superblock_ a)) j
                = false) ->
  exists id a',
    Allocator_allocInode a = (success id, a')
    /\ 0 <= id < total_inodes (superblock_ a)
    /\ Allocator_isInodeAllocated a id = false
    /\ (forall x, 0 <= x < id -> Allocator_isInodeAllocated a x = true)
    /\ Allocator_isInodeAllocated a' id = true
    /\ Allocator_readInode a' id = success (Inode_init FREE)
    /\ free_inodes (superblock_ a') = u32 (free_inodes (superblock_ a) - 1)
    /\ used_inodes (superblock_ a') = u32 (used_inodes (superblock_ a) + 1)
    /\ forall x, 0 <= x -> x <> id ->
         Allocator_isInodeAllocated a' x = Allocator_isInodeAllocated a x
         /\ Allocator_readInode a' x = Allocator_readInode a x.
Proof.
  intros R Hnz Hex. pose proof (iready_total a R) as Ht.
  destruct (findFreeInode_free a R Hex) as (Hj & Hbit & Hlow).
  set (id := findFreeInode a) in *.
  set (total := total_inodes (superblock_ a)) in *.
  set (a1 := with_inode_bitmap a (Bitmap_set (inode_bitmap_ a) total id) true).
  assert (R1 : inode_ready a1).
  { destruct R. constructor; try assumption.
    change (inode_bitmap_ a1) with (Bitmap_set (inode_bitmap_ a) total id).
    rewrite Bitmap_set_length. assumption. }
  assert (Hrun : Allocator_allocInode a
                 = (success id,
                    updateInodeStats_inc
                      (with_inode_table a1
                         (<[id := Inode_init FREE]> (inode_table_ a1))))).
  { unfold Allocator_allocInode. rewrite (iready_loaded a R). cbn [negb].
    destruct (Z.eqb_spec (free_inodes (superblock_ a)) 0); [contradiction|].
    cbv zeta. fold id.
    destruct (Z.ltb_spec id 0); [lia|].
    rewrite (u32_small id) by lia. fold total. fold a1.
    rewrite (writeInode_ok a1 id (Inode_init FREE) R1 Hj). reflexivity. }
  eexists id, _. split; [exact Hrun|]. split; [exact Hj|].
  pose proof (iready_byte_index a id R Hj) as Hbyte.
  assert (Hseen : forall s x,
            loaded_ s = true -> total_inodes (superblock_ s) = total ->
            Allocator_isInodeAllocated s x
            = if total <=? x then false
              else Bitmap_get (inode_bitmap_ s) total x).
  { intros s x Hl Hts. unfold Allocator_isInodeAllocated.
    rewrite Hl, Hts. reflexivity. }
  split; [|split; [|split; [|split; [|split; [|split]]]]].
  - rewrite Hseen by (try reflexivity; apply R).
    destruct (Z.leb_spec total id); [reflexivity|exact Hbit].
  - intros x Hx. rewrite Hseen by (try reflexivity; apply R).
    destruct (Z.leb_spec total x); [lia|]. apply Hlow. exact Hx.
  - rewrite Hseen by (try reflexivity; apply R).
    destruct (Z.leb_spec total id); [lia|].
    apply Bitmap_get_set_same; assumption.
  - match goal with |- Allocator_readInode ?s id = _ =>
      rewrite (readInode_ext
                 (with_inode_table a1
                    (<[id := Inode_init FREE]> (inode_table_ a1))) s id)
        by reflexivity
    end.
    unfold Allocator_readInode.
    change (loaded_ (with_inode_table a1 _)) with (loaded_ a).
    rewrite (iready_loaded a R). cbn [negb].
    change (total_inodes (superblock_ (with_inode_table a1 _))) with total.
    destruct (Z.leb_spec total id); [lia|].
    destruct (inode_block_readable a id R Hj) as [blk Hblk].
    match goal with |- context [Allocator_readBlockInternal ?s ?n] =>
      change (Allocator_readBlockInternal s n)
        with (Allocator_readBlockInternal a (getInodeBlock a id))
    end.
    rewrite Hblk. cbn [inode_table_ with_inode_table].
    rewrite lookup_insert_eq. reflexivity.
  - reflexivity.
  - reflexivity.
  - intros x Hx Hne. split.
    + rewrite !Hseen by (try reflexivity; apply R).
      destruct (Z.leb_spec total x); [reflexivity|].
      apply Bitmap_get_set_other; lia.
    + apply readInode_ext; try reflexivity.
      cbn [inode_table_ updateInodeStats_inc with_superblock
           with_inode_table].
      apply lookup_insert_ne. congruence.
Qed.

Lemma ex_alloc_iready : inode_ready ex_alloc.
Proof. constructor; zcompute. Defined.

Lemma allocInode_spec_witness :
  exists a', Allocator_allocInode ex_alloc = (success 2, a')
             /\ Allocator_isInodeAllocated a' 2 = true
             /\ Allocator_readInode a' 2 = success (Inode_init FREE)
             /\ Allocator_readInode a' 1 = success (Inode_init REGULAR).
Proof.
  destruct (allocInode_spec ex_alloc ex_alloc_iready ltac:(discriminate))
    as (id & a' & Hrun & _ & _ & _ & Hm & Hr & _ & _ & Hother).
  { exists 2. split; [zcompute|reflexivity]. }
  assert (Htwo : id = 2).
  { assert (H : fst (Allocator_allocInode ex_alloc) = success 2)
      by (vm_compute; reflexivity).
    rewrite Hrun in H. cbn in H. congruence. }
  subst id. exists a'. split; [exact Hrun|]. split; [exact Hm|].
  split; [exact Hr|].
  rewrite (proj2 (Hother 1 ltac:(lia) ltac:(lia))). reflexivity.
Defined.

(** X15.  [freeInode] refuses the root inode with [E_PERMISSION] and an
    inode number outside the table or a free inode with [E_INVALID_PARAM],
    changing nothing.  For any other allocated inode it returns [OK]: the
    inode is free afterwards and reads as [Inode::clear()], the counters
    move by one, and every other inode keeps its mark and its record. *)
Theorem freeInode_spec (a : Allocator) (id : Z) :
  inode_ready a -> 0 <= id ->
  (id = ROOT_INODE -> 0 < total_inodes (superblock_ a) ->
   Allocator_freeInode a id = (E_PERMISSION, a))
  /\ (Allocator_isInodeAllocated a id = false -> id <> ROOT_INODE ->
      Allocator_freeInode a id = (E_INVALID_PARAM, a))
  /\ (Allocator_isInodeAllocated a id = true -> id <> ROOT_INODE ->
      exists a',
        Allocator_freeInode a id = (OK, a')
        /\ Allocator_isInodeAllocated a' id = false
        /\ Allocator_readInode a' id = success Inode_clear
        /\ free_inodes (superblock_ a')
           = u32 (free_inodes (superblock_ a) + 1)
        /\ used_inodes (superblock_ a')
           = u32 (used_inodes (superblock_ a) - 1)
        /\ forall x, 0 <= x -> x <> id ->
             Allocator_isInodeAllocated a' x = Allocator_isInodeAllocated a x
             /\ Allocator_readInode a' x = Allocator_readInode a x).
Proof.
  intros R Hid. pose proof (iready_total a R) as Ht.
  set (total := total_inodes (superblock_ a)) in *.
  assert (Hseen : forall s x,
            loaded_ s = true -> total_inodes (superblock_ s) = total ->
            Allocator_isInodeAllocated s x
            = if total <=? x then false
              else Bitmap_get (inode_bitmap_ s) total x).
  { intros s x Hl Hts. unfold Allocator_isInodeAllocated.
    rewrite Hl, Hts. reflexivity. }
  split; [|split].
  - intros -> Hpos. unfold Allocator_freeInode.
    rewrite (iready_loaded a R). cbn [negb]. fold total.
    destruct (Z.leb_spec total ROOT_INODE);
      [change ROOT_INODE with 0 in *; lia|reflexivity].
  - intros Hfree Hne. unfold Allocator_freeInode.
    rewrite (iready_loaded a R). cbn [negb]. fold total.
    rewrite Hseen in Hfree by (try reflexivity; apply R).
    destruct (Z.leb_spec total id); [reflexivity|].
    destruct (Z.eqb_spec id ROOT_INODE); [contradiction|].
    rewrite Hfree. reflexivity.
  - intros Halloc Hne.
    rewrite Hseen in Halloc by (try reflexivity; apply R).
    destruct (Z.leb_spec total id) as [|Hlt]; [discriminate|].
    assert (Hrun : Allocator_freeInode a id
                   = (OK,
                      updateInodeStats_dec
                        (with_inode_bitmap
                           (with_inode_table a
                              (<[id := Inode_clear]> (inode_table_ a)))
                           (Bitmap_clear (inode_bitmap_ a) total id) true))).
    { unfold Allocator_freeInode. rewrite (iready_loaded a R). cbn [negb].
      fold total. destruct (Z.leb_spec total id); [lia|].
      destruct (Z.eqb_spec id ROOT_INODE); [contradiction|].
      rewrite Halloc. cbn [negb].
      rewrite (writeInode_ok a id Inode_clear R) by (fold total; lia).
      reflexivity. }
    eexists. split; [exact Hrun|].
    split; [|split; [|split; [|split]]].
    + rewrite Hseen by (try reflexivity; apply R).
      destruct (Z.leb_spec total id); [reflexivity|].
      apply Bitmap_get_clear_same. lia.
    + match goal with |- Allocator_readInode ?s id = _ =>
        rewrite (readInode_ext
                   (with_inode_table a
                      (<[id := Inode_clear]> (inode_table_ a))) s id)
          by reflexivity
      end.
      unfold Allocator_readInode.
      change (loaded_ (with_inode_table a _)) with (loaded_ a).
      rewrite (iready_loaded a R). cbn [negb].
      change (total_inodes (superblock_ (with_inode_table a _))) with total.
      destruct (Z.leb_spec total id); [lia|].
      destruct (inode_block_readable a id R ltac:(fold total; lia))
        as [blk Hblk].
      match goal with |- context [Allocator_readBlockInternal ?s ?n] =>
        change (Allocator_readBlockInternal s n)
          with (Allocator_readBlockInternal a (getInodeBlock a id))
      end.
      rewrite Hblk. cbn [inode_table_ with_inode_table].
      rewrite lookup_insert_eq. reflexivity.
    + reflexivity.
    + reflexivity.
    + intros x Hx Hxne. split.
      * rewrite !Hseen by (try reflexivity; apply R).
        destruct (Z.leb_spec total x); [reflexivity|].
        apply Bitmap_get_clear_other; lia.
      * apply readInode_ext; try reflexivity.
        cbn [inode_table_ updateInodeStats_dec with_superblock
             with_inode_table with_inode_bitmap].
        apply lookup_insert_ne. congruence.
Qed.

Lemma freeInode_spec_witness :
  Allocator_freeInode ex_alloc 0 = (E_PERMISSION, ex_alloc)
  /\ Allocator_freeInode ex_alloc 5 = (E_INVALID_PARAM, ex_alloc)
  /\ exists a', Allocator_freeInode ex_alloc 1 = (OK, a')
                /\ Allocator_isInodeAllocated a' 1 = false
                /\ Allocator_readInode a' 1 = success Inode_clear.
Proof.
  destruct (freeInode_spec ex_alloc 0 ex_alloc_iready ltac:(lia))
    as (H0 & _ & _).
  destruct (freeInode_spec ex_alloc 5 ex_alloc_iready ltac:(lia))
    as (_ & H5 & _).
  destruct (freeInode_spec ex_alloc 1 ex_alloc_iready ltac:(lia))
    as (_ & _ & H1).
  split; [apply H0; [reflexivity|zcompute]|].
  split; [apply H5; [reflexivity|discriminate]|].
  destruct (H1 eq_refl ltac:(discriminate)) as (a' & Hrun & Hf & Hr & _).
  exists a'. split; [exact Hrun|]. split; [exact Hf|exact Hr].
Defined.

(** ** Cache.cpp: the LRU list *)

Lemma removelast_firstn_pred {A} (l : list A) :
  removelast l = firstn (length l - 1) l.
Proof.
  rewrite removelast_firstn_len. f_equal. lia.
Qed.

(** The eviction loops keep the most recently used entries. *)
Lemma evict_while_full_firstn (n : nat) :
  forall c, 1 <= capacity_ c -> (length (lru_list_ c) <= n)%nat ->
    capacity_ (evict_while_full n c) = capacity_ c
    /\ lru_list_ (evict_while_full n c)
       = firstn (Z.to_nat (capacity_ c - 1)) (lru_list_ c).
Proof.
  induction n as [|n IH]; intros c Hcap Hlen; cbn [evict_while_full].
  - split; [reflexivity|]. destruct (lru_list_ c); [|cbn in Hlen; lia].
    rewrite firstn_nil. reflexivity.
  - destruct (Z.leb_spec (capacity_ c) (Z.of_nat (length (lru_list_ c))))
      as [Hfull|Hroom].
    + destruct (IH (evictLRU c)) as [H1 H2]; [exact Hcap| |].
      { cbn [evictLRU lru_list_]. rewrite removelast_firstn_pred.
        rewrite length_take. lia. }
      split; [rewrite H1; reflexivity|]. rewrite H2.
      cbn [evictLRU lru_list_ capacity_]. rewrite removelast_firstn_pred.
      rewrite take_take. f_equal. lia.
    + split; [reflexivity|]. symmetry. apply firstn_all2. lia.
Qed.

Lemma evict_while_over_firstn (n : nat) :
  forall c, 0 <= capacity_ c -> (length (lru_list_ c) <= n)%nat ->
    capacity_ (evict_while_over n c) = capacity_ c
    /\ lru_list_ (evict_while_over n c)
       = firstn (Z.to_nat (capacity_ c)) (lru_list_ c).
Proof.
  induction n as [|n IH]; intros c Hcap Hlen; cbn [evict_while_over].
  - split; [reflexivity|]. destruct (lru_list_ c); [|cbn in Hlen; lia].
    rewrite firstn_nil. reflexivity.
  - destruct (Z.ltb_spec (capacity_ c) (Z.of_nat (length (lru_list_ c))))
      as [Hover|Hroom].
    + destruct (IH (evictLRU c)) as [H1 H2]; [exact Hcap| |].
      { cbn [evictLRU lru_list_]. rewrite removelast_firstn_pred.
        rewrite length_take. lia. }
      split; [rewrite H1; reflexivity|]. rewrite H2.
      cbn [evictLRU lru_list_ capacity_]. rewrite removelast_firstn_pred.
      rewrite take_take. f_equal. lia.
    + split; [reflexivity|]. symmetry. apply firstn_all2. lia.
Qed.

Lemma cache_remove_absent (l : list CacheBlock) (n : Z) :
  ~ In n (map cb_block_no l) -> cache_remove l n = l.
Proof.
  induction l as [|b l IH]; intros Hn; [reflexivity|].
  cbn [cache_remove List.filter].
  destruct (Z.eqb_spec (cb_block_no b) n) as [He|He].
  - exfalso. apply Hn. left. exact He.
  - cbn [negb]. f_equal. apply IH. intros Hin. apply Hn. right. exact Hin.
Qed.

Lemma cache_remove_length (l : list CacheBlock) (n : Z) :
  List.NoDup (map cb_block_no l) -> In n (map cb_block_no l) ->
  S (length (cache_remove l n)) = length l.
Proof.
  induction l as [|b l IH]; intros Hnd Hin; [destruct Hin|].
  cbn [map] in Hnd. inversion Hnd as [|? ? Hb Hnd']; subst.
  cbn [cache_remove List.filter].
  destruct (Z.eqb_spec (cb_block_no b) n) as [He|He].
  - cbn [negb length]. f_equal. fold (cache_remove l n).
    rewrite cache_remove_absent; [reflexivity|]. rewrite <- He. exact Hb.
  - cbn [negb length]. f_equal. destruct Hin as [Hin|Hin]; [contradiction|].
    apply IH; assumption.
Qed.

Lemma cache_find_Some (c : LRUCache) (n : Z) (b : CacheBlock) :
  cache_find c n = Some b -> In b (lru_list_ c) /\ cb_block_no b = n.
Proof.
  unfold cache_find. intros H. apply find_some in H.
  destruct H as [Hin He]. apply Z.eqb_eq in He. split; assumption.
Qed.

(** What [put] leaves in the list. *)
Lemma LRUCache_put_list (c : LRUCache) (n : Z) (data : Block)
      (dirty : bool) :
  1 <= capacity_ c ->
  capacity_ (LRUCache_put c n data dirty) = capacity_ c
  /\ lru_list_ (LRUCache_put c n data dirty)
     = match cache_find c n with
       | Some b => mkCacheBlock n data (cb_dirty b || dirty)
                   :: cache_remove (lru_list_ c) n
       | None => mkCacheBlock n data dirty
                 :: firstn (Z.to_nat (capacity_ c - 1)) (lru_list_ c)
       end.
Proof.
  intros Hcap. unfold LRUCache_put.
  destruct (cache_find c n) as [b|]; [split; reflexivity|].
  destruct (evict_while_full_firstn (length (lru_list_ c)) c Hcap
                                    (Nat.le_refl _)) as [H1 H2].
  cbn [capacity_ lru_list_]. rewrite H1, H2. split; reflexivity.
Qed.

(** X16.  A block put into a cache of capacity at least 1 is found again:
    the following [get] returns the data and leaves the cache as it is, the
    block being the most recently used one.  [put] keeps the list free of
    repeated block numbers and within the capacity. *)
Theorem LRUCache_put_get (c : LRUCache) (n : Z) (data : Block)
        (dirty : bool) :
  1 <= capacity_ c -> cache_wf c ->
  Z.of_nat (length (lru_list_ c)) <= capacity_ c ->
  let c' := LRUCache_put c n data dirty in
  LRUCache_get c' n = (Some data, c')
  /\ (exists rest, LRUCache_getLRUOrder c' = n :: rest)
  /\ cache_wf c'
  /\ capacity_ c' = capacity_ c
  /\ Z.of_nat (length (lru_list_ c')) <= capacity_ c'.
Proof.
  intros Hcap Hwf Hlen c'.
  pose proof (LRUCache_put_wf c n data dirty Hwf) as Hwf'. fold c' in Hwf'.
  destruct (LRUCache_put_list c n data dirty Hcap) as [Hc Hl].
  fold c' in Hc, Hl.
  assert (Hhead : exists e rest,
             lru_list_ c' = e :: rest /\ cb_block_no e = n
             /\ cb_data e = data).
  { rewrite Hl. destruct (cache_find c n); eexists _, _; repeat split. }
  destruct Hhead as (e & rest & Hlist & Hen & Hed). clearbody c'.
  split; [|split; [|split; [|split]]].
  - unfold LRUCache_get, cache_find. rewrite Hlist. cbn [List.find].
    rewrite Hen, Z.eqb_refl. rewrite Hed. f_equal.
    unfold moveToFront. rewrite Hlist, Hen.
    cbn [cache_remove List.filter]. rewrite Hen, Z.eqb_refl. cbn [negb].
    fold (cache_remove rest n). rewrite cache_remove_absent.
    + rewrite <- Hlist. clear. destruct c'. reflexivity.
    + unfold cache_wf in Hwf'. rewrite Hlist in Hwf'. cbn [map] in Hwf'.
      inversion Hwf'; subst. assumption.
  - exists (map cb_block_no rest). unfold LRUCache_getLRUOrder.
    rewrite Hlist. cbn [map]. rewrite Hen. reflexivity.
  - exact Hwf'.
  - exact Hc.
  - rewrite Hc, Hl. destruct (cache_find c n) as [b|] eqn:Hfind.
    + apply cache_find_Some in Hfind. destruct Hfind as [Hin Hb].
      cbn [length]. rewrite cache_remove_length; [exact Hlen|exact Hwf|].
      rewrite <- Hb. apply in_map. exact Hin.
    + cbn [length]. rewrite length_take. lia.
Qed.

Lemma LRUCache_put_get_witness :
  LRUCache_get (LRUCache_put (mkLRUCache 4 []) 7 ex_sevens true) 7
  = (Some ex_sevens, LRUCache_put (mkLRUCache 4 []) 7 ex_sevens true).
Proof.
  exact (proj1 (LRUCache_put_get (mkLRUCache 4 []) 7 ex_sevens true
                  ltac:(zcompute) (List.NoDup_nil _) ltac:(zcompute))).
Defined.

(** X17.  Putting a block that is not cached into a full cache drops the
    least recently used entry and nothing else, whether that entry is dirty
    or not: the list is the new block followed by the old list without its
    last entry, and the dropped block is no longer contained. *)
Theorem LRUCache_put_evicts_lru (c : LRUCache) (n : Z) (data : Block)
        (dirty : bool) (kept : list CacheBlock) (lru : CacheBlock) :
  cache_wf c -> lru_list_ c = kept ++ [lru] ->
  capacity_ c = Z.of_nat (length (lru_list_ c)) ->
  LRUCache_contains c n = false ->
  lru_list_ (LRUCache_put c n data dirty)
  = mkCacheBlock n data dirty :: kept
  /\ LRUCache_contains (LRUCache_put c n data dirty) (cb_block_no lru)
     = false.
Proof.
  intros Hwf Hlist Hcap Hnot.
  assert (Hone : 1 <= capacity_ c).
  { rewrite Hcap, Hlist, length_app. cbn [length]. lia. }
  destruct (LRUCache_put_list c n data dirty Hone) as [_ Hl].
  unfold LRUCache_contains in Hnot.
  destruct (cache_find c n) as [|] eqn:Hfind; [discriminate|].
  assert (Hkept : firstn (Z.to_nat (capacity_ c - 1)) (lru_list_ c) = kept).
  { rewrite Hcap, Hlist, length_app. cbn [length].
    replace (Z.to_nat (Z.of_nat (length kept + 1) - 1)) with (length kept)
      by lia.
    rewrite take_app_length. reflexivity. }
  rewrite Hkept in Hl. split; [exact Hl|].
  unfold LRUCache_contains, cache_find. rewrite Hl.
  cbn [List.find cb_block_no]. apply cache_find_None in Hfind.
  destruct (Z.eqb_spec n (cb_block_no lru)) as [He|He].
  { exfalso. apply Hfind. rewrite Hlist, map_app. apply in_or_app. right.
    left. symmetry. exact He. }
  destruct (List.find _ kept) as [b|] eqn:Hk; [|reflexivity].
  apply find_some in Hk. destruct Hk as [Hin Hb]. apply Z.eqb_eq in Hb.
  exfalso. unfold cache_wf in Hwf. rewrite Hlist, map_app in Hwf.
  cbn [map] in Hwf. apply NoDup_remove_2 in Hwf. apply Hwf.
  rewrite app_nil_r, <- Hb. apply in_map. exact Hin.
Qed.

Lemma LRUCache_put_evicts_lru_witness :
  lru_list_
    (LRUCache_put
       (mkLRUCache 2 [mkCacheBlock 1 zero_block false;
                      mkCacheBlock 2 ex_sevens true]) 3 zero_block false)
  = [mkCacheBlock 3 zero_block false; mkCacheBlock 1 zero_block false].
Proof.
  refine (proj1 (LRUCache_put_evicts_lru
                   (mkLRUCache 2 [mkCacheBlock 1 zero_block false;
                                  mkCacheBlock 2 ex_sevens true])
                   3 zero_block false [mkCacheBlock 1 zero_block false]
                   (mkCacheBlock 2 ex_sevens true) _ eq_refl eq_refl
                   eq_refl)).
  unfold cache_wf. cbn. repeat constructor; cbn; intuition lia.
Defined.

(** X18.  [setCapacity] keeps the most recently used entries that fit the
    new capacity and drops the others, dirty or not; a capacity of 0 is
    raised to 1. *)
Theorem LRUCache_setCapacity_keeps_mru (c : LRUCache) (new_capacity : Z) :
  capacity_ (LRUCache_setCapacity c new_capacity)
  = (if 0 <? new_capacity then new_capacity else 1)
  /\ lru_list_ (LRUCache_setCapacity c new_capacity)
     = firstn (Z.to_nat (if 0 <? new_capacity then new_capacity else 1))
              (lru_list_ c).
Proof.
  unfold LRUCache_setCapacity. cbv zeta. cbn [lru_list_].
  set (cap := if 0 <? new_capacity then new_capacity else 1).
  assert (Hcap : 0 <= cap)
    by (subst cap; destruct (Z.ltb_spec 0 new_capacity); lia).
  exact (evict_while_over_firstn (length (lru_list_ c))
           (mkLRUCache cap (lru_list_ c)) Hcap (Nat.le_refl _)).
Qed.

(** ** Cache.cpp: [CachedDisk] *)

Lemma LRUCache_put_head (c : LRUCache) (n : Z) (data : Block) (dirty : bool) :
  exists d rest,
    lru_list_ (LRUCache_put c n data dirty) = mkCacheBlock n data d :: rest
    /\ (dirty = true -> d = true).
Proof.
  unfold LRUCache_put. destruct (cache_find c n) as [b|].
  - eexists _, _. split; [reflexivity|]. intros ->. apply orb_true_r.
  - eexists _, _. split; [reflexivity|]. intros ->. reflexivity.
Qed.

Lemma LRUCache_get_head (c : LRUCache) (e : CacheBlock)
      (rest : list CacheBlock) :
  lru_list_ c = e :: rest ->
  fst (LRUCache_get c (cb_block_no e)) = Some (cb_data e).
Proof.
  intros Hl. unfold LRUCache_get, cache_find. rewrite Hl. cbn [List.find].
  rewrite Z.eqb_refl. reflexivity.
Qed.

Lemma CachedDisk_readBlock_head (cd : CachedDisk) (e : CacheBlock)
      (rest : list CacheBlock) :
  cache_enabled_ cd = true -> lru_list_ (cache_ cd) = e :: rest ->
  fst (CachedDisk_readBlock cd (cb_block_no e)) = success (cb_data e).
Proof.
  intros He Hl. unfold CachedDisk_readBlock. rewrite He.
  pose proof (LRUCache_get_head (cache_ cd) e rest Hl) as Hget.
  destruct (LRUCache_get (cache_ cd) (cb_block_no e)) as [hit c1].
  cbn [fst] in Hget. subst hit. reflexivity.
Qed.

(** X19.  A block written through [CachedDisk::writeBlock] is read back by
    [CachedDisk::readBlock], whatever the mode: with the cache enabled the
    read is served from the cache, with the cache disabled from the
    image. *)
Theorem CachedDisk_read_your_write (cd cd1 : CachedDisk) (n : Z)
        (buf : Block) (wt : bool) :
  CachedDisk_writeBlock cd n buf wt = (OK, cd1) ->
  fst (CachedDisk_readBlock cd1 n) = success buf.
Proof.
  unfold CachedDisk_writeBlock. cbv zeta.
  destruct (cache_enabled_ cd) eqn:He.
  - destruct (LRUCache_put_head (cache_ cd) n buf
                (negb (wt || write_through_ cd))) as (d & rest & Hl & _).
    destruct (wt || write_through_ cd); cbn [orb negb]; cbn [negb] in Hl.
    + destruct (DiskImage_writeBlock (cd_disk_ cd) n buf) as [err d1].
      destruct err; try discriminate. intros [= <-].
      apply (CachedDisk_readBlock_head _
               (mkCacheBlock n buf false)
               (lru_list_ (LRUCache_clearDirty
                             (mkLRUCache 0 rest) n))); [reflexivity|].
      cbn [cache_ lru_list_ LRUCache_clearDirty]. rewrite Hl.
      cbn [map cb_block_no cb_data]. rewrite Z.eqb_refl. reflexivity.
    + intros [= <-].
      apply (CachedDisk_readBlock_head _ (mkCacheBlock n buf d) rest);
        [reflexivity|exact Hl].
  - rewrite orb_true_r.
    destruct (DiskImage_writeBlock (cd_disk_ cd) n buf) as [err d1] eqn:Hw.
    destruct err; try discriminate. intros [= <-].
    apply DiskImage_writeBlock_OK in Hw. destruct Hw as (Ho & Hn & ->).
    unfold CachedDisk_readBlock. cbn [cache_enabled_ cd_disk_].
    rewrite Ho.
    rewrite (DiskImage_read_after_write (cd_disk_ cd) n n buf Ho Hn).
    rewrite Z.eqb_refl. reflexivity.
Qed.

Lemma CachedDisk_read_your_write_witness :
  fst (CachedDisk_readBlock ex_dirty_disk 3) = success ex_sevens
  /\ DiskImage_readBlock (cd_disk_ ex_dirty_disk) 3 = success zero_block.
Proof.
  split; [|reflexivity].
  apply (CachedDisk_read_your_write ex_cached_disk ex_dirty_disk 3 ex_sevens
                                    false).
  reflexivity.
Defined.

(** The loop of [flush] fails when a block of its list lies outside the
    image. *)
Lemma flush_blocks_invalid (dl : list (Z * Block)) :
  forall (d : DiskImage) (c : LRUCache) (n : Z) (data : Block),
    In (n, data) dl -> total_blocks_ d <= n ->
    fst (fst (flush_blocks dl d c)) = E_INVALID_PARAM.
Proof.
  induction dl as [|[m buf] dl IH]; intros d c n data Hin Hn;
    [destruct Hin|].
  cbn [flush_blocks].
  destruct (DiskImage_writeBlock d m buf) as [err d1] eqn:Hw.
  destruct err;
    try (unfold DiskImage_writeBlock in Hw;
         destruct (negb (is_open_ d)); [|destruct (negb _)];
         inversion Hw; fail).
  - apply DiskImage_writeBlock_OK in Hw. destruct Hw as (_ & Hm & ->).
    destruct Hin as [[= -> ->]|Hin]; [lia|].
    apply (IH _ _ n data Hin). exact Hn.
  - reflexivity.
Qed.

(** X20.  In write-back mode [writeBlock] does not check the block number:
    for a block outside the image it returns [OK] and leaves the image
    untouched, and the error shows only when the following [flush] returns
    [E_INVALID_PARAM]. *)
Theorem write_back_defers_check (cd : CachedDisk) (n : Z) (buf : Block) :
  cache_enabled_ cd = true -> write_through_ cd = false ->
  total_blocks_ (cd_disk_ cd) <= n ->
  exists cd1,
    CachedDisk_writeBlock cd n buf false = (OK, cd1)
    /\ cd_disk_ cd1 = cd_disk_ cd
    /\ fst (CachedDisk_flush cd1) = E_INVALID_PARAM.
Proof.
  intros He Hwt Hn. unfold CachedDisk_writeBlock. rewrite He, Hwt.
  cbn [orb negb]. eexists. split; [reflexivity|]. split; [reflexivity|].
  destruct (LRUCache_put_head (cache_ cd) n buf true)
    as (d & rest & Hl & Hd).
  rewrite (Hd eq_refl) in Hl.
  unfold CachedDisk_flush. cbn [cache_ cd_disk_].
  assert (Hin : In (n, buf)
                   (LRUCache_getDirtyBlocks
                      (LRUCache_put (cache_ cd) n buf true))).
  { unfold LRUCache_getDirtyBlocks. rewrite Hl. cbn. left. reflexivity. }
  pose proof (flush_blocks_invalid _ (cd_disk_ cd)
                (LRUCache_put (cache_ cd) n buf true) n buf Hin Hn) as Hf.
  destruct (flush_blocks _ _ _) as [[err d1] c1]. cbn [fst] in Hf.
  subst err. reflexivity.
Qed.

Lemma write_back_defers_check_witness :
  fst (CachedDisk_writeBlock ex_cached_disk 16 ex_sevens false) = OK
  /\ fst (CachedDisk_flush
            (snd (CachedDisk_writeBlock ex_cached_disk 16 ex_sevens false)))
     = E_INVALID_PARAM.
Proof.
  destruct (write_back_defers_check ex_cached_disk 16 ex_sevens eq_refl
              eq_refl ltac:(zcompute)) as (cd1 & Hw & _ & Hf).
  rewrite Hw. split; [reflexivity|exact Hf].
Defined.

(** ** Directory.cpp: paths *)

Lemma collapse_slashes_id (s : list ascii) :
  forall b, no_double_slash s ->
    (b = true -> match s with c :: _ => is_slash c = false | [] => True end) ->
    collapse_slashes s b = s.
Proof.
  induction s as [|c s IH]; intros b Hnd Hb; [reflexivity|].
  cbn [collapse_slashes]. destruct (is_slash c) eqn:Hc.
  - destruct b; [specialize (Hb eq_refl); congruence|].
    f_equal. apply IH.
    + destruct s; [exact I|]. cbn in Hnd. apply Hnd.
    + intros _. destruct s as [|d s]; [exact I|]. cbn in Hnd.
      destruct Hnd as [Hd _]. rewrite Hc in Hd. exact Hd.
  - f_equal. apply IH.
    + destruct s; [exact I|]. cbn in Hnd. apply Hnd.
    + discriminate.
Qed.

Lemma pop_back_slashes_id (r : list ascii) :
  (exists c, r = [c]) \/ (exists c t, r = c :: t /\ is_slash c = false) ->
  pop_back_slashes r = r.
Proof.
  intros [[c ->]|(c & t & -> & Hc)]; [reflexivity|].
  cbn [pop_back_slashes]. destruct t; [reflexivity|]. rewrite Hc. reflexivity.
Qed.

(** A normalised path is left as it is. *)
Lemma normalizePath_normalized (q : list ascii) :
  normalized q -> normalizePath q = q.
Proof.
  intros ((t & ->) & Hnd & Hlast). unfold normalizePath.
  change (is_slash slash) with true. cbv iota.
  rewrite pop_back_slashes_id.
  - rewrite rev_involutive. apply collapse_slashes_id; [exact Hnd|discriminate].
  - destruct Hlast as [Hroot|Hlast].
    + left. exists slash. rewrite Hroot. reflexivity.
    + right. exists (List.last (slash :: t) slash),
                    (rev (removelast (slash :: t))).
      split; [|exact Hlast].
      rewrite (app_removelast_last slash (l := slash :: t)) at 1
        by discriminate.
      rewrite rev_app_distr. reflexivity.
Qed.

(** X21.  [normalizePath] is idempotent, and [resolvePath], which
    normalises its argument itself, gives the same result for a path and for
    its normal form. *)
Theorem normalizePath_idempotent (a : Allocator) (p : list ascii) :
  normalizePath (normalizePath p) = normalizePath p
  /\ Directory_resolvePath a (normalizePath p) = Directory_resolvePath a p.
Proof.
  split.
  - apply normalizePath_normalized. apply normalizePath_spec.
  - rewrite !resolvePath_components, splitPath_normalizePath. reflexivity.
Qed.

Lemma resolve_components_app (a : Allocator) (cs1 cs2 : list (list ascii)) :
  forall cur,
    resolve_components a (cs1 ++ cs2) cur
    = match resolve_components a cs1 cur with
      | success i => resolve_components a cs2 i
      | failure e => failure e
      end.
Proof.
  induction cs1 as [|c cs1 IH]; intros cur; [reflexivity|].
  cbn [app resolve_components].
  destruct (Allocator_readInode a cur) as [inode|e]; [|reflexivity].
  destruct (negb (isDirectory inode)); [reflexivity|].
  destruct (Directory_lookupInternal a cur c) as [entry|e]; [|reflexivity].
  apply IH.
Qed.

(** X22.  Resolving [p/name], for a name that is not empty, [.] or [..]
    and holds no ['/'], is resolving [p] and looking [name] up in the
    directory found: an error of the first step is passed on, a [p] that is
    no directory gives [E_NOT_DIR], a name that is not found gives
    [E_NOT_FOUND]. *)
Theorem resolvePath_step (a : Allocator) (p name : list ascii) :
  plain_name name ->
  Directory_resolvePath a (p ++ slash :: name)
  = match Directory_resolvePath a p with
    | failure e => failure e
    | success d =>
        match Allocator_readInode a d with
        | failure e => failure e
        | success inode =>
            if negb (isDirectory inode) then failure E_NOT_DIR
            else match Directory_lookupInternal a d name with
                 | failure _ => failure E_NOT_FOUND
                 | success entry => success (de_inode entry)
                 end
        end
    end.
Proof.
  intros (Hne & Hdot & Hdots & Hplain).
  rewrite !resolvePath_components.
  rewrite splitPath_app by assumption. unfold splitPath_step.
  rewrite (proj2 (string_eqb_neq name [])) by exact Hne.
  rewrite (proj2 (string_eqb_neq name (str "."))) by exact Hdot.
  cbn [negb andb].
  rewrite (proj2 (string_eqb_neq name (str ".."))) by exact Hdots.
  rewrite resolve_components_app.
  destruct (resolve_components a (splitPath p) ROOT_INODE) as [d|e];
    [|reflexivity].
  cbn [resolve_components].
  destruct (Allocator_readInode a d) as [inode|e]; [|reflexivity].
  destruct (negb (isDirectory inode)); [reflexivity|].
  destruct (Directory_lookupInternal a d name); reflexivity.
Qed.

Lemma resolvePath_step_witness :
  plain_name (str "g")
  /\ Directory_resolvePath ex_alloc (str "/f" ++ slash :: str "g")
     = failure E_NOT_DIR
  /\ Directory_resolvePath ex_alloc (str "/" ++ slash :: str "g")
     = failure E_NOT_FOUND.
Proof.
  assert (Hg : plain_name (str "g")).
  { repeat split; try discriminate. }
  split; [exact Hg|]. split.
  - rewrite (resolvePath_step ex_alloc (str "/f") (str "g") Hg).
    vm_compute. reflexivity.
  - rewrite (resolvePath_step ex_alloc (str "/") (str "g") Hg).
    vm_compute. reflexivity.
Defined.

Lemma lookup_blocks_sound (a : Allocator) (dir : Inode) (name : list ascii)
      (n : nat) :
  forall bi e,
    lookup_blocks a dir name n bi = success e ->
    DirEntry_isValid e = true /\ DirEntry_getName e = name
    /\ exists k b entries i,
         bi <= k < bi + Z.of_nat n
         /\ Directory_getFileBlock a dir k = success b
         /\ Allocator_readBlockInternal a b = success entries
         /\ 0 <= i < DIRENTRIES_PER_BLOCK
         /\ e = entry_at entries i.
Proof.
  induction n as [|n IH]; intros bi e; cbn [lookup_blocks]; [discriminate|].
  assert (Hnext : lookup_blocks a dir name n (bi + 1) = success e ->
            DirEntry_isValid e = true /\ DirEntry_getName e = name
            /\ exists k b entries i,
                 bi <= k < bi + Z.of_nat (S n)
                 /\ Directory_getFileBlock a dir k = success b
                 /\ Allocator_readBlockInternal a b = success entries
                 /\ 0 <= i < DIRENTRIES_PER_BLOCK
                 /\ e = entry_at entries i).
  { intros H. destruct (IH _ _ H) as (H1 & H2 & k & b & en & i & Hk & Hrest).
    split; [exact H1|]. split; [exact H2|].
    exists k, b, en, i. split; [lia|exact Hrest]. }
  destruct (Directory_getFileBlock a dir bi) as [b|] eqn:Hb; [|exact Hnext].
  destruct (Allocator_readBlockInternal a b) as [entries|] eqn:Hr;
    [|exact Hnext].
  destruct (find_entry entries name) as [e'|] eqn:Hf; [|exact Hnext].
  intros [= <-]. unfold find_entry in Hf. apply find_some in Hf.
  destruct Hf as [Hin Hok]. apply andb_true_iff in Hok.
  destruct Hok as [Hv Hname]. apply string_eqb_eq in Hname.
  split; [exact Hv|]. split; [exact Hname|].
  apply in_map_iff in Hin. destruct Hin as (i & <- & Hi).
  apply In_range in Hi; [|lia].
  exists bi, b, entries, i. repeat split; try assumption; lia.
Qed.

(** X23.  What [lookupInternal] returns is an entry of the directory: the
    inode looked into is a directory, and the entry is a valid entry of one
    of its blocks that bears the name asked for.  On an inode that is no
    directory the result is [E_NOT_DIR]. *)
Theorem lookupInternal_sound (a : Allocator) (d : Z) (name : list ascii) :
  (forall e, Directory_lookupInternal a d name = success e ->
     DirEntry_isValid e = true /\ DirEntry_getName e = name
     /\ exists dir k b entries i,
          Allocator_readInode a d = success dir /\ isDirectory dir = true
          /\ Directory_getFileBlock a dir k = success b
          /\ Allocator_readBlockInternal a b = success entries
          /\ 0 <= i < DIRENTRIES_PER_BLOCK
          /\ e = entry_at entries i)
  /\ (forall inode, Allocator_readInode a d = success inode ->
                    isDirectory inode = false ->
                    Directory_lookupInternal a d name = failure E_NOT_DIR).
Proof.
  unfold Directory_lookupInternal. split.
  - intros e. destruct (Allocator_readInode a d) as [dir|]; [|discriminate].
    destruct (isDirectory dir) eqn:Hd; cbn [negb]; [|discriminate].
    intros H. apply lookup_blocks_sound in H.
    destruct H as (H1 & H2 & k & b & en & i & _ & Hg & Hr & Hi & He).
    split; [exact H1|]. split; [exact H2|].
    exists dir, k, b, en, i. split; [reflexivity|]. split; [exact Hd|].
    split; [exact Hg|]. split; [exact Hr|]. split; [exact Hi|exact He].
  - intros inode -> ->. reflexivity.
Qed.

Lemma lookupInternal_sound_witness :
  (exists e, Directory_lookupInternal ex_alloc 0 (str "f") = success e
             /\ de_inode e = 1 /\ DirEntry_getName e = str "f")
  /\ Directory_lookupInternal ex_alloc 1 (str "f") = failure E_NOT_DIR.
Proof.
  destruct (lookupInternal_sound ex_alloc 0 (str "f")) as [H _].
  destruct (lookupInternal_sound ex_alloc 1 (str "f")) as [_ H'].
  split.
  - eexists. split; [vm_compute; reflexivity|].
    split; [reflexivity|].
    exact (proj1 (proj2 (H _ ltac:(vm_compute; reflexivity)))).
  - apply (H' (Inode_init REGULAR)); reflexivity.
Defined.

(** ** Directory.cpp: the blocks of a file *)

Lemma fold_left_fixed {A B} (f : A -> B -> A) (l : list B) (st : A) :
  (forall x, In x l -> f st x = st) -> fold_left f l st = st.
Proof.
  induction l as [|x l IH]; intros H; [reflexivity|]. cbn [fold_left].
  rewrite (H x (or_introl eq_refl)). apply IH. intros y Hy. apply H.
  right. exact Hy.
Qed.

(** A file without pointers from [from_block] on has nothing to free. *)
Lemma freeFileBlocks_nothing (a : Allocator) (inode : Inode)
      (from_block : Z) :
  0 <= from_block ->
  (forall k, from_block <= k < NUM_DIRECT_BLOCKS ->
             direct_block inode k = INVALID_BLOCK) ->
  single_indirect inode = INVALID_BLOCK ->
  double_indirect inode = INVALID_BLOCK ->
  Directory_freeFileBlocks a inode from_block = (inode, a).
Proof.
  intros Hfrom Hd Hs Hdd. unfold Directory_freeFileBlocks, free_direct.
  rewrite fold_left_fixed.
  - cbv zeta. cbn [fst snd]. rewrite Hs, Z.eqb_refl. cbn [negb].
    rewrite andb_false_r. cbn [fst snd]. rewrite Hdd, Z.eqb_refl.
    cbn [negb]. rewrite andb_false_r. reflexivity.
  - intros k Hk. apply In_range in Hk; [|exact Hfrom]. cbn [fst].
    rewrite Hd by exact Hk. rewrite Z.eqb_refl. reflexivity.
Qed.

(** X24.  Freeing the blocks of a file from block 0 on leaves it without
    any block: [getFileBlock] finds none at any index, every block that was
    mapped lost a reference (and was released when that was its last one),
    and freeing again changes nothing. *)
Theorem freeFileBlocks_all (a : Allocator) (inode : Inode) :
  alloc_ready a ->
  let r := Directory_freeFileBlocks a inode 0 in
  (forall k, 0 <= k < maxBlocks ->
             Directory_getFileBlock (snd r) (fst r) k = failure E_NOT_FOUND)
  /\ (forall k b, 0 <= k ->
        Directory_getFileBlock a inode k = success b ->
        Allocator_isBlockAllocated a b = true ->
        1 <= Allocator_getBlockRef a b ->
        Allocator_getBlockRef (snd r) b < Allocator_getBlockRef a b
        /\ (Allocator_getBlockRef a b = 1 ->
            Allocator_isBlockAllocated (snd r) b = false))
  /\ Directory_freeFileBlocks (snd r) (fst r) 0 = r.
Proof.
  intros R r.
  destruct (freeFileBlocks_spec a inode 0 ltac:(lia)) as (Fa & Fd & Fs & Fdd).
  fold r in Fa, Fd, Fs, Fdd.
  assert (Hdirect : forall k, 0 <= k < NUM_DIRECT_BLOCKS ->
                              direct_block (fst r) k = INVALID_BLOCK).
  { intros k Hk. rewrite Fd by lia.
    destruct (Z.leb_spec 0 k); [|lia].
    destruct (Z.ltb_spec k NUM_DIRECT_BLOCKS); [reflexivity|lia]. }
  assert (Hs : single_indirect (fst r) = INVALID_BLOCK)
    by (apply Fs; change NUM_DIRECT_BLOCKS with 12; lia).
  assert (Hdd : double_indirect (fst r) = INVALID_BLOCK)
    by (apply Fdd; change NUM_DIRECT_BLOCKS with 12;
        change PTRS_PER_BLOCK with 256; lia).
  clearbody r. split; [|split].
  - intros k Hk. apply getFileBlock_cleared with 0; try assumption.
    left. change NUM_DIRECT_BLOCKS with 12. lia.
  - intros k b Hk Hg Halloc Hrc. rewrite Fa.
    apply free_list_frees; try assumption.
    apply blocks_freed_member with k; try assumption; try lia.
    left. change NUM_DIRECT_BLOCKS with 12. lia.
  - rewrite freeFileBlocks_nothing by (try assumption; lia).
    destruct r. reflexivity.
Qed.

Lemma freeFileBlocks_all_witness :
  Directory_getFileBlock ex_hello
    (default zero_inode (inode_table_ ex_hello !! 1)) 0 = success 9
  /\ Directory_getFileBlock
       (snd (Directory_freeFileBlocks ex_hello
               (default zero_inode (inode_table_ ex_hello !! 1)) 0))
       (fst (Directory_freeFileBlocks ex_hello
               (default zero_inode (inode_table_ ex_hello !! 1)) 0)) 0
     = failure E_NOT_FOUND
  /\ Allocator_isBlockAllocated
       (snd (Directory_freeFileBlocks ex_hello
               (default zero_inode (inode_table_ ex_hello !! 1)) 0)) 9
     = false.
Proof.
  destruct (freeFileBlocks_all ex_hello
              (default zero_inode (inode_table_ ex_hello !! 1))
              ex_hello_ready) as (H1 & H2 & _).
  assert (Hg : Directory_getFileBlock ex_hello
                 (default zero_inode (inode_table_ ex_hello !! 1)) 0
               = success 9) by (vm_compute; reflexivity).
  split; [exact Hg|]. split.
  - apply H1. zcompute.
  - apply (H2 0 9 ltac:(lia) Hg ltac:(vm_compute; reflexivity)
              ltac:(zcompute)).
    vm_compute. reflexivity.
Defined.

(** X25.  Beyond the first block of the double-indirect tree
    [freeFileBlocks] frees nothing: for [from_block] above 268 it returns
    the inode and the allocator as they are, whatever blocks the file has
    from [from_block] on. *)
Theorem freeFileBlocks_above_268 (a : Allocator) (inode : Inode)
        (from_block : Z) :
  NUM_DIRECT_BLOCKS + PTRS_PER_BLOCK < from_block ->
  Directory_freeFileBlocks a inode from_block = (inode, a).
Proof. exact (freeFileBlocks_beyond a inode from_block). Qed.

Lemma freeFileBlocks_above_268_witness :
  Directory_getFileBlock ex_big_alloc ex_big_inode 300 = success 22
  /\ Directory_freeFileBlocks ex_big_alloc ex_big_inode 300
     = (ex_big_inode, ex_big_alloc).
Proof.
  split; [vm_compute; reflexivity|].
  apply freeFileBlocks_above_268. zcompute.
Defined.

(** Where [getFileBlock] finds a block and no copy-on-write is due,
    [getOrAllocFileBlock] returns that block and changes nothing. *)
Lemma getOrAllocFileBlock_found (snap : option SnapshotManager)
      (a : Allocator) (inode : Inode) (inode_id k b : Z) :
  (forall x, snap_needsCOW snap a x = false) ->
  Directory_getFileBlock a inode k = success b ->
  Directory_getOrAllocFileBlock snap a inode inode_id k
  = (success b, inode, a).
Proof.
  intros Hcow. unfold Directory_getFileBlock, Directory_getOrAllocFileBlock.
  destruct (k <? NUM_DIRECT_BLOCKS).
  { destruct (direct_block inode k =? INVALID_BLOCK); [discriminate|].
    intros [= <-]. reflexivity. }
  cbv zeta.
  destruct (k - NUM_DIRECT_BLOCKS <? PTRS_PER_BLOCK).
  { destruct (single_indirect inode =? INVALID_BLOCK); [discriminate|].
    rewrite Hcow. intros ->. reflexivity. }
  destruct (k - NUM_DIRECT_BLOCKS - PTRS_PER_BLOCK
            <? PTRS_PER_BLOCK * PTRS_PER_BLOCK); [|discriminate].
  destruct (double_indirect inode =? INVALID_BLOCK); [discriminate|].
  rewrite Hcow.
  destruct (Directory_getIndirectBlock a (double_indirect inode) _)
    as [l1|e]; [|discriminate].
  rewrite Hcow. intros ->. reflexivity.
Qed.

(** X26.  Where the file has a block and no copy-on-write is due (no
    snapshot manager, no snapshot, or no shared block),
    [getOrAllocFileBlock] agrees with [getFileBlock]: it returns the block
    and changes neither the inode nor the allocator; and so does
    [cowDataBlockIfNeeded]. *)
Theorem getOrAllocFileBlock_existing (snap : option SnapshotManager)
        (a : Allocator) (inode : Inode) (inode_id k b : Z) :
  (forall x, snap_needsCOW snap a x = false) ->
  Directory_getFileBlock a inode k = success b ->
  Directory_getOrAllocFileBlock snap a inode inode_id k
  = (success b, inode, a)
  /\ Directory_cowDataBlockIfNeeded snap a inode inode_id k b
     = (success b, inode, a).
Proof.
  intros Hcow Hg. split.
  - apply getOrAllocFileBlock_found; assumption.
  - unfold Directory_cowDataBlockIfNeeded. destruct snap as [sm|];
      [|reflexivity].
    specialize (Hcow b). cbn [snap_needsCOW] in Hcow. rewrite Hcow.
    reflexivity.
Qed.

Lemma getOrAllocFileBlock_existing_witness :
  Directory_getOrAllocFileBlock (Some (ex_manager 0)) ex_big_alloc
                                ex_big_inode 1 300
  = (success 22, ex_big_inode, ex_big_alloc).
Proof.
  apply getOrAllocFileBlock_existing.
  - intros x. reflexivity.
  - vm_compute. reflexivity.
Defined.

(** ** Directory.cpp: a write inside one block, read back *)

Lemma memcpy_at_read_back (buf : list Z) (off : nat) (src : list Z) :
  (off + length src <= length buf)%nat ->
  firstn (length src) (skipn off (memcpy_at buf off src)) = src.
Proof.
  intros H. unfold memcpy_at.
  assert (Hl : length (firstn off buf) = off) by (rewrite length_take; lia).
  rewrite (drop_app_length' (take off buf) _ off (eq_sym Hl)).
  apply take_app_length'. reflexivity.
Qed.

Lemma memcpy_at_whole (src : list Z) (n : nat) :
  length src = n -> memcpy_at (repeat 0 n) 0 src = src.
Proof.
  intros H. unfold memcpy_at. cbn [firstn app Nat.add].
  rewrite skipn_all2 by (rewrite repeat_length; lia). apply app_nil_r.
Qed.

(** Writing a block other than the pointer blocks on the way to block [k]
    leaves the lookup of block [k] as it was. *)
Lemma getIndirectBlock_after_write (a : Allocator) (p index b : Z)
      (buf : Block) :
  is_open_ (disk_ a) = true -> b < total_blocks_ (disk_ a) -> p <> b ->
  Directory_getIndirectBlock
    (with_disk a (mkDisk true (total_blocks_ (disk_ a))
                         (<[b := buf]> (file_ (disk_ a))))) p index
  = Directory_getIndirectBlock a p index.
Proof.
  intros Ho Hb Hp. unfold Directory_getIndirectBlock,
    Allocator_readBlockInternal. cbn [disk_ with_disk].
  rewrite DiskImage_read_after_write by assumption.
  destruct (Z.eqb_spec p b); [contradiction|]. reflexivity.
Qed.

Lemma getFileBlock_after_write (a : Allocator) (inode : Inode) (k b : Z)
      (buf : Block) :
  is_open_ (disk_ a) = true -> b < total_blocks_ (disk_ a) ->
  ~ In b (pointer_blocks a inode k) ->
  Directory_getFileBlock
    (with_disk a (mkDisk true (total_blocks_ (disk_ a))
                         (<[b := buf]> (file_ (disk_ a))))) inode k
  = Directory_getFileBlock a inode k.
Proof.
  intros Ho Hb Hn. unfold Directory_getFileBlock, pointer_blocks in *.
  destruct (k <? NUM_DIRECT_BLOCKS); [reflexivity|]. cbv zeta.
  destruct (k - NUM_DIRECT_BLOCKS <? PTRS_PER_BLOCK).
  { rewrite getIndirectBlock_after_write; [reflexivity|assumption..|].
    intros E. apply Hn. left. exact E. }
  destruct (k - NUM_DIRECT_BLOCKS - PTRS_PER_BLOCK
            <? PTRS_PER_BLOCK * PTRS_PER_BLOCK); [|reflexivity].
  destruct (double_indirect inode =? INVALID_BLOCK); [reflexivity|].
  rewrite getIndirectBlock_after_write; [|assumption..|].
  2:{ intros E. apply Hn. left. exact E. }
  destruct (Directory_getIndirectBlock a (double_indirect inode) _)
    as [l1|e]; [|reflexivity].
  apply getIndirectBlock_after_write; [assumption..|].
  intros E. apply Hn. right. left. exact E.
Qed.

Lemma pointer_blocks_after_write (a : Allocator) (inode : Inode) (k b : Z)
      (buf : Block) :
  is_open_ (disk_ a) = true -> b < total_blocks_ (disk_ a) ->
  ~ In b (pointer_blocks a inode k) ->
  pointer_blocks
    (with_disk a (mkDisk true (total_blocks_ (disk_ a))
                         (<[b := buf]> (file_ (disk_ a))))) inode k
  = pointer_blocks a inode k.
Proof.
  intros Ho Hb Hn. unfold pointer_blocks in *.
  destruct (k <? NUM_DIRECT_BLOCKS); [reflexivity|].
  destruct (k - NUM_DIRECT_BLOCKS <? PTRS_PER_BLOCK); [reflexivity|].
  rewrite getIndirectBlock_after_write; [reflexivity|assumption..|].
  intros E. apply Hn. left. exact E.
Qed.

(** One iteration of the write loop is enough for data that stay inside
    one block: the block is read unless it is written as a whole, the data
    are copied in at the offset inside the block, and the block is written
    back. *)
Lemma write_loop_one_block (a a1 : Allocator) (inode inode1 : Inode)
      (id : Z) (data : list Z) (offset b : Z) (buf0 : Block) (fuel : nat) :
  (0 < fuel)%nat -> data <> [] -> 0 <= offset ->
  offset mod BLOCK_SIZE + Z.of_nat (length data) <= BLOCK_SIZE ->
  offset < 4294967296 ->
  Directory_getOrAllocFileBlock None a inode id (offset / BLOCK_SIZE)
  = (success b, inode1, a1) ->
  is_open_ (disk_ a1) = true -> b < total_blocks_ (disk_ a1) ->
  disk_sized (disk_ a1) -> length buf0 = Z.to_nat BLOCK_SIZE ->
  exists buf1,
    length buf1 = Z.to_nat BLOCK_SIZE
    /\ write_loop fuel None a inode id data offset buf0 0
       = Some (success (Z.of_nat (length data)), inode1,
               with_disk a1
                 (mkDisk true (total_blocks_ (disk_ a1))
                    (<[b := memcpy_at buf1 (Z.to_nat (offset mod BLOCK_SIZE))
                                      data]> (file_ (disk_ a1))))).
Proof.
  intros Hfuel Hdata Hoff Hin Hmax Hgo Ho Hb Hs Hbuf0.
  assert (Hlen : 0 < Z.of_nat (length data))
    by (destruct data; [contradiction|cbn [length]; lia]).
  pose proof (Z.mod_pos_bound offset BLOCK_SIZE ltac:(reflexivity)) as Hbo.
  assert (HBS : BLOCK_SIZE = 1024) by reflexivity.
  destruct fuel as [|fuel]; [lia|]. cbn [write_loop].
  destruct (Z.ltb_spec 0 (Z.of_nat (length data))) as [_|Hc]; [|lia].
  cbv zeta. rewrite Z.add_0_r, Z.sub_0_r, (u32_small offset) by lia.
  rewrite Hgo. cbn [Directory_cowDataBlockIfNeeded].
  rewrite (u32_small (BLOCK_SIZE - offset mod BLOCK_SIZE)) by lia.
  rewrite (u32_small (Z.of_nat (length data))) by lia.
  rewrite Z.min_r by lia.
  change (Z.to_nat 0) with 0%nat. cbn [skipn].
  rewrite Nat2Z.id, firstn_all.
  set (buf1 := if negb (offset mod BLOCK_SIZE =? 0)
                  || negb (Z.of_nat (length data) =? BLOCK_SIZE)
               then match Allocator_readBlockInternal a1 b with
                    | success blk => blk
                    | failure _ => zero_block
                    end
               else buf0).
  assert (Hbuf1 : length buf1 = Z.to_nat BLOCK_SIZE).
  { subst buf1.
    destruct (negb (offset mod BLOCK_SIZE =? 0)
              || negb (Z.of_nat (length data) =? BLOCK_SIZE));
      [|exact Hbuf0].
    destruct (Allocator_readBlockInternal a1 b) as [blk|e] eqn:Hr;
      [|reflexivity].
    exact (readBlockInternal_length a1 b blk Hs Hr). }
  exists buf1. split; [exact Hbuf1|].
  rewrite writeBlockInternal_ok by assumption. rewrite Ho.
  rewrite Z.add_0_l, (u32_small (Z.of_nat (length data))) by lia.
  destruct fuel; cbn [write_loop]; rewrite Z.ltb_irrefl; reflexivity.
Qed.

(** One iteration of the read loop is enough for a range inside one block
    that the file has. *)
Lemma read_loop_one_block (a : Allocator) (inode : Inode)
      (offset len b : Z) (blk : Block) (out : list Z) (fuel : nat) :
  (0 < fuel)%nat -> 0 <= offset -> 0 < len ->
  offset mod BLOCK_SIZE + len <= BLOCK_SIZE -> offset < 4294967296 ->
  Directory_getFileBlock a inode (offset / BLOCK_SIZE) = success b ->
  Allocator_readBlockInternal a b = success blk ->
  read_loop fuel a inode offset len out 0
  = Some (success
            (memcpy_at out 0
               (firstn (Z.to_nat len)
                       (skipn (Z.to_nat (offset mod BLOCK_SIZE)) blk)))).
Proof.
  intros Hfuel Hoff Hlen Hin Hmax Hg Hr.
  pose proof (Z.mod_pos_bound offset BLOCK_SIZE ltac:(reflexivity)) as Hbo.
  assert (HBS : BLOCK_SIZE = 1024) by reflexivity.
  destruct fuel as [|fuel]; [lia|]. cbn [read_loop].
  destruct (Z.ltb_spec 0 len) as [_|Hc]; [|lia].
  cbv zeta. rewrite Z.add_0_r, Z.sub_0_r, (u32_small offset) by lia.
  rewrite Hg, Hr. rewrite Z.min_r by lia.
  rewrite Z.add_0_l, (u32_small len) by lia.
  change (Z.to_nat 0) with 0%nat.
  destruct fuel; cbn [read_loop]; rewrite Z.ltb_irrefl; reflexivity.
Qed.

Lemma readInode_open (a : Allocator) (id : Z) (inode : Inode) :
  Allocator_readInode a id = success inode -> is_open_ (disk_ a) = true.
Proof.
  unfold Allocator_readInode, Allocator_readBlockInternal,
    DiskImage_readBlock.
  destruct (negb (loaded_ a)); [discriminate|].
  destruct (total_inodes (superblock_ a) <=? id); [discriminate|].
  destruct (is_open_ (disk_ a)); [reflexivity|discriminate].
Qed.

(** A write to a block other than the one that holds the record of an
    inode leaves the inode as it was. *)
Lemma readInode_after_write (a : Allocator) (id b : Z) (buf : Block) :
  is_open_ (disk_ a) = true -> b <> getInodeBlock a id ->
  Allocator_readInode
    (with_disk a (mkDisk true (total_blocks_ (disk_ a))
                         (<[b := buf]> (file_ (disk_ a))))) id
  = Allocator_readInode a id.
Proof.
  intros Ho _. unfold Allocator_readInode, getInodeBlock,
    Allocator_readBlockInternal, DiskImage_readBlock, validateBlockNo.
  cbn [disk_ with_disk loaded_ superblock_ inode_table_ is_open_
       total_blocks_ file_]. rewrite Ho. cbn [negb].
  destruct (negb (loaded_ a)); [reflexivity|].
  destruct (total_inodes (superblock_ a) <=? id); [reflexivity|].
  destruct (negb _); reflexivity.
Qed.

Lemma getFileBlock_success_bound (a : Allocator) (inode : Inode) (k b : Z) :
  Directory_getFileBlock a inode k = success b -> k < maxBlocks.
Proof.
  unfold Directory_getFileBlock. change maxBlocks with 65804.
  change NUM_DIRECT_BLOCKS with 12. change PTRS_PER_BLOCK with 256.
  destruct (Z.ltb_spec k 12); [lia|]. cbv zeta.
  destruct (Z.ltb_spec (k - 12) 256); [lia|].
  destruct (Z.ltb_spec (k - 12 - 256) (256 * 256)); [lia|discriminate].
Qed.

(** A write inside one block and the read of the same range, given the
    block that [getOrAllocFileBlock] hands out. *)
Lemma write_read_one_block (now now' : Z) (a a1 : Allocator) (id : Z)
      (inode inode1 upd : Inode) (data : list Z) (offset b : Z) :
  Allocator_readInode a id = success inode -> isRegularFile inode = true ->
  data <> [] -> 0 <= offset ->
  offset mod BLOCK_SIZE + Z.of_nat (length data) <= BLOCK_SIZE ->
  offset + Z.of_nat (length data) <= maxFileSize ->
  Directory_getOrAllocFileBlock None a inode id (offset / BLOCK_SIZE)
  = (success b, inode1, a1) ->
  Allocator_readInode a1 id = success upd -> same_ptrs upd inode1 ->
  isRegularFile upd = true ->
  b < total_blocks_ (disk_ a1) -> disk_sized (disk_ a1) ->
  (forall buf,
     Directory_getFileBlock
       (with_disk a1 (mkDisk true (total_blocks_ (disk_ a1))
                             (<[b := buf]> (file_ (disk_ a1)))))
       inode1 (offset / BLOCK_SIZE) = success b) ->
  b <> getInodeBlock a1 id ->
  (forall buf,
     ~ In (getInodeBlock a1 id)
          (pointer_blocks
             (with_disk a1 (mkDisk true (total_blocks_ (disk_ a1))
                                   (<[b := buf]> (file_ (disk_ a1)))))
             inode1 (offset / BLOCK_SIZE))) ->
  exists a2 i2,
    Directory_writeFileByInode now None a id data offset
    = Some (success (Z.of_nat (length data)), a2)
    /\ Allocator_readInode a2 id = success i2
    /\ size i2 = Z.max (size upd) (offset + Z.of_nat (length data))
    /\ exists a3,
         Directory_readFileByInode now' a2 id offset
                                   (Z.of_nat (length data))
         = Some (success data, a3).
Proof.
  intros Hri Hreg Hdata Hoff Hin Hmax Hgo Hru Hp Hregu Hb Hs Hst Hbi Hpi.
  pose proof (readInode_open a1 id upd Hru) as Ho.
  assert (Hlen : 0 < Z.of_nat (length data))
    by (destruct data; [contradiction|cbn [length]; lia]).
  assert (HM : maxFileSize = 67383296) by reflexivity.
  pose proof (Z.mod_pos_bound offset BLOCK_SIZE ltac:(reflexivity)) as Hbo.
  assert (HBS : BLOCK_SIZE = 1024) by reflexivity.
  destruct (write_loop_one_block a a1 inode inode1 id data offset b
              zero_block (length data))
    as (buf1 & Hbuf1 & Hw); try assumption; try lia; [reflexivity|].
  set (blk := memcpy_at buf1 (Z.to_nat (offset mod BLOCK_SIZE)) data) in *.
  set (a3 := with_disk a1 (mkDisk true (total_blocks_ (disk_ a1))
                                  (<[b := blk]> (file_ (disk_ a1))))) in *.
  assert (Hru3 : Allocator_readInode a3 id = success upd)
    by (subst a3; rewrite readInode_after_write; assumption).
  specialize (Hst blk). specialize (Hpi blk). fold a3 in Hst, Hpi.
  set (end_ := offset + Z.of_nat (length data)) in *.
  set (upd1 := if size upd <? end_ then set_size upd end_ else upd).
  set (i2 := updateModifyTime now upd1).
  destruct (inode_io a3 a3 id upd i2 Hru3) as [Hwi Hri2]; try reflexivity.
  set (a4 := with_inode_table a3 (<[id := i2]> (inode_table_ a3))) in *.
  (* what the read uses of [a4]: the inode, and the blocks other than that
     of the inode record *)
  assert (Hframe : forall x, x <> getInodeBlock a1 id ->
            Allocator_readBlockInternal a4 x
            = Allocator_readBlockInternal a3 x) by (intros x _; reflexivity).
  assert (Hblk : Allocator_readBlockInternal a3 b = success blk).
  { unfold Allocator_readBlockInternal. subst a3. cbn [disk_ with_disk].
    rewrite DiskImage_read_after_write by assumption.
    rewrite Z.eqb_refl. reflexivity. }
  exists a4, i2.
  assert (Hsize : size i2 = Z.max (size upd) end_).
  { subst i2 upd1. destruct (Z.ltb_spec (size upd) end_); cbn; lia. }
  assert (Hregi : isRegularFile i2 = true).
  { subst i2 upd1. destruct (size upd <? end_); exact Hregu. }
  assert (Hpi2 : same_ptrs i2 inode1).
  { subst i2 upd1. destruct Hp as (H1 & H2 & H3).
    destruct (size upd <? end_); repeat split; assumption. }
  split; [|split; [exact Hri2|split; [exact Hsize|]]].
  - unfold Directory_writeFileByInode.
    destruct data as [|x rest]; [contradiction|].
    set (data := x :: rest) in *. clearbody data.
    rewrite Hri, Hreg. cbn [negb].
    rewrite (u32_small (Z.of_nat (length data))) by lia.
    fold end_. rewrite (u32_small end_) by lia.
    destruct (Z.ltb_spec maxFileSize end_); [lia|].
    rewrite Hw, Hru3. cbv zeta. fold upd1. fold i2. rewrite Hwi.
    reflexivity.
  - clear Hwi. clearbody a4.
    unfold Directory_readFileByInode. rewrite Hri2, Hregi. cbn [negb].
    destruct (Z.leb_spec (size i2) offset); [lia|].
    fold end_. rewrite (u32_small end_) by lia.
    destruct (Z.eqb_spec (Z.of_nat (length data)) 0); [lia|].
    destruct (Z.ltb_spec (size i2) end_); [lia|]. cbn [orb]. cbv zeta.
    rewrite (read_loop_one_block _ i2 offset _ b blk); try assumption;
      try lia.
    + destruct (Allocator_writeInode _ id (updateAccessTime now' i2))
        as [e a5].
      exists a5. f_equal. f_equal. f_equal. subst blk.
      rewrite Nat2Z.id. rewrite memcpy_at_read_back by lia.
      apply memcpy_at_whole. reflexivity.
    + rewrite (getFileBlock_frame a3 a4 inode1 i2 (getInodeBlock a1 id) _
                 Hframe Hpi2 Hpi).
      exact Hst.
    + rewrite (Hframe b Hbi). exact Hblk.
Qed.

(** [writeInode] and [readInode] pass their checks again in a state whose
    image is open with the same number of blocks. *)
Lemma inode_io_disk (a a1 : Allocator) (id : Z) (inode i' : Inode) :
  Allocator_readInode a id = success inode ->
  loaded_ a1 = loaded_ a ->
  total_inodes (superblock_ a1) = total_inodes (superblock_ a) ->
  inode_table_start (superblock_ a1) = inode_table_start (superblock_ a) ->
  is_open_ (disk_ a1) = is_open_ (disk_ a) ->
  total_blocks_ (disk_ a1) = total_blocks_ (disk_ a) ->
  Allocator_writeInode a1 id i'
  = (OK, with_inode_table a1 (<[id := i']> (inode_table_ a1)))
  /\ Allocator_readInode
       (with_inode_table a1 (<[id := i']> (inode_table_ a1))) id
     = success i'.
Proof.
  intros Hr Hl Ht Hs Ho Hn.
  unfold Allocator_readInode, Allocator_writeInode, getInodeBlock,
    Allocator_readBlockInternal, DiskImage_readBlock, validateBlockNo in *.
  cbn [loaded_ superblock_ disk_ inode_table_ with_inode_table].
  rewrite Hl, Ht, Hs, Ho, Hn.
  destruct (negb (loaded_ a)); [discriminate|].
  destruct (total_inodes (superblock_ a) <=? id); [discriminate|].
  destruct (negb (is_open_ (disk_ a))); [discriminate|].
  destruct (negb _); [discriminate|].
  rewrite lookup_insert_eq. split; reflexivity.
Qed.

(** A hole among the direct blocks: [getOrAllocFileBlock] takes the first
    free block, enters it in the inode, counts it and writes the inode. *)
Lemma getOrAllocFileBlock_direct_hole (a : Allocator) (inode : Inode)
      (id k : Z) :
  alloc_ready a -> has_free_block a ->
  Allocator_readInode a id = success inode ->
  0 <= k < NUM_DIRECT_BLOCKS -> direct_block inode k = INVALID_BLOCK ->
  length (direct_blocks inode) = 12%nat ->
  let b := data_block_start (superblock_ a) + findFreeBlock a in
  let inode1 := inc_block_count (set_direct_block inode k b) in
  let a1 := allocated_state a (findFreeBlock a) in
  let a2 := with_inode_table a1 (<[id := inode1]> (inode_table_ a1)) in
  Directory_getOrAllocFileBlock None a inode id k = (success b, inode1, a2)
  /\ Allocator_readInode a2 id = success inode1
  /\ direct_block inode1 k = b
  /\ b < total_blocks_ (disk_ a) /\ b <> INVALID_BLOCK.
Proof.
  intros R Hfree Hri Hk Hd Hlen b inode1 a1 a2.
  destruct (findFreeBlock_free a R Hfree) as [Hj _].
  destruct (inode_io_disk a a1 id inode inode1 Hri) as [Hw Hr];
    try reflexivity.
  assert (Hdb : direct_block inode1 k = b).
  { subst inode1. unfold direct_block, inc_block_count, set_direct_block.
    cbn [direct_blocks set_block_count set_direct_blocks].
    apply nth_insert_same. rewrite Hlen.
    change NUM_DIRECT_BLOCKS with 12 in Hk. lia. }
  assert (Hb : b < total_blocks_ (disk_ a) /\ b <> INVALID_BLOCK).
  { pose proof (ready_region a R). pose proof (ready_total a R).
    subst b. unfold INVALID_BLOCK. lia. }
  split; [|split; [exact Hr|split; [exact Hdb|exact Hb]]].
  unfold Directory_getOrAllocFileBlock.
  destruct (Z.ltb_spec k NUM_DIRECT_BLOCKS); [|lia].
  rewrite Hd, Z.eqb_refl. rewrite (allocBlock_success a R Hfree).
  fold b. fold a1. cbv zeta. fold inode1. rewrite Hw. fold a2.
  rewrite Hdb. reflexivity.
Qed.

Lemma disk_sized_insert (d : DiskImage) (o : bool) (n b : Z) (buf : Block) :
  disk_sized d -> length buf = Z.to_nat BLOCK_SIZE ->
  disk_sized (mkDisk o n (<[b := buf]> (file_ d))).
Proof.
  intros Hs Hbuf x blk. cbn [file_].
  destruct (Z.eq_dec x b) as [->|Hne].
  - rewrite lookup_insert_eq. intros [= <-]. exact Hbuf.
  - rewrite lookup_insert_ne by congruence. apply Hs.
Qed.

(** X30.  [writeFileByInode] and [readFileByInode]: data that stay inside
    one block of a regular file are written in full and read back
    unchanged, and the size of the file becomes the larger of the old size
    and the end of the write.  This holds when the file already has the
    block, provided that the block is neither one of the pointer blocks on
    the way to it nor the block of the inode record, and that no pointer
    block is the block of the inode record; and when the block is a hole
    among the direct blocks, the allocator can hand out a block and the
    inode record lies before the data region, where no block is handed
    out. *)
Theorem write_then_read (now now' : Z) (a : Allocator) (id : Z)
        (inode : Inode) (data : list Z) (offset : Z) :
  Allocator_readInode a id = success inode -> isRegularFile inode = true ->
  data <> [] -> 0 <= offset ->
  offset mod BLOCK_SIZE + Z.of_nat (length data) <= BLOCK_SIZE ->
  disk_sized (disk_ a) ->
  (exists b, Directory_getFileBlock a inode (offset / BLOCK_SIZE) = success b
             /\ b < total_blocks_ (disk_ a)
             /\ ~ In b (pointer_blocks a inode (offset / BLOCK_SIZE))
             /\ b <> getInodeBlock a id
             /\ ~ In (getInodeBlock a id)
                     (pointer_blocks a inode (offset / BLOCK_SIZE)))
  \/ (offset / BLOCK_SIZE < NUM_DIRECT_BLOCKS
      /\ direct_block inode (offset / BLOCK_SIZE) = INVALID_BLOCK
      /\ length (direct_blocks inode) = 12%nat
      /\ alloc_ready a /\ has_free_block a
      /\ getInodeBlock a id < data_block_start (superblock_ a)) ->
  exists a2 i2,
    Directory_writeFileByInode now None a id data offset
    = Some (success (Z.of_nat (length data)), a2)
    /\ Allocator_readInode a2 id = success i2
    /\ size i2 = Z.max (size inode) (offset + Z.of_nat (length data))
    /\ exists a3,
         Directory_readFileByInode now' a2 id offset
                                   (Z.of_nat (length data))
         = Some (success data, a3).
Proof.
  intros Hri Hreg Hdata Hoff Hin Hs Hcase.
  pose proof (readInode_open a id inode Hri) as Ho.
  pose proof (Z.mod_pos_bound offset BLOCK_SIZE ltac:(reflexivity)) as Hbo.
  pose proof (Z.div_mod offset BLOCK_SIZE ltac:(discriminate)) as Hdm.
  assert (HBS : BLOCK_SIZE = 1024) by reflexivity.
  assert (HM : maxFileSize = 67383296) by reflexivity.
  assert (Hk0 : 0 <= offset / BLOCK_SIZE)
    by (apply Z.div_pos; [exact Hoff|reflexivity]).
  destruct Hcase
    as [(b & Hg & Hb & Hnp & Hbi & Hpi)|(Hk & Hd & Hlen & R & Hfree & Hib)].
  - pose proof (getFileBlock_success_bound a inode _ b Hg) as Hkb.
    change maxBlocks with 65804 in Hkb.
    apply (write_read_one_block now now' a a id inode inode inode data
                                offset b); try assumption.
    + lia.
    + apply getOrAllocFileBlock_found; [reflexivity|exact Hg].
    + repeat split.
    + intros buf. rewrite getFileBlock_after_write by assumption. exact Hg.
    + intros buf. rewrite pointer_blocks_after_write by assumption.
      exact Hpi.
  - destruct (getOrAllocFileBlock_direct_hole a inode id
                (offset / BLOCK_SIZE) R Hfree Hri ltac:(lia) Hd Hlen)
      as (Hgo & Hr & Hdb & Hb & Hinv).
    change NUM_DIRECT_BLOCKS with 12 in Hk.
    apply (write_read_one_block now now' a _ id inode _ _ data offset _
             Hri Hreg Hdata Hoff Hin ltac:(lia) Hgo Hr).
    + repeat split.
    + exact Hreg.
    + exact Hb.
    + apply disk_sized_insert; [exact Hs|reflexivity].
    + intros buf. unfold Directory_getFileBlock.
      destruct (Z.ltb_spec (offset / BLOCK_SIZE) NUM_DIRECT_BLOCKS) as [_|Hc];
        [|change NUM_DIRECT_BLOCKS with 12 in Hc; lia].
      cbv zeta. rewrite Hdb.
      destruct (Z.eqb_spec
                  (data_block_start (superblock_ a) + findFreeBlock a)
                  INVALID_BLOCK); [contradiction|reflexivity].
    + destruct (findFreeBlock_free a R Hfree) as [Hj _].
      change (getInodeBlock _ id) with (getInodeBlock a id). lia.
    + intros buf. unfold pointer_blocks.
      destruct (Z.ltb_spec (offset / BLOCK_SIZE) NUM_DIRECT_BLOCKS) as [_|Hc];
        [intros []|change NUM_DIRECT_BLOCKS with 12 in Hc; lia].
Qed.

(** In the example, [Hello] is written into the empty file [/f], which
    takes the free block 9 for it, and [Rocq!] is written over the bytes
    6..10 of the file that holds [Hello World!]; both are read back.  The
    inode record of [/f] lies in block 3, before the data region, which
    starts at block 8. *)
Lemma write_then_read_witness :
  (Allocator_readInode ex_alloc 1 = success (Inode_init REGULAR)
   /\ direct_block (Inode_init REGULAR) 0 = INVALID_BLOCK
   /\ exists a2 i2,
        Directory_writeFileByInode 0 None ex_alloc 1 (bytes "Hello") 0
        = Some (success 5, a2)
        /\ Allocator_readInode a2 1 = success i2
        /\ size i2 = 5
        /\ exists a3,
             Directory_readFileByInode 0 a2 1 0 5
             = Some (success (bytes "Hello"), a3))
  /\ (exists inode,
        Allocator_readInode ex_hello 1 = success inode
        /\ size inode = 12
        /\ Directory_getFileBlock ex_hello inode 0 = success 9
        /\ exists a2 i2,
             Directory_writeFileByInode 0 None ex_hello 1 (bytes "Rocq!") 6
             = Some (success 5, a2)
             /\ Allocator_readInode a2 1 = success i2
             /\ size i2 = 12
             /\ exists a3,
                  Directory_readFileByInode 0 a2 1 6 5
                  = Some (success (bytes "Rocq!"), a3)).
Proof.
  split.
  - split; [vm_compute; reflexivity|]. split; [vm_compute; reflexivity|].
    apply (write_then_read 0 0 ex_alloc 1 (Inode_init REGULAR)
                           (bytes "Hello") 0).
    + vm_compute. reflexivity.
    + reflexivity.
    + discriminate.
    + lia.
    + apply Z.leb_le. vm_compute. reflexivity.
    + apply disk_sized_check. vm_compute. reflexivity.
    + right. split; [apply Z.ltb_lt; vm_compute; reflexivity|].
      split; [vm_compute; reflexivity|]. split; [reflexivity|].
      split; [exact ex_alloc_ready|]. split; [exact ex_alloc_free|].
      apply Z.ltb_lt. vm_compute. reflexivity.
  - set (inode := default zero_inode (inode_table_ ex_hello !! 1)).
    assert (Hr : Allocator_readInode ex_hello 1 = success inode)
      by (vm_compute; reflexivity).
    assert (Hsz : size inode = 12) by (vm_compute; reflexivity).
    assert (Hg : Directory_getFileBlock ex_hello inode 0 = success 9)
      by (vm_compute; reflexivity).
    exists inode. split; [exact Hr|]. split; [exact Hsz|].
    split; [exact Hg|].
    destruct (write_then_read 0 0 ex_hello 1 inode (bytes "Rocq!") 6)
      as (a2 & i2 & Hw & Hri & Hsize & a3 & Hrd).
    + exact Hr.
    + vm_compute. reflexivity.
    + discriminate.
    + lia.
    + apply Z.leb_le. vm_compute. reflexivity.
    + apply disk_sized_check. vm_compute. reflexivity.
    + left. exists 9. split; [exact Hg|].
      split; [apply Z.ltb_lt; vm_compute; reflexivity|].
      split; [intros H; vm_compute in H; exact H|].
      split; [vm_compute; discriminate|].
      intros H. vm_compute in H. exact H.
    + exists a2, i2. split; [exact Hw|]. split; [exact Hri|].
      split; [rewrite Hsize, Hsz; reflexivity|].
      exists a3. exact Hrd.
Defined.

(** ** Snapshot.cpp: the list of snapshots *)

(** The loop of [findSnapshotIndex] from index [i]. *)
Lemma findSnapshotIndex_from_spec (name : list ascii)
      (l : list SnapshotInfo) :
  forall i, 0 <= i -> i + Z.of_nat (length l) < 2147483648 ->
    (findSnapshotIndex_from l name i = -1
     /\ Forall (fun s => si_valid s = true -> si_name s <> name) l)
    \/ (exists k s,
          findSnapshotIndex_from l name i = i + Z.of_nat k
          /\ nth_error l k = Some s
          /\ si_valid s = true /\ si_name s = name
          /\ Forall (fun s => si_valid s = true -> si_name s <> name)
                    (firstn k l)).
Proof.
  induction l as [|s l IH]; intros i Hi Hlen.
  - left. split; [reflexivity|constructor].
  - cbn [findSnapshotIndex_from].
    destruct (string_eqb (si_name s) name && si_valid s) eqn:Hhit.
    + right. exists 0%nat, s. apply andb_true_iff in Hhit.
      destruct Hhit as [Hn Hv]. apply string_eqb_eq in Hn.
      cbn [length] in Hlen.
      rewrite u32_small, i32_small by lia.
      repeat split; try assumption; [lia|constructor].
    + assert (Hhead : si_valid s = true -> si_name s <> name).
      { intros Hv Hn. apply string_eqb_eq in Hn. rewrite Hn, Hv in Hhit.
        discriminate. }
      cbn [length] in Hlen.
      destruct (IH (i + 1) ltac:(lia) ltac:(lia))
        as [[Hr Hall]|(k & s' & Hr & Hk & Hv & Hn & Hbefore)].
      * left. split; [exact Hr|]. constructor; assumption.
      * right. exists (S k), s'. split; [rewrite Hr; lia|].
        split; [exact Hk|]. split; [exact Hv|]. split; [exact Hn|].
        cbn [firstn]. constructor; assumption.
Qed.

(** X27.  [getSnapshot] returns the first valid snapshot of the list that
    bears the name, and [E_SNAPSHOT_NOT_FOUND] exactly when no valid
    snapshot bears it; [snapshotExists] tells the two cases apart. *)
Theorem getSnapshot_spec (sm : SnapshotManager) (name : list ascii) :
  Z.of_nat (length (snapshots_ sm)) < 2147483648 ->
  (SnapshotManager_getSnapshot sm name = failure E_SNAPSHOT_NOT_FOUND
   /\ SnapshotManager_snapshotExists sm name = false
   /\ fresh_name sm name)
  \/ (exists k s,
        SnapshotManager_getSnapshot sm name = success s
        /\ SnapshotManager_snapshotExists sm name = true
        /\ findSnapshotIndex sm name = Z.of_nat k
        /\ nth_error (snapshots_ sm) k = Some s
        /\ si_valid s = true /\ si_name s = name
        /\ Forall (fun s => si_valid s = true -> si_name s <> name)
                  (firstn k (snapshots_ sm))).
Proof.
  intros Hlen.
  unfold SnapshotManager_getSnapshot, SnapshotManager_snapshotExists,
    findSnapshotIndex, fresh_name.
  destruct (findSnapshotIndex_from_spec name (snapshots_ sm) 0 ltac:(lia)
              ltac:(lia))
    as [[Hr Hall]|(k & s & Hr & Hk & Hv & Hn & Hbefore)].
  - left. rewrite Hr. repeat split. exact Hall.
  - right. exists k, s. rewrite Hr, !Z.add_0_l.
    destruct (Z.ltb_spec (Z.of_nat k) 0); [lia|].
    destruct (Z.leb_spec 0 (Z.of_nat k)); [|lia].
    rewrite Nat2Z.id. rewrite (nth_error_nth _ _ _ Hk).
    repeat split; assumption.
Qed.

Lemma getSnapshot_spec_witness :
  SnapshotManager_getSnapshot (ex_manager 3) (str "sB")
  = success (ex_snapshot 1)
  /\ SnapshotManager_getSnapshot (ex_manager 3) (str "none")
     = failure E_SNAPSHOT_NOT_FOUND.
Proof.
  split.
  - destruct (getSnapshot_spec (ex_manager 3) (str "sB") ltac:(zcompute))
      as [(H & _)|(k & s & H & _)]; [vm_compute in H; discriminate H|].
    reflexivity.
  - destruct (getSnapshot_spec (ex_manager 3) (str "none") ltac:(zcompute))
      as [(H & _)|(k & s & H & _)]; [exact H|vm_compute in H; discriminate H].
Defined.

Lemma findSnapshotIndex_cases (sm : SnapshotManager) (name : list ascii) :
  Z.of_nat (length (snapshots_ sm)) < 2147483648 ->
  (findSnapshotIndex sm name = -1 /\ fresh_name sm name)
  \/ (exists k : nat, findSnapshotIndex sm name = Z.of_nat k).
Proof.
  intros Hlen. unfold findSnapshotIndex, fresh_name.
  destruct (findSnapshotIndex_from_spec name (snapshots_ sm) 0 ltac:(lia)
              ltac:(lia)) as [[Hr Hall]|(k & s & Hr & _)].
  - left. split; assumption.
  - right. exists k. rewrite Hr. lia.
Qed.

(** A valid snapshot appended to a list in which its name is fresh is found
    at the end. *)
Lemma findSnapshotIndex_from_last (name : list ascii) (info : SnapshotInfo)
      (l : list SnapshotInfo) :
  si_name info = name -> si_valid info = true ->
  Forall (fun s => si_valid s = true -> si_name s <> name) l ->
  forall i, 0 <= i -> i + Z.of_nat (length l) < 2147483648 ->
    findSnapshotIndex_from (l ++ [info]) name i = i + Z.of_nat (length l).
Proof.
  intros Hn Hv Hfresh. induction Hfresh as [|s l Hs Hl IH]; intros i Hi Hlen.
  - cbn [app findSnapshotIndex_from length].
    rewrite (proj2 (string_eqb_eq _ _) Hn), Hv. cbn [andb].
    rewrite u32_small, i32_small by (cbn in Hlen; lia). cbn. lia.
  - cbn [app findSnapshotIndex_from length] in *.
    destruct (string_eqb (si_name s) name && si_valid s) eqn:Hhit.
    + apply andb_true_iff in Hhit. destruct Hhit as [He Hvs].
      apply string_eqb_eq in He. exfalso. exact (Hs Hvs He).
    + rewrite IH by lia. lia.
Qed.

Lemma getSnapshot_last (sm : SnapshotManager) (name : list ascii)
      (info : SnapshotInfo) (slb : Z) (d : bool) :
  si_name info = name -> si_valid info = true ->
  fresh_name sm name ->
  Z.of_nat (length (snapshots_ sm)) < 2147483648 ->
  SnapshotManager_getSnapshot
    (mkSnapshotManager (snapshots_ sm ++ [info]) slb true d) name
  = success info.
Proof.
  intros Hn Hv Hfresh Hlen.
  unfold SnapshotManager_getSnapshot, findSnapshotIndex. cbn [snapshots_].
  rewrite (findSnapshotIndex_from_last name info _ Hn Hv Hfresh 0)
    by lia.
  rewrite Z.add_0_l.
  destruct (Z.ltb_spec (Z.of_nat (length (snapshots_ sm))) 0);
    [lia|].
  rewrite Nat2Z.id, app_nth2, Nat.sub_diag by lia. reflexivity.
Qed.

Section CreateSnapshotProperties.
Variable cloneInodeTree : Allocator -> Z -> Result Z * Allocator.
Variable saveSnapshotList :
  list SnapshotInfo -> Z -> Allocator -> ErrorCode * Z * Allocator.
Variable Allocator_sync : Allocator -> ErrorCode * Allocator.
Variable now : Z.

(** X28.  [createSnapshot] checks the name before the number of
    snapshots: an empty name or one of more than 31 characters gives
    [E_NAME_TOO_LONG], and a name that a valid snapshot bears gives
    [E_SNAPSHOT_EXISTS] even when the list is full; neither changes the
    manager or the allocator, whatever the clone, save and sync procedures
    do. *)
Theorem createSnapshot_name_checks (sm : SnapshotManager) (a : Allocator)
        (name : list ascii) :
  sm_loaded_ sm = true ->
  Z.of_nat (length (snapshots_ sm)) < 2147483648 ->
  (name = [] \/ MAX_SNAPSHOT_NAME_LEN - 1 < Z.of_nat (length name) ->
   SnapshotManager_createSnapshot cloneInodeTree saveSnapshotList
     Allocator_sync now sm a name = (E_NAME_TOO_LONG, sm, a))
  /\ (name <> [] -> Z.of_nat (length name) <= MAX_SNAPSHOT_NAME_LEN - 1 ->
      ~ fresh_name sm name ->
      SnapshotManager_createSnapshot cloneInodeTree saveSnapshotList
        Allocator_sync now sm a name = (E_SNAPSHOT_EXISTS, sm, a)).
Proof.
  intros Hl Hlen. unfold SnapshotManager_createSnapshot.
  rewrite Hl. cbn [negb]. split.
  - intros [->|Hlong]; [reflexivity|].
    destruct (bool_decide (name = [])); [reflexivity|]. cbn [orb].
    destruct (Z.ltb_spec (MAX_SNAPSHOT_NAME_LEN - 1)
                         (Z.of_nat (length name))); [reflexivity|lia].
  - intros Hne Hshort Hdup.
    destruct (bool_decide_reflect (name = [])); [contradiction|].
    cbn [orb].
    destruct (Z.ltb_spec (MAX_SNAPSHOT_NAME_LEN - 1)
                         (Z.of_nat (length name))); [lia|].
    destruct (findSnapshotIndex_cases sm name Hlen) as [[_ Hfresh]|Hfound];
      [contradiction|].
    destruct Hfound as (k & ->).
    destruct (Z.leb_spec 0 (Z.of_nat k)); [reflexivity|lia].
Qed.

(** X29.  Once the checks have passed and the clone has succeeded,
    [createSnapshot] appends the snapshot to the list before it saves:
    whatever the save and the sync return, the new snapshot is the last of
    the list, valid, with the root that the clone returned, and is found by
    its name; the manager stays dirty unless both succeed.  When the clone
    fails, its error is returned and the manager is unchanged. *)
Theorem createSnapshot_appends (sm : SnapshotManager) (a : Allocator)
        (name : list ascii) :
  sm_loaded_ sm = true ->
  name <> [] -> Z.of_nat (length name) <= MAX_SNAPSHOT_NAME_LEN - 1 ->
  fresh_name sm name ->
  Z.of_nat (length (snapshots_ sm)) < MAX_SNAPSHOTS ->
  (forall e a1, cloneInodeTree a (root_inode (superblock_ a))
                = (failure e, a1) ->
                SnapshotManager_createSnapshot cloneInodeTree saveSnapshotList
                  Allocator_sync now sm a name = (e, sm, a1))
  /\ (forall root a1,
        cloneInodeTree a (root_inode (superblock_ a)) = (success root, a1) ->
        exists err sm' a' info,
          SnapshotManager_createSnapshot cloneInodeTree saveSnapshotList
            Allocator_sync now sm a name = (err, sm', a')
          /\ snapshots_ sm' = snapshots_ sm ++ [info]
          /\ si_name info = name /\ si_valid info = true
          /\ si_root_inode info = root /\ si_create_time info = now
          /\ SnapshotManager_getSnapshot sm' name = success info
          /\ (sm_dirty_ sm' = false <-> err = OK)).
Proof.
  intros Hl Hne Hshort Hfresh Hroom.
  unfold SnapshotManager_createSnapshot.
  rewrite Hl. cbn [negb].
  destruct (bool_decide_reflect (name = [])); [contradiction|]. cbn [orb].
  destruct (Z.ltb_spec (MAX_SNAPSHOT_NAME_LEN - 1) (Z.of_nat (length name)));
    [lia|].
  unfold findSnapshotIndex. rewrite (findSnapshotIndex_fresh _ _ _ Hfresh).
  change (0 <=? -1) with false. cbv iota.
  destruct (Z.leb_spec MAX_SNAPSHOTS (Z.of_nat (length (snapshots_ sm))));
    [lia|].
  cbv zeta. change MAX_SNAPSHOTS with 15 in Hroom. split.
  - intros e a1 ->. reflexivity.
  - intros root a1 ->.
    set (info := mkSnapshotInfo name now root _ true).
    assert (Hget : forall slb d,
              SnapshotManager_getSnapshot
                (mkSnapshotManager (snapshots_ sm ++ [info]) slb true d) name
              = success info).
    { intros slb d. apply getSnapshot_last; try assumption; try reflexivity.
      lia. }
    destruct (saveSnapshotList _ _ _) as [[e1 slb] a3].
    destruct e1;
      try (eexists _, _, _, info; split; [reflexivity|];
           repeat split; try apply Hget; cbn; intros; discriminate).
    destruct (Allocator_sync a3) as [e2 a4].
    destruct e2;
      eexists _, _, _, info; (split; [reflexivity|]);
        repeat split; try apply Hget; cbn; intros; try discriminate;
          reflexivity.
Qed.

End CreateSnapshotProperties.

Lemma createSnapshot_name_checks_witness :
  SnapshotManager_createSnapshot ex_clone ex_save ex_sync 0
    (ex_manager 15) ex_alloc (str "sA")
  = (E_SNAPSHOT_EXISTS, ex_manager 15, ex_alloc)
  /\ SnapshotManager_createSnapshot ex_clone ex_save ex_sync 0
       (ex_manager 15) ex_alloc []
     = (E_NAME_TOO_LONG, ex_manager 15, ex_alloc).
Proof.
  destruct (createSnapshot_name_checks ex_clone ex_save ex_sync 0
              (ex_manager 15) ex_alloc (str "sA") eq_refl ltac:(zcompute))
    as [_ H].
  destruct (createSnapshot_name_checks ex_clone ex_save ex_sync 0
              (ex_manager 15) ex_alloc [] eq_refl ltac:(zcompute))
    as [H' _].
  split.
  - apply H; [discriminate|zcompute|].
    intros Hfresh. unfold fresh_name in Hfresh. cbn in Hfresh.
    inversion Hfresh as [|? ? Hhead _]. apply Hhead; reflexivity.
  - apply H'. left. reflexivity.
Defined.

Lemma createSnapshot_appends_witness :
  exists sm' a',
    SnapshotManager_createSnapshot ex_clone_ok ex_save ex_sync 7
      (ex_manager 2) ex_alloc (str "new") = (E_IO, sm', a')
    /\ length (snapshots_ sm') = 3%nat
    /\ sm_dirty_ sm' = true
    /\ SnapshotManager_snapshotExists sm' (str "new") = true.
Proof.
  assert (Hfresh : fresh_name (ex_manager 2) (str "new")).
  { unfold fresh_name. cbn. repeat constructor; intros _; discriminate. }
  destruct (createSnapshot_appends ex_clone_ok ex_save ex_sync 7
              (ex_manager 2) ex_alloc (str "new") eq_refl
              ltac:(discriminate) ltac:(zcompute) Hfresh ltac:(zcompute))
    as [_ H].
  destruct (H 5 ex_alloc eq_refl)
    as (err & sm' & a' & info & Hrun & Hl & _ & _ & _ & _ & _ & Hd).
  assert (He : err = E_IO).
  { assert (Hf : fst (fst (SnapshotManager_createSnapshot ex_clone_ok
                             ex_save ex_sync 7 (ex_manager 2) ex_alloc
                             (str "new"))) = E_IO) by reflexivity.
    rewrite Hrun in Hf. exact Hf. }
  subst err. exists sm', a'. split; [exact Hrun|].
  assert (Hsm : sm' = snd (fst (SnapshotManager_createSnapshot ex_clone_ok
                             ex_save ex_sync 7 (ex_manager 2) ex_alloc
                             (str "new")))) by (rewrite Hrun; reflexivity).
  split; [rewrite Hl, length_app; reflexivity|].
  split; [|rewrite Hsm; reflexivity].
  destruct (sm_dirty_ sm'); [reflexivity|].
  destruct Hd as [Hd _]. specialize (Hd eq_refl). discriminate Hd.
Defined.
